(** * PyxelPlumber: a shallow embedding of [pyxel_plumber/app.py]

    The development follows the source file top to bottom: tile
    classification and the corner-sampling tile checks, the AABB overlap
    test and the pushback resolver, the entity classes with their
    collision protocol, the keyed state machine with the player's four
    states, the registry clean-up pass and the camera.

    World coordinates are Python numbers (ints that become floats as soon
    as gravity or a speed is added).  They are modelled as rationals [Q];
    rounding of floating-point arithmetic is not modelled.  Values the
    code assigns are compared with Leibniz equality: the model performs
    the very same operation ([Qminus], [Qopp], ...) the source performs. *)

From Stdlib Require Import QArith Qabs Qround Lqa.
From stdpp Require Import base decidable option list gmap.

Local Open Scope Z_scope.

(** ** Python numbers *)

Module Py.

(** [a < b] on numbers, as a boolean. *)
Definition ltb (a b : Q) : bool :=
  match (a ?= b)%Q with Lt => true | _ => false end.

(** [a == b] on numbers. *)
Definition eqb (a b : Q) : bool := Qeq_bool a b.

(** [int(x)]: truncation towards zero. *)
Definition int (x : Q) : Z := Z.quot (Qnum x) (Zpos (Qden x)).

(** [min(a, b)]: the later argument wins only when strictly smaller. *)
Definition min2 (a b : Q) : Q := if ltb b a then b else a.

(** [max(a, b)]: the later argument wins only when strictly greater. *)
Definition max2 (a b : Q) : Q := if ltb a b then b else a.

(** [min(a, b, c, d)]: a left-to-right scan keeping the first minimum. *)
Definition min4 (a b c d : Q) : Q := min2 (min2 (min2 a b) c) d.

End Py.

(** ** Constants *)

Definition SCREEN_WIDTH : Q := 256.
Definition SCREEN_HEIGHT : Q := 240.
Definition TILE_SIZE : Z := 8.
Definition SCROLL_BORDER_X : Q := inject_Z (240 * TILE_SIZE).
Definition SCROLL_BORDER_Y : Q := inject_Z (16 * TILE_SIZE).

(** A tile id is the pair [(image_tx, image_ty)]. *)
Abbreviation TileId := (Z * Z)%type.

Definition SPARKLES : TileId := (3, 8).
Definition DEAD_HERO : TileId := (3, 1).
Definition LADDER : TileId := (6, 5).
Definition VINE_LADDER : TileId := (5, 5).
Definition SOLID_GRASS : TileId := (4, 0).
Definition SOLID_CHECKER : TileId := (4, 1).
Definition SOLID_BRICK : TileId := (5, 0).
Definition SOLID_CERA : TileId := (5, 1).
Definition SOLID_BLOCK : TileId := (4, 7).
Definition SOLID_GRAY : TileId := (5, 7).
Definition SOLID_PIPE_UPPER_LEFT : TileId := (4, 8).
Definition SOLID_PIPE_UPPER_RIGHT : TileId := (5, 8).
Definition SOLID_PIPE_LOWER_LEFT : TileId := (4, 9).
Definition SOLID_PIPE_LOWER_RIGHT : TileId := (5, 9).

Definition solid_tiles : gset TileId :=
  {[ SOLID_GRASS; SOLID_CHECKER; SOLID_BRICK; SOLID_CERA; SOLID_BLOCK;
     SOLID_GRAY; SOLID_PIPE_UPPER_LEFT; SOLID_PIPE_UPPER_RIGHT;
     SOLID_PIPE_LOWER_LEFT; SOLID_PIPE_LOWER_RIGHT ]}.

(** ** Tile classification and the tile-grid checks *)

Definition is_solid_tile (t : TileId) : bool := bool_decide (t ∈ solid_tiles).

Definition is_ladder_tile (t : TileId) : bool :=
  bool_decide (t ∈ ({[ LADDER; VINE_LADDER ]} : gset TileId)).

Section TileGrid.

(** [get_tile] reads [pyxel.tilemaps[tilemap_idx].pget(tile_x, tile_y)];
    the tilemap is the external tile content provider. *)
Variable get_tile : Z -> Z -> TileId.

Definition is_tile_at_world_coord_solid (x y : Q) : bool :=
  is_solid_tile (get_tile (Py.int x / TILE_SIZE) (Py.int y / TILE_SIZE)).

Definition is_tile_at_world_coord_ladder (x y : Q) : bool :=
  is_ladder_tile (get_tile (Py.int x / TILE_SIZE) (Py.int y / TILE_SIZE)).

Definition check_horizontal_tile_collision (x y dx w h : Q) : bool :=
  if Py.ltb 0 dx then
    if is_tile_at_world_coord_solid (x + w) y then true
    else if is_tile_at_world_coord_solid (x + w) (y + h - 1) then true
    else false
  else if Py.ltb dx 0 then
    if is_tile_at_world_coord_solid x y then true
    else if is_tile_at_world_coord_solid x (y + h - 1) then true
    else false
  else false.

Definition check_vertical_tile_collision (x y dy w h : Q) : bool :=
  if Py.ltb 0 dy then
    if is_tile_at_world_coord_solid x (y + h) then true
    else if is_tile_at_world_coord_solid (x + w) (y + h) then true
    else false
  else if Py.ltb dy 0 then
    if is_tile_at_world_coord_solid x y then true
    else if is_tile_at_world_coord_solid (x + w) y then true
    else false
  else false.

Definition check_ladder_collision (x y w h : Q) : bool :=
  existsb (fun '(cx, cy) => is_tile_at_world_coord_ladder cx cy)
          [(x, y); (x + w, y); (x, y + h); (x + w, y + h)]%Q.

End TileGrid.

(** A tilemap whose row 3 is grass and everything else is empty. *)
Definition row3_tilemap (tx ty : Z) : TileId :=
  if ty =? 3 then SOLID_GRASS else (0, 0).

(** ** AABB overlap *)

Definition collide_aabb (x1 y1 w1 h1 x2 y2 w2 h2 : Q) : bool :=
  Py.ltb x1 (x2 + w2) && Py.ltb x2 (x1 + w1) &&
  Py.ltb y1 (y2 + h2) && Py.ltb y2 (y1 + h1).

(** ** Entities

    Objects are records; [oid] is the object's identity (no class defines
    [__eq__], so [==] and [list.remove] compare identities). *)

Record Entity := mkEntity {
  oid : nat;
  x : Q; y : Q; w : Q; h : Q;
  is_active : bool;
  is_alive : bool;
  is_colliding : bool
}.

Record MovableEntity := mkMovable {
  ent : Entity;
  dx : Q; dy : Q;
  is_facing_right : bool
}.

Record DeathSprite := mkDeathSprite {
  ds_mov : MovableEntity;
  marker_tile : TileId;
  transparent_color : Z;
  flip_horizontal : bool;
  flip_vertical : bool;
  cur_lifespan : Z;
  feels_gravity : bool
}.

Inductive PlayerStateKey := GROUND | AIR | CLIMB | DEAD.

Record Player := mkPlayer {
  mov : MovableEntity;
  health : Z;
  speed : Q;
  climb_speed : Q;
  jump : Q;
  momentum : Q;
  is_grounded : bool;
  (** [StateMachine._state_key]; [state] is [state_map[_state_key]] *)
  _state_key : PlayerStateKey;
  (** [PlayerDeathState.cur_lifespan], an attribute of the DEAD state
      object that exists once its [on_enter] has run *)
  death_lifespan : option Z
}.

(** The classes of registry objects this development covers. *)
Inductive Obj :=
| APlain (e : Entity)          (* Entity and subclasses overriding nothing *)
| ACoin (e : Entity)
| ADeathSprite (d : DeathSprite)
| AMovingPlatform (m : MovableEntity) (distance cur_distance : Q).

Definition obj_entity (o : Obj) : Entity :=
  match o with
  | APlain e | ACoin e => e
  | ADeathSprite d => ent (ds_mov d)
  | AMovingPlatform m _ _ => ent m
  end.

(** The moving partner of a collision.  Every call site passes the
    Player; [dx] and [dy] are read, so it is at least a MovableEntity. *)
Inductive Other :=
| AMovable (m : MovableEntity)
| APlayer (p : Player).

Definition other_mov (o : Other) : MovableEntity :=
  match o with AMovable m => m | APlayer p => mov p end.

Definition other_entity (o : Other) : Entity := ent (other_mov o).

(** [isinstance(other, Player)] *)
Definition is_player (o : Other) : bool :=
  match o with APlayer _ => true | AMovable _ => false end.

(** *** Attribute assignment *)

Definition set_x (v : Q) (e : Entity) : Entity :=
  mkEntity (oid e) v (y e) (w e) (h e) (is_active e) (is_alive e) (is_colliding e).
Definition set_y (v : Q) (e : Entity) : Entity :=
  mkEntity (oid e) (x e) v (w e) (h e) (is_active e) (is_alive e) (is_colliding e).
Definition set_is_alive (v : bool) (e : Entity) : Entity :=
  mkEntity (oid e) (x e) (y e) (w e) (h e) (is_active e) v (is_colliding e).
Definition set_is_colliding (v : bool) (e : Entity) : Entity :=
  mkEntity (oid e) (x e) (y e) (w e) (h e) (is_active e) (is_alive e) v.

Definition map_ent (f : Entity -> Entity) (m : MovableEntity) : MovableEntity :=
  mkMovable (f (ent m)) (dx m) (dy m) (is_facing_right m).
Definition set_dx (v : Q) (m : MovableEntity) : MovableEntity :=
  mkMovable (ent m) v (dy m) (is_facing_right m).
Definition set_dy (v : Q) (m : MovableEntity) : MovableEntity :=
  mkMovable (ent m) (dx m) v (is_facing_right m).

Definition map_mov (f : MovableEntity -> MovableEntity) (p : Player) : Player :=
  mkPlayer (f (mov p)) (health p) (speed p) (climb_speed p) (jump p)
           (momentum p) (is_grounded p) (_state_key p) (death_lifespan p).
Definition set_key (k : PlayerStateKey) (p : Player) : Player :=
  mkPlayer (mov p) (health p) (speed p) (climb_speed p) (jump p)
           (momentum p) (is_grounded p) k (death_lifespan p).
Definition set_death_lifespan (v : option Z) (p : Player) : Player :=
  mkPlayer (mov p) (health p) (speed p) (climb_speed p) (jump p)
           (momentum p) (is_grounded p) (_state_key p) v.

Definition map_other (f : MovableEntity -> MovableEntity) (o : Other) : Other :=
  match o with
  | AMovable m => AMovable (f m)
  | APlayer p => APlayer (map_mov f p)
  end.

Definition map_obj (f : Entity -> Entity) (o : Obj) : Obj :=
  match o with
  | APlain e => APlain (f e)
  | ACoin e => ACoin (f e)
  | ADeathSprite d =>
      ADeathSprite (mkDeathSprite (map_ent f (ds_mov d)) (marker_tile d)
                      (transparent_color d) (flip_horizontal d)
                      (flip_vertical d) (cur_lifespan d) (feels_gravity d))
  | AMovingPlatform m d c => AMovingPlatform (map_ent f m) d c
  end.

(** ** The GameManager singleton and the [random] module *)

Record GameManager := mkManager {
  doodads : list Obj;
  enemies : list Obj;
  particles : list Obj;
  coins : Z;
  score : Z
}.

Definition append_particle (o : Obj) (g : GameManager) : GameManager :=
  mkManager (doodads g) (enemies g) (particles g ++ [o]) (coins g) (score g).
Definition set_coins (v : Z) (g : GameManager) : GameManager :=
  mkManager (doodads g) (enemies g) (particles g) v (score g).

(** What the interpreter keeps behind the scenes: the generator's draws
    (an arbitrary sequence of numbers in the unit interval, read through a
    cursor) and the next fresh object identity. *)
Record Runtime := mkRuntime {
  draws : nat -> Q;
  cursor : nat;
  next_oid : nat
}.

(** [random.random()] *)
Definition random_random (r : Runtime) : Q * Runtime :=
  (draws r (cursor r), mkRuntime (draws r) (S (cursor r)) (next_oid r)).

(** [random.choice([-1, 1])] *)
Definition random_choice_sign (r : Runtime) : Q * Runtime :=
  let '(u, r') := random_random r in
  ((if Py.ltb u (1 # 2) then - (1) else 1)%Q, r').

(** [random.uniform(a, b)] is [a + (b - a) * random()]. *)
Definition random_uniform (a b : Q) (r : Runtime) : Q * Runtime :=
  let '(u, r') := random_random r in ((a + (b - a) * u)%Q, r').

Definition fresh_oid (r : Runtime) : nat * Runtime :=
  (next_oid r, mkRuntime (draws r) (cursor r) (S (next_oid r))).

Definition DEFAULT_TRANSPARENT_COLOR : Z := 2.

(** [DeathSprite.__init__] through the [Entity], [MovableEntity] and
    [DefaultMovableEntity] constructors. *)
Definition new_DeathSprite (x y w h : Q) (marker : TileId)
    (flip_h flip_v : bool) (dx dy : Q) (lifespan_ticks : Z)
    (feels_gravity : bool) (r : Runtime) : DeathSprite * Runtime :=
  let '(i, r') := fresh_oid r in
  (mkDeathSprite
     (mkMovable (mkEntity i x y w h true true false) dx dy true)
     marker DEFAULT_TRANSPARENT_COLOR flip_h flip_v lifespan_ticks
     feels_gravity,
   r').

(** ** Exceptions *)

Inductive Exn := AttributeError | ValueError | KeyError.

(** How a call ended.  A raising call keeps the mutations made before the
    [raise], so the state is returned next to the outcome. *)
Inductive Outcome := Returned | Raised (e : Exn).

(** ** The keyed state machine

    [K] is the (hashable) key type and [D] is everything the hooks of the
    states can reach through [self.parent]. *)

Section StateMachine.

Context {K : Type} `{Countable K} {D : Type}.

(** The methods of a State class; each receives
    [hasattr(self, "parent")] for its guard. *)
Record StateClass := mkStateClass {
  on_enter : bool -> D -> Outcome * D;
  on_exit : bool -> D -> Outcome * D
}.

(** A State object: its class, and whether [set_parent] has run. *)
Record State := mkState {
  state_class : StateClass;
  has_parent : bool
}.

(** [State.on_enter] and [State.on_exit] of the base class. *)
Definition State_hook (has_parent : bool) (d : D) : Outcome * D :=
  if has_parent then (Returned, d) else (Raised AttributeError, d).

Definition BaseState : StateClass := mkStateClass State_hook State_hook.

Definition set_parent (s : State) : State := mkState (state_class s) true.

Definition call_on_enter (s : State) : D -> Outcome * D :=
  on_enter (state_class s) (has_parent s).
Definition call_on_exit (s : State) : D -> Outcome * D :=
  on_exit (state_class s) (has_parent s).

Record StateMachine := mkStateMachine {
  state_map : gmap K State;
  sm_state_key : K;            (* [_state_key] *)
  state : State
}.

(** Hooks that ran, with the key of the state they belong to. *)
Inductive Hook := OnExit (k : K) | OnEnter (k : K).

(** [init_state_machine]: [state_map[starting_state_key]] raises
    KeyError for an unregistered key; every state gets its parent. *)
Definition init_state_machine (m : gmap K State) (starting_state_key : K)
  : Exn + StateMachine :=
  match m !! starting_state_key with
  | None => inl KeyError
  | Some s =>
      inr (mkStateMachine (set_parent <$> m) starting_state_key (set_parent s))
  end.

(** The [state_key] property: the getter. *)
Definition get_state_key (m : StateMachine) : Exn + K := inl AttributeError.

(** The [state_key] property: the setter. *)
Definition set_state_key (new_state_key : K) (m : StateMachine) (d : D)
  : Outcome * StateMachine * D * list Hook :=
  match state_map m !! new_state_key with
  | None => (Raised ValueError, m, d, [])
  | Some s' =>
      if decide (sm_state_key m = new_state_key) then (Returned, m, d, [])
      else
        match call_on_exit (state m) d with
        | (Raised e, d1) => (Raised e, m, d1, [OnExit (sm_state_key m)])
        | (Returned, d1) =>
            let m' := mkStateMachine (state_map m) new_state_key s' in
            let '(o, d2) := call_on_enter s' d1 in
            (o, m', d2, [OnExit (sm_state_key m); OnEnter new_state_key])
        end
  end.

(** The data-model invariant: the current key is registered. *)
Definition valid_key (m : StateMachine) : Prop :=
  is_Some (state_map m !! sm_state_key m).

(** ... and [state] is the object registered under it. *)
Definition coherent (m : StateMachine) : Prop :=
  state_map m !! sm_state_key m = Some (state m).

End StateMachine.

Arguments StateClass : clear implicits.
Arguments State : clear implicits.
Arguments StateMachine K {_ _} D.
Arguments Hook : clear implicits.

(** ** The Player's machine *)

Global Instance PlayerStateKey_eq_dec : EqDecision PlayerStateKey.
Proof. solve_decision. Defined.

Definition PlayerStateKey_value (k : PlayerStateKey) : nat :=
  match k with GROUND => 0 | AIR => 1 | CLIMB => 2 | DEAD => 3 end%nat.

Definition PlayerStateKey_of_value (n : nat) : PlayerStateKey :=
  match n with 0 => GROUND | 1 => AIR | 2 => CLIMB | _ => DEAD end%nat.

Global Instance PlayerStateKey_countable : Countable PlayerStateKey.
Proof.
  apply (inj_countable' PlayerStateKey_value PlayerStateKey_of_value).
  intros []; reflexivity.
Defined.

(** What the Player's states reach through [self.parent]: the Player,
    its [manager] and the interpreter's runtime. *)
Record PlayerWorld := mkPlayerWorld {
  pw_player : Player;
  pw_manager : GameManager;
  pw_runtime : Runtime
}.

(** [PlayerDeathState.on_enter] *)
Definition PlayerDeathState_on_enter (has_parent : bool) (d : PlayerWorld)
  : Outcome * PlayerWorld :=
  if negb has_parent then (Raised AttributeError, d)
  else
    let p := set_death_lifespan (Some 70) (pw_player d) in
    let p := map_mov (set_dx 0) p in
    let p := map_mov (set_dy 0) p in
    let e := ent (mov p) in
    let flip := Py.ltb (dx (mov p)) 0 in
    let '(vx, r) := random_uniform (- (1 # 10)) (1 # 10) (pw_runtime d) in
    let '(sprite, r) :=
      new_DeathSprite (x e) (y e) (w e) (h e) DEAD_HERO flip true vx (- (3))
                      70 true r in
    (Returned,
     mkPlayerWorld p (append_particle (ADeathSprite sprite) (pw_manager d)) r).

Definition PlayerGroundState : StateClass PlayerWorld := BaseState.
Definition PlayerAirState : StateClass PlayerWorld := BaseState.
Definition PlayerClimbState : StateClass PlayerWorld := BaseState.
Definition PlayerDeathState : StateClass PlayerWorld :=
  mkStateClass PlayerDeathState_on_enter State_hook.

(** The dictionary [Player.__init__] hands to [init_state_machine], after
    [set_parent] has run on each state.  No code mutates it afterwards. *)
Definition Player_state_map : gmap PlayerStateKey (State PlayerWorld) :=
  set_parent <$>
    ({[ GROUND := mkState PlayerGroundState false;
        AIR := mkState PlayerAirState false;
        CLIMB := mkState PlayerClimbState false;
        DEAD := mkState PlayerDeathState false ]}
     : gmap PlayerStateKey (State PlayerWorld)).

Definition Player_state_class (k : PlayerStateKey) : StateClass PlayerWorld :=
  match k with
  | GROUND => PlayerGroundState
  | AIR => PlayerAirState
  | CLIMB => PlayerClimbState
  | DEAD => PlayerDeathState
  end.

(** The machine part of a Player object. *)
Definition Player_machine (p : Player) : StateMachine PlayerStateKey PlayerWorld :=
  mkStateMachine Player_state_map (_state_key p)
                 (mkState (Player_state_class (_state_key p)) true).

(** [player.state_key = k]: the generic setter on the Player's machine;
    the new [_state_key] is stored back in the Player object. *)
Definition Player_set_state_key (k : PlayerStateKey) (d : PlayerWorld)
  : Outcome * PlayerWorld :=
  let '(o, m, d', _) := set_state_key k (Player_machine (pw_player d)) d in
  (o, mkPlayerWorld (set_key (sm_state_key m) (pw_player d'))
                    (pw_manager d') (pw_runtime d')).

(** ** Scenes

    The objects one collision call can reach: the entity whose method
    runs, its partner, the GameManager singleton and the runtime. *)

Record Scene := mkScene {
  this : Obj;
  other : Other;
  manager : GameManager;
  runtime : Runtime
}.

Definition map_this (f : Entity -> Entity) (s : Scene) : Scene :=
  mkScene (map_obj f (this s)) (other s) (manager s) (runtime s).
Definition map_partner (f : MovableEntity -> MovableEntity) (s : Scene) : Scene :=
  mkScene (this s) (map_other f (other s)) (manager s) (runtime s).

(** A callback is a closure over objects of the scene. *)
Abbreviation Callback := (Scene -> Scene).

(** ** The pushback resolver *)

Inductive HitEvent := OnHit | OnHitBelow | OnHitAbove | OnHitLeft | OnHitRight.

(** The keyword arguments of [pushback_entity]. *)
Record PushArgs := mkPushArgs {
  horz_pushback : Q;
  vert_pushback : Q;
  on_hit : option Callback;
  on_hit_below : option Callback;
  on_hit_above : option Callback;
  on_hit_left : option Callback;
  on_hit_right : option Callback;
  pushback_x_right : bool;
  pushback_x_left : bool;
  pushback_y_up : bool;
  pushback_y_down : bool
}.

(** The defaults of the signature. *)
Definition default_args : PushArgs :=
  mkPushArgs 0 0 None None None None None true true true true.

(** [if cb is not None: cb()] *)
Definition fire (ev : HitEvent) (cb : option Callback) (s : Scene)
  : Scene * list HitEvent :=
  match cb with
  | Some f => (f s, [ev])
  | None => (s, [])
  end.

Definition left_overlap (s : Scene) : Q :=
  let a := obj_entity (this s) in let b := other_entity (other s) in
  ((x b + w b) - x a)%Q.
Definition right_overlap (s : Scene) : Q :=
  let a := obj_entity (this s) in let b := other_entity (other s) in
  ((x a + w a) - x b)%Q.
Definition top_overlap (s : Scene) : Q :=
  let a := obj_entity (this s) in let b := other_entity (other s) in
  ((y b + h b) - y a)%Q.
Definition bottom_overlap (s : Scene) : Q :=
  let a := obj_entity (this s) in let b := other_entity (other s) in
  ((y a + h a) - y b)%Q.

Definition min_overlap (s : Scene) : Q :=
  Py.min4 (left_overlap s) (right_overlap s) (top_overlap s) (bottom_overlap s).

Definition apply_horz_pushback (a : PushArgs) (s : Scene) : Scene :=
  if pushback_x_left a && Py.ltb 0 (dx (other_mov (other s))) then
    map_partner (set_dx (- horz_pushback a)) s
  else if pushback_x_right a && Py.ltb (dx (other_mov (other s))) 0 then
    map_partner (set_dx (horz_pushback a)) s
  else s.

Definition apply_vert_pushback (a : PushArgs) (s : Scene) : Scene :=
  if pushback_y_up a && Py.ltb 0 (dy (other_mov (other s))) then
    map_partner (set_dy (- vert_pushback a)) s
  else if pushback_y_down a && Py.ltb (dy (other_mov (other s))) 0 then
    map_partner (set_dy (vert_pushback a)) s
  else s.

(** [if isinstance(other, Player): other.state_key = PlayerStateKey.GROUND] *)
Definition ground_player (s : Scene) : Outcome * Scene :=
  match other s with
  | AMovable _ => (Returned, s)
  | APlayer p =>
      let '(o, d) :=
        Player_set_state_key GROUND (mkPlayerWorld p (manager s) (runtime s)) in
      (o, mkScene (this s) (APlayer (pw_player d)) (pw_manager d) (pw_runtime d))
  end.

(** The tail shared by the four branches: the directional callback, then
    [on_hit] since [at_least_one_hit] is set. *)
Definition finish_hit (ev : HitEvent) (cb : option Callback) (a : PushArgs)
    (s : Scene) : Outcome * Scene * list HitEvent :=
  let '(s1, t1) := fire ev cb s in
  let '(s2, t2) := fire OnHit (on_hit a) s1 in
  (Returned, s2, t1 ++ t2).

Definition pushback_entity (a : PushArgs) (s : Scene)
  : Outcome * Scene * list HitEvent :=
  let pushback_x := pushback_x_right a || pushback_x_left a in
  let pushback_y := pushback_y_up a || pushback_y_down a in
  let this_e := obj_entity (this s) in
  let o := other_mov (other s) in
  let m := min_overlap s in
  if Py.eqb m (left_overlap s) && Py.ltb 0 (dx o) then
    (* Horizontal collision from right *)
    let s1 :=
      if pushback_x then
        apply_horz_pushback a
          (map_partner (map_ent (set_x (x this_e - w (ent o)))) s)
      else s in
    finish_hit OnHitRight (on_hit_right a) a s1
  else if Py.eqb m (right_overlap s) && Py.ltb (dx o) 0 then
    (* Horizontal collision from left *)
    let s1 :=
      if pushback_x then
        apply_horz_pushback a
          (map_partner (map_ent (set_x (x this_e + w this_e))) s)
      else s in
    finish_hit OnHitLeft (on_hit_left a) a s1
  else if Py.eqb m (bottom_overlap s) && Py.ltb (dy o) 0 then
    (* Vertical collision from below *)
    let s1 :=
      if pushback_y then
        apply_vert_pushback a
          (map_partner (map_ent (set_y (y this_e + h this_e))) s)
      else s in
    finish_hit OnHitBelow (on_hit_below a) a s1
  else if Py.eqb m (top_overlap s) && Py.ltb 0 (dy o) then
    (* Vertical collision from above *)
    if pushback_y then
      let s1 :=
        apply_vert_pushback a
          (map_partner (map_ent (set_y (y this_e - h (ent o)))) s) in
      match ground_player s1 with
      | (Raised e, s2) => (Raised e, s2, [])
      | (Returned, s2) => finish_hit OnHitAbove (on_hit_above a) a s2
      end
    else finish_hit OnHitAbove (on_hit_above a) a s
  else (Returned, s, []).

(** ** The collision protocol of [Entity] *)

Inductive CollisionEvent := OnCollision | OnCollisionEnd.

(** [collide_aabb(self.x, ..., other.x, ...)] on the scene *)
Definition overlapping (s : Scene) : bool :=
  let a := obj_entity (this s) in let b := other_entity (other s) in
  collide_aabb (x a) (y a) (w a) (h a) (x b) (y b) (w b) (h b).

Definition colliding_flag (s : Scene) : bool := is_colliding (obj_entity (this s)).

(** The callbacks one call makes, from what it sees: the overlap test and
    the stored flag. *)
Definition events_of (overlap flag : bool) : list CollisionEvent :=
  if overlap then [OnCollision]
  else if flag then [OnCollisionEnd]
  else [].

(** What one call leaves in the log: the overlap test it made, the flag
    it found, its return value and the callbacks it invoked. *)
Record Call := mkCall {
  saw_overlap : bool;
  found_flag : bool;
  returned : bool;
  invoked : list CollisionEvent
}.

Section CollideWith.

(** The methods [collide_with] dispatches to, on [self = this]. *)
Variable on_collision : Callback.
Variable on_collision_end : Callback.

Definition collide_with (s : Scene) : bool * Scene * list CollisionEvent :=
  if overlapping s then
    let s1 := on_collision s in
    (true, map_this (set_is_colliding true) s1, [OnCollision])
  else if is_colliding (obj_entity (this s)) then
    let s1 := on_collision_end s in
    (false, map_this (set_is_colliding false) s1, [OnCollisionEnd])
  else (false, s, []).

(** A sequence of calls on the same pair.  Between two calls anything
    may happen to the scene ([entity.update()], the other entities, the
    Player's own update): one arbitrary step per tick. *)
Fixpoint collide_run (ticks : list Callback) (s : Scene) : list Call * Scene :=
  match ticks with
  | [] => ([], s)
  | u :: rest =>
      let s0 := u s in
      let '(r, s1, tr) := collide_with s0 in
      let '(log, s2) := collide_run rest s1 in
      (mkCall (overlapping s0) (colliding_flag s0) r tr :: log, s2)
  end.

End CollideWith.

(** The protocol, as a function of the overlap tests alone: the flag a
    call finds is the overlap test of the call before it. *)
Fixpoint protocol (flag : bool) (overlaps : list bool) : list Call :=
  match overlaps with
  | [] => []
  | o :: rest => mkCall o flag o (events_of o flag) :: protocol o rest
  end.

(** No code but [collide_with] (and the constructor) writes
    [is_colliding]. *)
Definition keeps_flag (u : Callback) : Prop :=
  forall s, colliding_flag (u s) = colliding_flag s.

(** [Entity.on_collision], [Entity.on_collision_end]: [pass] *)
Definition Entity_on_collision : Callback := fun s => s.
Definition Entity_on_collision_end : Callback := fun s => s.

(** [Coin.die]: [self] is [this]. *)
Definition Coin_die (s : Scene) : Scene :=
  let s := map_this (set_is_alive false) s in
  let e := obj_entity (this s) in
  let '(sw, r) := random_choice_sign (runtime s) in
  let '(sh, r) := random_choice_sign r in
  let '(sprite, r) :=
    new_DeathSprite (x e) (y e) (w e * sw) (h e * sh) SPARKLES
                    false false 0 0 6 false r in
  mkScene (this s) (other s) (append_particle (ADeathSprite sprite) (manager s)) r.

(** [Coin.on_collision] *)
Definition Coin_on_collision : Callback := fun s =>
  if is_player (other s) then
    let s :=
      mkScene (this s) (other s)
              (set_coins (coins (manager s) + 1) (manager s)) (runtime s) in
    Coin_die s
  else s.

(** [coin.collide_with(other)] *)
Definition Coin_collide_with : Scene -> bool * Scene * list CollisionEvent :=
  collide_with Coin_on_collision Entity_on_collision_end.

(** [MovingPlatform.on_hit_above_by_player], bound to [other] with
    [partial]; [self] is [this]. *)
Definition MovingPlatform_on_hit_above_by_player : Callback := fun s =>
  match this s with
  | AMovingPlatform m _ _ =>
      let s := map_partner
                 (map_ent (set_y (y (ent m) - h (other_entity (other s))))) s in
      let s := map_partner
                 (map_ent (set_x (x (other_entity (other s)) + dx m))) s in
      let s := map_partner (set_dy 0) s in
      snd (ground_player s)
  | _ => s
  end.

(** [MovingPlatform.on_collision]: the resolver is used purely to detect
    the direction of the collision. *)
Definition MovingPlatform_on_collision (s : Scene)
  : Outcome * Scene * list HitEvent :=
  if is_player (other s) then
    pushback_entity
      (mkPushArgs 0 0 None None (Some MovingPlatform_on_hit_above_by_player)
                  None None false false false false) s
  else (Returned, s, []).

(** ** Registry clean-up *)

(** [entities.remove(entity)]: drop the first element that is [entity]. *)
Fixpoint list_remove (i : nat) (entities : list Obj) : list Obj :=
  match entities with
  | [] => []
  | e :: rest =>
      if decide (oid (obj_entity e) = i) then rest
      else e :: list_remove i rest
  end.

(** The [for] loop of [cleanup_entities].  A list iterator is an index
    into the live list: each round reads [entities[i]] if [i] is still in
    range and advances [i], whatever the body did to the list. *)
Fixpoint cleanup_loop (fuel i : nat) (entities : list Obj) : list Obj :=
  match fuel with
  | O => entities
  | S fuel' =>
      match entities !! i with
      | None => entities
      | Some entity =>
          if negb (is_alive (obj_entity entity)) then
            cleanup_loop fuel' (S i)
                         (list_remove (oid (obj_entity entity)) entities)
          else cleanup_loop fuel' (S i) entities
      end
  end.

(** The loop makes at most [len(entities)] rounds (see
    [cleanup_loop_done]). *)
Definition cleanup_entities (entities : list Obj) : list Obj :=
  cleanup_loop (length entities) 0 entities.

(** The three [cleanup_entities] calls that end [App.update]. *)
Definition App_update_cleanup (g : GameManager) : GameManager :=
  mkManager (cleanup_entities (doodads g)) (cleanup_entities (enemies g))
            (cleanup_entities (particles g)) (coins g) (score g).

(** ** Camera *)

Record Camera := mkCamera {
  cam_x : Q; cam_y : Q; cam_w : Q; cam_h : Q;
  xoff : Q; yoff : Q;
  (** the object [target] refers to, as it is when [update] runs *)
  target : option Player
}.

Definition Camera_update (c : Camera) : Camera :=
  match target c with
  | None => c
  | Some t =>
      let x1 := (x (ent (mov t)) + xoff c)%Q in
      let x2 := Py.min2 (SCROLL_BORDER_X - cam_w c) (Py.max2 0 x1) in
      let y1 := Py.min2 0 (y (ent (mov t)) + yoff c) in
      let y2 := Py.min2 (SCROLL_BORDER_Y - cam_h c) (Py.max2 0 y1) in
      mkCamera x2 y2 (cam_w c) (cam_h c) (xoff c) (yoff c) (target c)
  end.

(** [Player(x, y)] with the defaults of [Player.__init__]. *)
Definition new_Player (i : nat) (x y : Q) : Player :=
  mkPlayer (mkMovable (mkEntity i x y 6 (inject_Z TILE_SIZE) true true false)
                      0 0 true)
           0 (16 # 10) 1 4 (8 # 10) true GROUND None.

(** [Camera(0, 0, SCREEN_WIDTH, SCREEN_HEIGHT)], the camera [App.__init__]
    builds, following [t]. *)
Definition App_camera (t : Player) : Camera :=
  mkCamera 0 0 SCREEN_WIDTH SCREEN_HEIGHT (- (128)) (- (120)) (Some t).

(** ** The Player's death *)

(** [Player.die]: the DEAD state handles the [is_alive] flag. *)
Definition Player_die (d : PlayerWorld) : Outcome * PlayerWorld :=
  Player_set_state_key DEAD d.

(** [PlayerDeathState.update].  [cur_lifespan] exists once [on_enter] has
    run; reading it before raises AttributeError, as does reaching
    [self.parent] without a parent. *)
Definition PlayerDeathState_update (has_parent : bool) (d : PlayerWorld)
  : Outcome * PlayerWorld :=
  match death_lifespan (pw_player d) with
  | None => (Raised AttributeError, d)
  | Some n =>
      let p := set_death_lifespan (Some (n - 1)) (pw_player d) in
      if n - 1 <=? 0 then
        if has_parent then
          (Returned,
           mkPlayerWorld (map_mov (map_ent (set_is_alive false)) p)
                         (pw_manager d) (pw_runtime d))
        else (Raised AttributeError, mkPlayerWorld p (pw_manager d) (pw_runtime d))
      else (Returned, mkPlayerWorld p (pw_manager d) (pw_runtime d))
  end.

(** ** Transient effects *)

Definition GRAVITY : Q := 2 # 10.
Definition TERMINAL_VELOCITY : Q := 3.

Definition map_ds_mov (f : MovableEntity -> MovableEntity) (d : DeathSprite)
  : DeathSprite :=
  mkDeathSprite (f (ds_mov d)) (marker_tile d) (transparent_color d)
                (flip_horizontal d) (flip_vertical d) (cur_lifespan d)
                (feels_gravity d).
Definition set_cur_lifespan (v : Z) (d : DeathSprite) : DeathSprite :=
  mkDeathSprite (ds_mov d) (marker_tile d) (transparent_color d)
                (flip_horizontal d) (flip_vertical d) v (feels_gravity d).

(** [DeathSprite.update]; [c] is [Camera.instance()]. *)
Definition DeathSprite_update (c : Camera) (d : DeathSprite) : DeathSprite :=
  let d := map_ds_mov (map_ent (set_x (x (ent (ds_mov d)) + dx (ds_mov d)))) d in
  let d :=
    if cur_lifespan d <=? 0 then map_ds_mov (map_ent (set_is_alive false)) d
    else d in
  let d :=
    if feels_gravity d then
      map_ds_mov (set_dy (Py.min2 (dy (ds_mov d) + GRAVITY) TERMINAL_VELOCITY)) d
    else d in
  let d := map_ds_mov (map_ent (set_y (y (ent (ds_mov d)) + dy (ds_mov d)))) d in
  let d :=
    if Py.ltb (cam_y c + SCREEN_HEIGHT) (y (ent (ds_mov d))) then
      map_ds_mov (map_ent (set_is_alive false)) d
    else d in
  set_cur_lifespan (cur_lifespan d - 1) d.

(** ** Moving platforms *)

(** [MovingPlatform(x, y)]: [w = 2 * TILE_SIZE], [h = TILE_SIZE],
    [dx = 0.25], [distance = cur_distance = 5 * TILE_SIZE]. *)
Definition new_MovingPlatform (i : nat) (x y : Q) : Obj :=
  AMovingPlatform
    (mkMovable (mkEntity i x y (inject_Z (TILE_SIZE * 2)) (inject_Z TILE_SIZE)
                         true true false)
               (25 # 100) 0 true)
    (inject_Z (5 * TILE_SIZE)) (inject_Z (5 * TILE_SIZE)).

(** [MovingPlatform.update]; [self] is a MovingPlatform (objects of the
    other classes have an [update] of their own and are left alone
    here). *)
Definition MovingPlatform_update (self : Obj) : Obj :=
  match self with
  | AMovingPlatform m distance cur_distance =>
      let m := map_ent (set_x (x (ent m) + dx m)) m in
      let cur_distance := (cur_distance - Qabs (dx m))%Q in
      if Py.ltb 0 cur_distance then AMovingPlatform m distance cur_distance
      else AMovingPlatform (set_dx (- dx m) m) distance distance
  | _ => self
  end.

(** ** The Player's states *)

Definition SCROLL_BORDER_Y_CEILING : Q := inject_Z (-20 * TILE_SIZE).

(** The buttons the states ask [pyxel.btn] about. *)
Inductive Key :=
| KEY_LEFT | KEY_RIGHT | KEY_UP | KEY_DOWN | KEY_SPACE
| GAMEPAD1_BUTTON_DPAD_LEFT | GAMEPAD1_BUTTON_DPAD_RIGHT
| GAMEPAD1_BUTTON_DPAD_UP | GAMEPAD1_BUTTON_A | GAMEPAD1_BUTTON_B.

Definition set_is_facing_right (v : bool) (m : MovableEntity) : MovableEntity :=
  mkMovable (ent m) (dx m) (dy m) v.

(** An assignment to attributes of the Player of a world. *)
Definition on_player (f : MovableEntity -> MovableEntity) (d : PlayerWorld)
  : PlayerWorld :=
  mkPlayerWorld (map_mov f (pw_player d)) (pw_manager d) (pw_runtime d).

(** Sequencing: a raise ends the method. *)
Definition and_then (r : Outcome * PlayerWorld)
    (k : PlayerWorld -> Outcome * PlayerWorld) : Outcome * PlayerWorld :=
  match r with
  | (Returned, d) => k d
  | (Raised e, d) => (Raised e, d)
  end.

(** [Player.check_world_bounds] *)
Definition check_world_bounds (d : PlayerWorld) : Outcome * PlayerWorld :=
  let d :=
    if Py.ltb (y (ent (mov (pw_player d)))) SCROLL_BORDER_Y_CEILING
    then on_player (map_ent (set_y 0)) d else d in
  and_then
    (let e := ent (mov (pw_player d)) in
     if Py.ltb (SCROLL_BORDER_Y - h e) (y e) then
       and_then
         (Player_set_state_key DEAD
            (on_player (map_ent (set_y (SCROLL_BORDER_Y - h e - 1))) d))
         Player_die
     else (Returned, d))
    (fun d =>
       let d :=
         if Py.ltb (x (ent (mov (pw_player d)))) 0
         then on_player (map_ent (set_x 0)) d else d in
       let e := ent (mov (pw_player d)) in
       let d :=
         if Py.ltb SCROLL_BORDER_X (x e)
         then on_player (map_ent (set_x (SCROLL_BORDER_X - w e))) d else d in
       (Returned, d)).

Section PlayerStates.

(** The tile content provider and the input provider of the tick. *)
Variable get_tile : Z -> Z -> TileId.
Variable btn : Key -> bool.

(** [parent.x += parent.dx], then the horizontal tile check with its
    undo: shared by the three moving states. *)
Definition move_horizontally (d : PlayerWorld) : PlayerWorld :=
  let d := on_player
             (fun m => map_ent (set_x (x (ent m) + dx m)) m) d in
  let m := mov (pw_player d) in
  if check_horizontal_tile_collision get_tile (x (ent m)) (y (ent m)) (dx m)
                                     (w (ent m)) (h (ent m))
  then on_player (set_dx 0)
         (on_player (fun m => map_ent (set_x (x (ent m) - dx m)) m) d)
  else d.

(** The snap of a landing: [int((y + h) // TILE_SIZE) * TILE_SIZE - int(h)] *)
Definition snap_to_top (y h : Q) : Q :=
  inject_Z (Qfloor ((y + h) / inject_Z TILE_SIZE) * TILE_SIZE - Py.int h).

(** The snap under a ceiling: [(int(y) // TILE_SIZE + 1) * TILE_SIZE] *)
Definition snap_to_bottom (y : Q) : Q :=
  inject_Z ((Py.int y / TILE_SIZE + 1) * TILE_SIZE).

(** [if check_ladder_collision(...): parent.state_key = CLIMB], then
    [parent.check_world_bounds()]: the common tail of the GROUND and AIR
    updates. *)
Definition ladder_then_bounds (d : PlayerWorld) : Outcome * PlayerWorld :=
  let e := ent (mov (pw_player d)) in
  and_then
    (if check_ladder_collision get_tile (x e) (y e) (w e) (h e)
     then Player_set_state_key CLIMB d else (Returned, d))
    check_world_bounds.

(** [PlayerGroundState.update] *)
Definition PlayerGroundState_update (has_parent : bool) (d : PlayerWorld)
  : Outcome * PlayerWorld :=
  if negb has_parent then (Raised AttributeError, d)
  else
    let p := pw_player d in
    let d := on_player
               (set_dx (inject_Z (Py.int (dx (mov p) * momentum p)))) d in
    let d :=
      if (btn KEY_LEFT || btn GAMEPAD1_BUTTON_DPAD_LEFT)
         && Py.ltb 0 (x (ent (mov p)))
      then on_player (set_is_facing_right false)
             (on_player (set_dx (- speed p)) d)
      else if (btn KEY_RIGHT || btn GAMEPAD1_BUTTON_DPAD_RIGHT)
              && Py.ltb (x (ent (mov p))) SCROLL_BORDER_X
      then on_player (set_is_facing_right true)
             (on_player (set_dx (speed p)) d)
      else d in
    let d := move_horizontally d in
    let d := on_player
               (fun m => set_dy (Py.min2 (dy m + GRAVITY) TERMINAL_VELOCITY) m)
               d in
    and_then
      (if btn KEY_UP || btn KEY_SPACE || btn GAMEPAD1_BUTTON_A
          || btn GAMEPAD1_BUTTON_DPAD_UP || btn GAMEPAD1_BUTTON_B
       then Player_set_state_key AIR (on_player (set_dy (- jump p)) d)
       else (Returned, d))
      (fun d =>
         let d := on_player
                    (fun m => map_ent (set_y (y (ent m) + dy m)) m) d in
         let m := mov (pw_player d) in
         and_then
           (if check_vertical_tile_collision get_tile (x (ent m)) (y (ent m))
                                             (dy m) (w (ent m)) (h (ent m))
            then
              let d :=
                if Py.ltb 0 (dy m)
                then on_player
                       (fun m => map_ent
                                   (set_y (snap_to_top (y (ent m)) (h (ent m))))
                                   m) d
                else on_player
                       (fun m => map_ent (set_y (snap_to_bottom (y (ent m)))) m)
                       d in
              (Returned, on_player (set_dy 0) d)
            else Player_set_state_key AIR d)
           ladder_then_bounds).

(** [PlayerAirState.update] *)
Definition PlayerAirState_update (has_parent : bool) (d : PlayerWorld)
  : Outcome * PlayerWorld :=
  if negb has_parent then (Raised AttributeError, d)
  else
    let p := pw_player d in
    let d := on_player
               (set_dx (inject_Z (Py.int (dx (mov p) * momentum p)))) d in
    let d :=
      if btn KEY_LEFT && Py.ltb 0 (x (ent (mov p)))
      then on_player (set_is_facing_right false)
             (on_player (set_dx (- speed p)) d)
      else if btn KEY_RIGHT && Py.ltb (x (ent (mov p))) SCROLL_BORDER_X
      then on_player (set_is_facing_right true)
             (on_player (set_dx (speed p)) d)
      else d in
    let d := move_horizontally d in
    let d := on_player
               (fun m => set_dy (Py.min2 (dy m + GRAVITY) TERMINAL_VELOCITY) m)
               d in
    let d := on_player (fun m => map_ent (set_y (y (ent m) + dy m)) m) d in
    let m := mov (pw_player d) in
    and_then
      (if check_vertical_tile_collision get_tile (x (ent m)) (y (ent m))
                                        (dy m) (w (ent m)) (h (ent m))
       then
         and_then
           (if Py.ltb 0 (dy m)
            then
              and_then (Player_set_state_key GROUND d)
                (fun d =>
                   (Returned,
                    on_player
                      (fun m => map_ent
                                  (set_y (snap_to_top (y (ent m)) (h (ent m))))
                                  m) d))
            else
              (Returned,
               on_player
                 (fun m => map_ent (set_y (snap_to_bottom (y (ent m)))) m) d))
           (fun d => (Returned, on_player (set_dy 0) d))
       else Player_set_state_key AIR d)
      ladder_then_bounds.

(** [PlayerClimbState.update] *)
Definition PlayerClimbState_update (has_parent : bool) (d : PlayerWorld)
  : Outcome * PlayerWorld :=
  if negb has_parent then (Raised AttributeError, d)
  else
    let p := pw_player d in
    let flip := on_player
                  (fun m => set_is_facing_right (negb (is_facing_right m)) m) in
    let d := on_player (set_dx 0) d in
    let d :=
      if btn KEY_LEFT
      then flip (on_player (set_dx (- climb_speed p / 2)) d)
      else if btn KEY_RIGHT
      then flip (on_player (set_dx (climb_speed p / 2)) d)
      else d in
    let d := move_horizontally d in
    let d :=
      if btn KEY_UP
      then flip (on_player
                   (fun m => map_ent (set_y (y (ent m) - climb_speed p)) m) d)
      else if btn KEY_DOWN
      then flip (on_player
                   (fun m => map_ent (set_y (y (ent m) + climb_speed p)) m) d)
      else d in
    let e := ent (mov (pw_player d)) in
    and_then
      (if negb (check_ladder_collision get_tile (x e) (y e) (w e) (h e))
       then Player_set_state_key AIR d else (Returned, d))
      check_world_bounds.

(** [Player.update]: [self.state.update()] *)
Definition Player_update (d : PlayerWorld) : Outcome * PlayerWorld :=
  match _state_key (pw_player d) with
  | GROUND => PlayerGroundState_update true d
  | AIR => PlayerAirState_update true d
  | CLIMB => PlayerClimbState_update true d
  | DEAD => PlayerDeathState_update true d
  end.

End PlayerStates.

(** ** Enemies and blocks *)

Record ShroomHead := mkShroomHead {
  sh_mov : MovableEntity;
  sh_marker_tile : TileId;
  sh_transparent_color : Z;
  sh_score : Z;                          (* [score] *)
  death_marker_tile : TileId
}.

(** [ShroomHead.die]; the manager is taken from the Player's world. *)
Definition ShroomHead_die (sh : ShroomHead) (g : GameManager) (r : Runtime)
  : ShroomHead * GameManager * Runtime :=
  let g := mkManager (doodads g) (enemies g) (particles g) (coins g)
                     (score g + sh_score sh) in
  let e := ent (sh_mov sh) in
  let '(sprite, r) :=
    new_DeathSprite (x e) (y e) (w e) (h e) (death_marker_tile sh)
                    (Py.ltb (dx (sh_mov sh)) 0) true (1 # 10) (- (1)) 1000 true
                    r in
  let g := append_particle (ADeathSprite sprite) g in
  (mkShroomHead (map_ent (set_is_alive false) (sh_mov sh)) (sh_marker_tile sh)
                (sh_transparent_color sh) (sh_score sh) (death_marker_tile sh),
   g, r).

(** [ShroomHead.on_collision(other)] for [other] the Player of [d], the
    partner [App.update] passes; a Player is not a FireBall, so the second
    [isinstance] test fails. *)
Definition ShroomHead_on_collision (sh : ShroomHead) (d : PlayerWorld)
  : Outcome * (ShroomHead * PlayerWorld) :=
  let p := pw_player d in
  let self := ent (sh_mov sh) in
  if Py.ltb (y (ent (mov p)) + h (ent (mov p)))
            (y self + inject_Z (Py.int (h self * (65 # 100))))
  then
    if Py.ltb 0 (dy (mov p)) then
      let d := on_player (fun m => set_dy (dy m - jump p * 2) m) d in
      let '(sh, g, r) := ShroomHead_die sh (pw_manager d) (pw_runtime d) in
      (Returned, (sh, mkPlayerWorld (pw_player d) g r))
    else
      let '(o, d) := Player_die d in (o, (sh, d))
  else
    let '(o, d) := Player_die d in (o, (sh, d)).

Record FireBall := mkFireBall {
  fb_mov : MovableEntity;
  speed_per_tick : Q;
  ceiling : Q;
  start_y : Q
}.

(** [FireBall(x, y, w, h, speed_per_tick, ceiling)] *)
Definition new_FireBall (i : nat) (x y w h speed_per_tick ceiling : Q) : FireBall :=
  mkFireBall (mkMovable (mkEntity i x y w h true true false)
                        0 (- speed_per_tick) true)
             speed_per_tick ceiling y.

(** [FireBall.update] *)
Definition FireBall_update (f : FireBall) : FireBall :=
  let m := fb_mov f in
  let m :=
    if Py.ltb (y (ent m)) (start_y f - ceiling f)
       || Py.ltb (start_y f) (y (ent m))
    then set_dy (- dy m) m else m in
  mkFireBall (map_ent (set_y (y (ent m) + dy m)) m)
             (speed_per_tick f) (ceiling f) (start_y f).

Record BreakBlock := mkBreakBlock {
  bb_ent : Entity;
  hp : Z;
  hit_offset : Q
}.

Definition DEBRIS1 : TileId := (1, 0).

(** [random.randint(3, 4)] *)
Definition random_randint_3_4 (r : Runtime) : Z * Runtime :=
  let '(u, r') := random_random r in
  (if Py.ltb u (1 # 2) then 3 else 4, r').

(** The body of the loop of [BreakBlock.spawn_particles], [n] times. *)
Fixpoint spawn_debris (n : nat) (e : Entity) (g : GameManager) (r : Runtime)
  : GameManager * Runtime :=
  match n with
  | O => (g, r)
  | S n' =>
      let '(vx, r) := random_uniform (- (1)) 1 r in
      let '(vy, r) := random_uniform (- (1)) (- (2)) r in
      let '(sprite, r) :=
        new_DeathSprite (x e) (y e) (w e) (h e) DEBRIS1 false false vx vy 24
                        true r in
      spawn_debris n' e
        (mkManager (doodads g ++ [ADeathSprite sprite]) (enemies g)
                   (particles g) (coins g) (score g))
        r
  end.

(** [BreakBlock.spawn_particles(3, 4)] *)
Definition BreakBlock_spawn_particles (b : BreakBlock) (g : GameManager)
    (r : Runtime) : GameManager * Runtime :=
  let '(n, r) := random_randint_3_4 r in
  spawn_debris (Z.to_nat n) (bb_ent b) g r.

(** [BreakBlock.on_hit_below] *)
Definition BreakBlock_on_hit_below (b : BreakBlock) (g : GameManager)
    (r : Runtime) : BreakBlock * GameManager * Runtime :=
  let b := mkBreakBlock (bb_ent b) (hp b) 2 in
  let '(g, r) := BreakBlock_spawn_particles b g r in
  let b := mkBreakBlock (bb_ent b) (hp b - 1) (hit_offset b) in
  let b :=
    if hp b <=? 0
    then mkBreakBlock (set_is_alive false (bb_ent b)) (hp b) (hit_offset b)
    else b in
  (b, g, r).

(** ** Falling remains of a platform *)

(** [CollidableDeathSprite.on_hit_player_below], bound to [other] with
    [partial]; [self] is [this]. *)
Definition CollidableDeathSprite_on_hit_player_below : Callback := fun s =>
  match this s, other s with
  | ADeathSprite d, APlayer p =>
      if Py.ltb 0 (dy (ds_mov d)) then
        let w := snd (Player_die (mkPlayerWorld p (manager s) (runtime s))) in
        mkScene (this s) (APlayer (pw_player w)) (pw_manager w) (pw_runtime w)
      else s
  | _, _ => s
  end.

(** [CollidableDeathSprite.on_collision] *)
Definition CollidableDeathSprite_on_collision (s : Scene)
  : Outcome * Scene * list HitEvent :=
  if is_player (other s) then
    pushback_entity
      (mkPushArgs 0 0 None (Some CollidableDeathSprite_on_hit_player_below)
                  None None None true true true true) s
  else (Returned, s, []).

(** * Vocabulary of the properties and sample objects *)

(** ** Tile grid *)

(** "Row 3 is the only solid row" in the columns the check samples. *)
Definition only_row3_solid (get_tile : Z -> Z -> TileId) (x w : Q) : Prop :=
  forall tx ty,
    tx = Py.int x / TILE_SIZE \/ tx = Py.int (x + w) / TILE_SIZE ->
    (is_solid_tile (get_tile tx ty) = true <-> ty = 3).

(** ** Contact sides of the resolver *)

Inductive Side := SLeft | SRight | SBottom | STop.

Global Instance Side_eq_dec : EqDecision Side.
Proof. solve_decision. Defined.

Definition overlap_of (sd : Side) (s : Scene) : Q :=
  match sd with
  | SLeft => left_overlap s
  | SRight => right_overlap s
  | SBottom => bottom_overlap s
  | STop => top_overlap s
  end.

(** The velocity sign a side asks of the moving entity. *)
Definition approaching (sd : Side) (s : Scene) : bool :=
  let o := other_mov (other s) in
  match sd with
  | SLeft => Py.ltb 0 (dx o)
  | SRight => Py.ltb (dx o) 0
  | SBottom => Py.ltb (dy o) 0
  | STop => Py.ltb 0 (dy o)
  end.

(** The tests of the [if]/[elif] chain, in its order. *)
Definition contact_test (sd : Side) (s : Scene) : bool :=
  Py.eqb (min_overlap s) (overlap_of sd s) && approaching sd s.

Definition contact_side (s : Scene) : option Side :=
  if contact_test SLeft s then Some SLeft
  else if contact_test SRight s then Some SRight
  else if contact_test SBottom s then Some SBottom
  else if contact_test STop s then Some STop
  else None.

Definition strictly_minimal (sd : Side) (s : Scene) : Prop :=
  forall sd', sd' <> sd -> (overlap_of sd s < overlap_of sd' s)%Q.

Definition minimal (sd : Side) (s : Scene) : Prop :=
  forall sd', (overlap_of sd s <= overlap_of sd' s)%Q.

(** What the resolver has done to the scene when it reaches the
    callbacks of a branch. *)
Definition resolved_scene (a : PushArgs) (sd : Side) (s : Scene) : Outcome * Scene :=
  let this_e := obj_entity (this s) in
  let o := other_entity (other s) in
  let pushback_x := pushback_x_right a || pushback_x_left a in
  let pushback_y := pushback_y_up a || pushback_y_down a in
  match sd with
  | SLeft =>
      (Returned,
       if pushback_x then
         apply_horz_pushback a (map_partner (map_ent (set_x (x this_e - w o))) s)
       else s)
  | SRight =>
      (Returned,
       if pushback_x then
         apply_horz_pushback a
           (map_partner (map_ent (set_x (x this_e + w this_e))) s)
       else s)
  | SBottom =>
      (Returned,
       if pushback_y then
         apply_vert_pushback a
           (map_partner (map_ent (set_y (y this_e + h this_e))) s)
       else s)
  | STop =>
      if pushback_y then
        ground_player
          (apply_vert_pushback a
             (map_partner (map_ent (set_y (y this_e - h o))) s))
      else (Returned, s)
  end.

Definition side_event (sd : Side) : HitEvent :=
  match sd with
  | SLeft => OnHitRight
  | SRight => OnHitLeft
  | SBottom => OnHitBelow
  | STop => OnHitAbove
  end.

Definition side_callback (a : PushArgs) (sd : Side) : option Callback :=
  match sd with
  | SLeft => on_hit_right a
  | SRight => on_hit_left a
  | SBottom => on_hit_below a
  | STop => on_hit_above a
  end.

(** The Player's current state key, when the partner is the Player. *)
Definition key_of (s : Scene) : option PlayerStateKey :=
  match other s with
  | APlayer p => Some (_state_key p)
  | AMovable _ => None
  end.

(** A callback that leaves a grounded Player grounded. *)
Definition keeps_ground (cb : option Callback) : Prop :=
  match cb with
  | None => True
  | Some f => forall s, key_of s = Some GROUND -> key_of (f s) = Some GROUND
  end.

(** ** Sample objects *)

Definition no_manager : GameManager := mkManager [] [] [] 0 0.
Definition sample_runtime : Runtime := mkRuntime (fun _ => 0%Q) 0 100.

(** A Player at [(px, py)] moving with [(vx, vy)] in state [k]. *)
Definition sample_player (px py vx vy : Q) (k : PlayerStateKey) : Player :=
  set_key k (map_mov (set_dy vy) (map_mov (set_dx vx) (new_Player 0 px py))).

(** An 8x8 block at [(10, 0)] and the Player overlapping its left edge by
    one pixel: the overlaps are left 1, right 13, top 10, bottom 6. *)
Definition left_scene (vx : Q) : Scene :=
  mkScene (APlain (mkEntity 1 10 0 8 8 true true false))
          (APlayer (sample_player 5 2 vx 0 AIR)) no_manager sample_runtime.

(** A 16x8 platform at [(0, 20)] and the airborne Player sunk one pixel
    into its top: the overlaps are left 10, right 12, top 1, bottom 15. *)
Definition top_scene : Scene :=
  mkScene (AMovingPlatform
             (mkMovable (mkEntity 1 0 20 16 8 true true false) (1 # 4) 0 true)
             40 40)
          (APlayer (sample_player 4 13 0 1 AIR)) no_manager sample_runtime.

Definition push2_args : PushArgs :=
  mkPushArgs 2 3 None None None None None true true true true.

Definition flags_off_args : PushArgs :=
  mkPushArgs 0 0 None None None None None false false false false.

(** Horizontal pushback enabled through [pushback_x_right] alone. *)
Definition right_only_args : PushArgs :=
  mkPushArgs 2 3 None None None None None true false true true.

(** A callback with a visible effect: it adds one to the score. *)
Definition tally : Callback := fun s =>
  mkScene (this s) (other s)
          (mkManager (doodads (manager s)) (enemies (manager s))
                     (particles (manager s)) (coins (manager s))
                     (score (manager s) + 1))
          (runtime s).

(** Every callback registered, every flag on. *)
Definition loud_args : PushArgs :=
  mkPushArgs 2 3 (Some tally) (Some tally) (Some tally) (Some tally)
             (Some tally) true true true true.

(** Two calls on an overlapping pair, starting from a freshly built
    entity and with nothing happening in between. *)
Definition two_overlapping_ticks : list Call :=
  fst (collide_run Entity_on_collision Entity_on_collision_end
                   [fun s => s; fun s => s] (left_scene 1)).

(** The Player walks into the block, stays, and is moved away. *)
Definition walk_away : Callback :=
  map_partner (map_ent (set_x 100)).

(** A machine with two registered states, both with base-class hooks. *)
Definition two_state_machine : StateMachine PlayerStateKey unit :=
  mkStateMachine
    {[ GROUND := mkState BaseState true; AIR := mkState BaseState true ]}
    GROUND (mkState BaseState true).

(** Distinct objects have distinct identities. *)
Definition identities_ok (entities : list Obj) : Prop :=
  forall a b, a ∈ entities -> b ∈ entities ->
              oid (obj_entity a) = oid (obj_entity b) -> a = b.

(** Two coins collected in the same tick, next to each other in
    [enemies]. *)
Definition dead_coin (i : nat) (cx : Q) : Obj :=
  ACoin (mkEntity i cx 56 8 8 true false true).

(** A piece of debris of a broken block whose lifespan has run out:
    [BreakBlock.spawn_particles] appends three or four of them to
    [doodads] at once, and they expire on the same tick. *)
Definition expired_debris (i : nat) : Obj :=
  ADeathSprite
    (mkDeathSprite
       (mkMovable (mkEntity i 80 200 8 8 true false false) (1 # 2) 3 true)
       (1, 0) DEFAULT_TRANSPARENT_COLOR false false (- 1) true).

(** A coin that is already dead (collected, not yet pruned) and still
    overlaps the Player. *)
Definition dead_coin_scene : Scene :=
  mkScene (dead_coin 2 48) (APlayer (sample_player 50 56 0 0 GROUND))
          (mkManager [] [dead_coin 2 48] [] 2 0) sample_runtime.

(** The camera of the game following a Player at its start position
    [(5 * 8, 7 * 8)]. *)
Definition start_camera : Camera := App_camera (new_Player 0 40 56).

(** ** Vocabulary of the further properties *)




(** [n] ticks of [Player.update] while the DEAD state is current; a raise
    ends the run. *)
Fixpoint dead_updates (n : nat) (d : PlayerWorld) : Outcome * PlayerWorld :=
  match n with
  | O => (Returned, d)
  | S n' =>
      match PlayerDeathState_update true d with
      | (Returned, d') => dead_updates n' d'
      | (Raised e, d') => (Raised e, d')
      end
  end.

Definition player_alive (d : PlayerWorld) : bool :=
  is_alive (ent (mov (pw_player d))).

(** Every registered state has its parent. *)
Definition parents_bound {K : Type} `{Countable K} {D : Type}
    (m : StateMachine K D) : Prop :=
  forall k s, state_map m !! k = Some s -> has_parent s = true.

(** A world around a Player. *)
Definition sample_world (p : Player) : PlayerWorld :=
  mkPlayerWorld p no_manager sample_runtime.

(** The dictionary literal of [Player.__init__], before
    [init_state_machine] has bound the parents. *)
Definition Player_states_unbound : gmap PlayerStateKey (State PlayerWorld) :=
  {[ GROUND := mkState PlayerGroundState false;
     AIR := mkState PlayerAirState false;
     CLIMB := mkState PlayerClimbState false;
     DEAD := mkState PlayerDeathState false ]}.

(** [entity.is_alive], for [filter]. *)
Definition alive (e : Obj) : bool := is_alive (obj_entity e).

(** No two neighbours of the list are both dead. *)
Fixpoint no_adjacent_dead (entities : list Obj) : bool :=
  match entities with
  | a :: rest =>
      match rest with
      | b :: _ => (alive a || alive b) && no_adjacent_dead rest
      | [] => true
      end
  | [] => true
  end.

(** A live coin, and a registry in which the dead are never neighbours. *)
Definition live_coin (i : nat) (cx : Q) : Obj :=
  ACoin (mkEntity i cx 56 8 8 true true false).

Definition mixed_registry : list Obj :=
  [dead_coin 1 40; live_coin 2 48; dead_coin 3 56; live_coin 4 64;
   live_coin 5 72; expired_debris 6].

(** The updates of a sprite over some ticks; the camera of each tick is
    given, since it moves with the Player. *)
Definition DeathSprite_updates (cs : list Camera) (d : DeathSprite) : DeathSprite :=
  fold_left (fun d c => DeathSprite_update c d) cs d.

Definition sprite_alive (d : DeathSprite) : bool := is_alive (ent (ds_mov d)).

(** The sparkle [Coin.die] leaves for a coin at [(48, 56)]. *)
Definition sample_sparkle : DeathSprite :=
  fst (new_DeathSprite 48 56 8 (- (8)) SPARKLES false false 0 0 6 false
                       sample_runtime).

(** The sprite [PlayerDeathState.on_enter] throws up. *)
Definition sample_corpse : DeathSprite :=
  fst (new_DeathSprite 40 56 6 8 DEAD_HERO false true (1 # 20) (- (3)) 70 true
                       sample_runtime).

(** A whole number of ticks, as a Python number. *)
Definition ticks (n : nat) : Q := inject_Z (Z.of_nat n).

(** The horizontal speed of a platform. *)
Definition platform_dx (o : Obj) : Q :=
  match o with
  | AMovingPlatform m _ _ => dx m
  | _ => 0
  end.

(** The Player of a world: position, size, vertical speed, state. *)
Definition player_x (d : PlayerWorld) : Q := x (ent (mov (pw_player d))).
Definition player_y (d : PlayerWorld) : Q := y (ent (mov (pw_player d))).
Definition player_w (d : PlayerWorld) : Q := w (ent (mov (pw_player d))).
Definition player_h (d : PlayerWorld) : Q := h (ent (mov (pw_player d))).
Definition player_dy (d : PlayerWorld) : Q := dy (mov (pw_player d)).
Definition player_key (d : PlayerWorld) : PlayerStateKey :=
  _state_key (pw_player d).

(** Inside the world: between the left and right borders and not below
    the lower scroll border. *)
Definition in_world (d : PlayerWorld) : Prop :=
  (0 <= player_x d)%Q /\ (player_x d <= SCROLL_BORDER_X)%Q /\
  (player_y d <= SCROLL_BORDER_Y - player_h d)%Q.

(** No button pressed. *)
Definition no_input : Key -> bool := fun _ => false.

(** A tilemap without any tile. *)
Definition empty_tilemap (tx ty : Z) : TileId := (0, 0).

(** What no update changes about the Player: its size and its jump
    impulse. *)
Definition same_frame (d0 d : PlayerWorld) : Prop :=
  player_w d = player_w d0 /\ player_h d = player_h d0 /\
  jump (pw_player d) = jump (pw_player d0).

(** A call that returns, in a world satisfying [P]. *)
Definition ends (P : PlayerWorld -> Prop) (r : Outcome * PlayerWorld) : Prop :=
  exists d, r = (Returned, d) /\ P d.

(** A Player with the defaults of the constructor somewhere in the air. *)
Definition airborne_world : PlayerWorld :=
  sample_world (sample_player 40 20 0 1 AIR).

(** The world of an AIR update when it reaches the vertical tile check:
    momentum, input, horizontal move and its undo, gravity and the
    vertical move are done. *)
Definition air_moved (get_tile : Z -> Z -> TileId) (btn : Key -> bool)
    (d : PlayerWorld) : PlayerWorld :=
  let p := pw_player d in
  let d := on_player
             (set_dx (inject_Z (Py.int (dx (mov p) * momentum p)))) d in
  let d :=
    if btn KEY_LEFT && Py.ltb 0 (x (ent (mov p)))
    then on_player (set_is_facing_right false)
           (on_player (set_dx (- speed p)) d)
    else if btn KEY_RIGHT && Py.ltb (x (ent (mov p))) SCROLL_BORDER_X
    then on_player (set_is_facing_right true)
           (on_player (set_dx (speed p)) d)
    else d in
  let d := move_horizontally get_tile d in
  let d := on_player
             (fun m => set_dy (Py.min2 (dy m + GRAVITY) TERMINAL_VELOCITY) m)
             d in
  on_player (fun m => map_ent (set_y (y (ent m) + dy m)) m) d.

(** The same point of a GROUND update in which no jump button is
    held. *)
Definition ground_moved (get_tile : Z -> Z -> TileId) (btn : Key -> bool)
    (d : PlayerWorld) : PlayerWorld :=
  let p := pw_player d in
  let d := on_player
             (set_dx (inject_Z (Py.int (dx (mov p) * momentum p)))) d in
  let d :=
    if (btn KEY_LEFT || btn GAMEPAD1_BUTTON_DPAD_LEFT)
       && Py.ltb 0 (x (ent (mov p)))
    then on_player (set_is_facing_right false)
           (on_player (set_dx (- speed p)) d)
    else if (btn KEY_RIGHT || btn GAMEPAD1_BUTTON_DPAD_RIGHT)
            && Py.ltb (x (ent (mov p))) SCROLL_BORDER_X
    then on_player (set_is_facing_right true)
           (on_player (set_dx (speed p)) d)
    else d in
  let d := move_horizontally get_tile d in
  let d := on_player
             (fun m => set_dy (Py.min2 (dy m + GRAVITY) TERMINAL_VELOCITY) m)
             d in
  on_player (fun m => map_ent (set_y (y (ent m) + dy m)) m) d.

(** The vertical tile check and the ladder check at the Player of a
    world. *)
Definition player_hits_floor (get_tile : Z -> Z -> TileId) (d : PlayerWorld)
  : bool :=
  let m := mov (pw_player d) in
  check_vertical_tile_collision get_tile (x (ent m)) (y (ent m)) (dy m)
                                (w (ent m)) (h (ent m)).

Definition player_on_ladder (get_tile : Z -> Z -> TileId) (d : PlayerWorld)
  : bool :=
  let e := ent (mov (pw_player d)) in
  check_ladder_collision get_tile (x e) (y e) (w e) (h e).

(** No jump button is held. *)
Definition no_jump (btn : Key -> bool) : Prop :=
  btn KEY_UP = false /\ btn KEY_SPACE = false /\
  btn GAMEPAD1_BUTTON_A = false /\ btn GAMEPAD1_BUTTON_DPAD_UP = false /\
  btn GAMEPAD1_BUTTON_B = false.

(** [d] with the Player's state key replaced. *)
Definition with_key (k : PlayerStateKey) (d : PlayerWorld) : PlayerWorld :=
  mkPlayerWorld (set_key k (pw_player d)) (pw_manager d) (pw_runtime d).

(** The world after a landing: state GROUND, bottom edge snapped to the
    tile boundary, vertical speed zero. *)
Definition landed (d : PlayerWorld) : PlayerWorld :=
  on_player (set_dy 0)
    (on_player (map_ent (set_y (snap_to_top (player_y d) (player_h d))))
       (with_key GROUND d)).

(** A Player falling at [y = 15] over the grass of row 3, and one
    standing at [y = 16] on a map where nothing is solid. *)
Definition falling_world : PlayerWorld :=
  sample_world (sample_player 40 15 0 1 AIR).
Definition ledge_world : PlayerWorld :=
  sample_world (sample_player 40 16 0 0 GROUND).

(** The Player comes down on the head: its feet are above 65% of the
    height of the shroom (truncated) and it is falling. *)
Definition stomps (sh : ShroomHead) (d : PlayerWorld) : bool :=
  Py.ltb (player_y d + player_h d)
         (y (ent (sh_mov sh)) + inject_Z (Py.int (h (ent (sh_mov sh)) * (65 # 100))))
  && Py.ltb 0 (player_dy d).

Definition shroom_alive (sh : ShroomHead) : bool := is_alive (ent (sh_mov sh)).

(** A shroom on the floor at [(48, 56)], worth 100 points. *)
Definition sample_shroom : ShroomHead :=
  mkShroomHead (mkMovable (mkEntity 7 48 56 8 8 true true false) (2 # 10) 0 true)
               (0, 2) DEFAULT_TRANSPARENT_COLOR 100 (2, 2).

Definition fireball_y (f : FireBall) : Q := y (ent (fb_mov f)).

(** What a fireball keeps true about itself: it is within one step of
    its shaft, its speed is [speed_per_tick] one way or the other, and
    outside the shaft it is still heading outwards (so that the next update
    turns it round). *)
Definition in_shaft (f : FireBall) : Prop :=
  let s := speed_per_tick f in
  let lo := (start_y f - ceiling f)%Q in
  let hi := start_y f in
  let v := dy (fb_mov f) in
  (lo - s <= fireball_y f)%Q /\ (fireball_y f <= hi + s)%Q /\
  (v == s \/ v == - s)%Q /\
  ((fireball_y f < lo)%Q -> (v == - s)%Q) /\
  ((hi < fireball_y f)%Q -> (v == s)%Q).

(** [n] hits from below on a block, one after the other. *)
Fixpoint hits_below (n : nat) (b : BreakBlock) (g : GameManager) (r : Runtime)
  : BreakBlock * GameManager * Runtime :=
  match n with
  | O => (b, g, r)
  | S n' =>
      let '(b, g, r) := BreakBlock_on_hit_below b g r in
      hits_below n' b g r
  end.

Definition block_alive (b : BreakBlock) : bool := is_alive (bb_ent b).

(** A block with three hit points. *)
Definition sample_block : BreakBlock :=
  mkBreakBlock (mkEntity 11 64 40 8 8 true true false) 3 0.

(** A machine whose current state was never given a parent, and one whose
    other state was not. *)
Definition orphan_machine : StateMachine PlayerStateKey unit :=
  mkStateMachine
    {[ GROUND := mkState BaseState false; AIR := mkState BaseState true ]}
    GROUND (mkState BaseState false).

Definition half_bound_machine : StateMachine PlayerStateKey unit :=
  mkStateMachine
    {[ GROUND := mkState BaseState true; AIR := mkState BaseState false ]}
    GROUND (mkState BaseState true).

(** The remains of a fallen platform coming down on a Player that jumps
    into them from below: the overlaps are left 6, right 8, top 15,
    bottom 1. *)
Definition crush_scene : Scene :=
  mkScene (ADeathSprite
             (mkDeathSprite
                (mkMovable (mkEntity 21 40 40 8 8 true true false) 0 2 true)
                (1, 11) DEFAULT_TRANSPARENT_COLOR false false 15 true))
          (APlayer (sample_player 40 47 0 (- (2)) AIR))
          no_manager sample_runtime.

(** * Properties *)

(** ** Python numbers *)

Module PyFacts.

Import Py.

Lemma ltb_lt a b : ltb a b = true <-> (a < b)%Q.
Proof.
unfold ltb. rewrite Qlt_alt. destruct (a ?= b)%Q; split; congruence.
Qed.

Lemma ltb_ge a b : ltb a b = false <-> (b <= a)%Q.
Proof.
split; intros H.
- apply Qnot_lt_le. intros Hlt. apply ltb_lt in Hlt. congruence.
- destruct (ltb a b) eqn:E; [|reflexivity].
  apply ltb_lt in E. exfalso. apply (Qlt_not_le _ _ E H).
Qed.

Lemma eqb_eq a b : eqb a b = true <-> (a == b)%Q.
Proof. apply Qeq_bool_iff. Qed.

Lemma eqb_neq a b : eqb a b = false <-> ~ (a == b)%Q.
Proof.
unfold eqb. split; intros H.
- intros E. apply Qeq_bool_iff in E. congruence.
- destruct (Qeq_bool a b) eqn:E; [|reflexivity].
  apply Qeq_bool_iff in E. contradiction.
Qed.

Lemma min2_le_l a b : (min2 a b <= a)%Q.
Proof.
unfold min2. destruct (ltb b a) eqn:E.
- apply ltb_lt in E. lra.
- lra.
Qed.

Lemma min2_le_r a b : (min2 a b <= b)%Q.
Proof.
unfold min2. destruct (ltb b a) eqn:E.
- lra.
- apply ltb_ge in E. lra.
Qed.

Lemma min2_cases a b : min2 a b = a \/ min2 a b = b.
Proof. unfold min2. destruct (ltb b a); auto. Qed.

Lemma max2_ge_l a b : (a <= max2 a b)%Q.
Proof.
unfold max2. destruct (ltb a b) eqn:E.
- apply ltb_lt in E. lra.
- lra.
Qed.

Lemma max2_ge_r a b : (b <= max2 a b)%Q.
Proof.
unfold max2. destruct (ltb a b) eqn:E.
- lra.
- apply ltb_ge in E. lra.
Qed.

Lemma max2_cases a b : max2 a b = a \/ max2 a b = b.
Proof. unfold max2. destruct (ltb a b); auto. Qed.

Lemma min4_le a b c d :
(min4 a b c d <= a /\ min4 a b c d <= b /\
 min4 a b c d <= c /\ min4 a b c d <= d)%Q.
Proof.
unfold min4.
pose proof (min2_le_l a b). pose proof (min2_le_r a b).
pose proof (min2_le_l (min2 a b) c). pose proof (min2_le_r (min2 a b) c).
pose proof (min2_le_l (min2 (min2 a b) c) d).
pose proof (min2_le_r (min2 (min2 a b) c) d).
repeat split; lra.
Qed.

Lemma min4_cases a b c d :
min4 a b c d = a \/ min4 a b c d = b \/
min4 a b c d = c \/ min4 a b c d = d.
Proof.
unfold min4.
destruct (min2_cases (min2 (min2 a b) c) d) as [-> | ->]; [|auto].
destruct (min2_cases (min2 a b) c) as [-> | ->]; [|auto].
destruct (min2_cases a b) as [-> | ->]; auto.
Qed.

(** [int] of an integer-valued number is that integer. *)
Lemma int_inject_Z z : int (inject_Z z) = z.
Proof. unfold int. simpl. apply Z.quot_1_r. Qed.

(** [int(x) // n] for a number between two consecutive multiples of a
  positive [n] is the tile index of the lower one. *)
Lemma int_div_band (x : Q) (n k : Z) :
0 < n -> 0 <= k ->
(inject_Z (k * n) <= x)%Q -> (x < inject_Z ((k + 1) * n))%Q ->
int x / n = k.
Proof.
intros Hn Hk Hlo Hhi. destruct x as [p q]. unfold int. simpl.
unfold Qle, Qlt in *. simpl in *.
assert (Hq : 0 < Z.pos q) by reflexivity.
assert (Hp : 0 <= p) by nia.
rewrite Z.quot_div_nonneg by lia.
rewrite Z.div_div by lia.
symmetry. apply (Z.div_unique_pos p (Z.pos q * n) k (p - k * (Z.pos q * n))); nia.
Qed.

End PyFacts.

Lemma Player_state_map_lookup k :
  Player_state_map !! k = Some (mkState (Player_state_class k) true).
Proof. destruct k; vm_compute; reflexivity. Qed.

(** ** Tile-grid vertical check *)

Lemma row3_tilemap_only_row3 x w : only_row3_solid row3_tilemap x w.
Proof.
  intros tx ty _. unfold row3_tilemap.
  destruct (Z.eqb_spec ty 3) as [-> | Hne].
  - split; [reflexivity | intros _; vm_compute; reflexivity].
  - split; [|contradiction]. vm_compute. discriminate.
Qed.

Lemma solid_in_row get_tile x w (cx cy : Q) :
  only_row3_solid get_tile x w ->
  Py.int cx / TILE_SIZE = Py.int x / TILE_SIZE \/
  Py.int cx / TILE_SIZE = Py.int (x + w) / TILE_SIZE ->
  is_tile_at_world_coord_solid get_tile cx cy
  = bool_decide (Py.int cy / TILE_SIZE = 3).
Proof.
  intros Hrow Hcol. unfold is_tile_at_world_coord_solid.
  specialize (Hrow _ (Py.int cy / TILE_SIZE) Hcol).
  destruct (is_solid_tile _) eqn:E.
  - symmetry. apply bool_decide_eq_true. apply Hrow. reflexivity.
  - symmetry. apply bool_decide_eq_false. intros H3.
    apply Hrow in H3. congruence.
Qed.

(** The vertical check looks at one world row only: that of [y + h] when
    moving down and that of [y] when moving up. *)
Lemma check_vertical_row3 get_tile (x y dy w h : Q) :
  only_row3_solid get_tile x w ->
  check_vertical_tile_collision get_tile x y dy w h =
  if Py.ltb 0 dy then bool_decide (Py.int (y + h) / TILE_SIZE = 3)
  else if Py.ltb dy 0 then bool_decide (Py.int y / TILE_SIZE = 3)
  else false.
Proof.
  intros Hrow. unfold check_vertical_tile_collision.
  rewrite !(solid_in_row get_tile x w) by (auto using Hrow).
  destruct (Py.ltb 0 dy), (Py.ltb dy 0);
    repeat match goal with |- context [bool_decide ?P] =>
      destruct (bool_decide P) end; reflexivity.
Qed.

(** C8, as the spec states it, fails on the code: with row 3 the only
    solid row, the entity at [y = 15], [h = 8] moving down samples world
    row [y + h = 23], which is tile row 2, and the check answers False. *)
Lemma vertical_check_y15_counterexample :
  only_row3_solid row3_tilemap 0 6 /\
  check_vertical_tile_collision row3_tilemap 0 15 1 6 8 <> true.
Proof.
  split; [apply row3_tilemap_only_row3 | vm_compute; discriminate].
Qed.

(** C8 (amended): with tile size 8 and row 3 the only solid row in the
    sampled columns, the vertical check of an entity with [h = 8] moving
    down ([dy = 1]) is False at [y = 15] (its lower corners sample world
    row 23, tile row 2) and True as soon as [y + h] lies in world rows
    24-31, that is for [16 <= y < 24]; moving up ([dy = -1]) it is False
    both at [y = 15] and with the top corners in tile row 2. *)
Theorem vertical_check_row3_solid get_tile (x w y : Q) :
  only_row3_solid get_tile x w ->
  (16 <= y)%Q -> (y < 24)%Q ->
  check_vertical_tile_collision get_tile x 15 1 w 8 = false /\
  check_vertical_tile_collision get_tile x y 1 w 8 = true /\
  check_vertical_tile_collision get_tile x 15 (- (1)) w 8 = false /\
  check_vertical_tile_collision get_tile x y (- (1)) w 8 = false.
Proof.
  intros Hrow Hlo Hhi.
  rewrite !(check_vertical_row3 get_tile) by exact Hrow.
  assert (Hdown : Py.int (y + 8) / TILE_SIZE = 3).
  { unfold TILE_SIZE. apply PyFacts.int_div_band; [lia | lia | |].
    - change (inject_Z (3 * 8)) with 24%Q. lra.
    - change (inject_Z ((3 + 1) * 8)) with 32%Q. lra. }
  assert (Hup : Py.int y / TILE_SIZE = 2).
  { unfold TILE_SIZE. apply PyFacts.int_div_band; [lia | lia | |].
    - change (inject_Z (2 * 8)) with 16%Q. lra.
    - change (inject_Z ((2 + 1) * 8)) with 24%Q. lra. }
  change (Py.ltb 0 1) with true.
  change (Py.ltb 0 (- (1))) with false. change (Py.ltb (- (1)) 0) with true.
  cbv iota. rewrite Hdown, Hup.
  split; [|split; [|split]]; vm_compute; reflexivity.
Qed.

Lemma vertical_check_row3_solid_witness :
  check_vertical_tile_collision row3_tilemap 0 15 1 6 8 = false /\
  check_vertical_tile_collision row3_tilemap 0 16 1 6 8 = true /\
  check_vertical_tile_collision row3_tilemap 0 15 (- (1)) 6 8 = false /\
  check_vertical_tile_collision row3_tilemap 0 16 (- (1)) 6 8 = false.
Proof.
  apply (vertical_check_row3_solid row3_tilemap 0 6 16).
  - apply row3_tilemap_only_row3.
  - vm_compute. discriminate.
  - vm_compute. reflexivity.
Defined.

(** ** The pushback resolver *)

Lemma min_overlap_le sd s : (min_overlap s <= overlap_of sd s)%Q.
Proof.
  unfold min_overlap.
  pose proof (PyFacts.min4_le (left_overlap s) (right_overlap s)
                         (top_overlap s) (bottom_overlap s)) as (?&?&?&?).
  destruct sd; simpl; assumption.
Qed.

Lemma min_overlap_is_side s : exists sd, min_overlap s = overlap_of sd s.
Proof.
  unfold min_overlap.
  destruct (PyFacts.min4_cases (left_overlap s) (right_overlap s)
                          (top_overlap s) (bottom_overlap s))
    as [E | [E | [E | E]]].
  - exists SLeft. exact E.
  - exists SRight. exact E.
  - exists STop. exact E.
  - exists SBottom. exact E.
Qed.

Lemma minimal_eqb sd s :
  minimal sd s -> Py.eqb (min_overlap s) (overlap_of sd s) = true.
Proof.
  intros Hmin. apply PyFacts.eqb_eq.
  destruct (min_overlap_is_side s) as [sd' E].
  pose proof (min_overlap_le sd s). pose proof (Hmin sd').
  rewrite E in *. lra.
Qed.

Lemma strictly_minimal_minimal sd s : strictly_minimal sd s -> minimal sd s.
Proof.
  intros H sd'. destruct (decide (sd' = sd)) as [-> | Hne].
  - lra.
  - specialize (H sd' Hne). lra.
Qed.

Lemma strictly_minimal_other sd sd' s :
  strictly_minimal sd s -> sd' <> sd ->
  Py.eqb (min_overlap s) (overlap_of sd' s) = false.
Proof.
  intros Hs Hne. apply PyFacts.eqb_neq. intros E.
  pose proof (min_overlap_le sd s). specialize (Hs sd' Hne). lra.
Qed.

Lemma strictly_minimal_contact sd s :
  strictly_minimal sd s ->
  contact_side s = if approaching sd s then Some sd else None.
Proof.
  intros Hs. unfold contact_side, contact_test.
  pose proof (minimal_eqb sd s (strictly_minimal_minimal _ _ Hs)) as Heq.
  pose proof (fun sd' => strictly_minimal_other sd sd' s Hs) as Hne.
  destruct sd; rewrite Heq;
    repeat (rewrite Hne by discriminate); cbn [andb];
    destruct (approaching _ s); reflexivity.
Qed.

(** [pushback_entity], read through the branch it takes. *)
Lemma pushback_entity_by_side a s :
  pushback_entity a s =
  match contact_side s with
  | None => (Returned, s, [])
  | Some sd =>
      match resolved_scene a sd s with
      | (Raised e, s1) => (Raised e, s1, [])
      | (Returned, s1) => finish_hit (side_event sd) (side_callback a sd) a s1
      end
  end.
Proof.
  unfold pushback_entity, contact_side, contact_test, approaching, overlap_of.
  cbv zeta.
  destruct (Py.eqb (min_overlap s) (left_overlap s) && _); [reflexivity|].
  destruct (Py.eqb (min_overlap s) (right_overlap s) && _); [reflexivity|].
  destruct (Py.eqb (min_overlap s) (bottom_overlap s) && _); [reflexivity|].
  destruct (Py.eqb (min_overlap s) (top_overlap s) && _); [|reflexivity].
  unfold resolved_scene.
  destruct (pushback_y_up a || pushback_y_down a); [|reflexivity].
  destruct (ground_player _) as [[|e] s2]; reflexivity.
Qed.

(** Assigning GROUND to a Player always succeeds: every state of the map
    has its parent, and only the DEAD state overrides a hook
    ([on_enter]). *)
Lemma Player_set_state_key_GROUND d :
  Player_set_state_key GROUND d =
  (Returned,
   mkPlayerWorld (set_key GROUND (pw_player d)) (pw_manager d) (pw_runtime d)).
Proof.
  unfold Player_set_state_key, set_state_key.
  cbn [Player_machine state_map sm_state_key state].
  rewrite Player_state_map_lookup.
  destruct (decide (_state_key (pw_player d) = GROUND)) as [E | E].
  - cbn [Player_machine sm_state_key]. rewrite E. reflexivity.
  - destruct (_state_key (pw_player d)); try congruence; reflexivity.
Qed.

Lemma ground_player_spec s :
  ground_player s =
  (Returned,
   match other s with
   | AMovable _ => s
   | APlayer p => mkScene (this s) (APlayer (set_key GROUND p)) (manager s) (runtime s)
   end).
Proof.
  unfold ground_player. destruct (other s) as [m | p]; [destruct s; reflexivity|].
  rewrite Player_set_state_key_GROUND. reflexivity.
Qed.

Lemma key_of_map_partner f s : key_of (map_partner f s) = key_of s.
Proof. unfold key_of, map_partner. simpl. destruct (other s); reflexivity. Qed.

Lemma key_of_apply_vert a s : key_of (apply_vert_pushback a s) = key_of s.
Proof.
  unfold apply_vert_pushback.
  repeat match goal with |- context [if ?b then _ else _] => destruct b end;
    rewrite ?key_of_map_partner; reflexivity.
Qed.

Lemma finish_hit_keeps_ground ev cb a s :
  keeps_ground cb -> keeps_ground (on_hit a) ->
  key_of s = Some GROUND ->
  exists s' tr, finish_hit ev cb a s = (Returned, s', tr) /\
                key_of s' = Some GROUND.
Proof.
  intros Hcb Hhit Hk. unfold finish_hit, fire.
  destruct cb as [f|], (on_hit a) as [g|]; simpl in *; eauto 6.
Qed.

(** *** C2 *)

(** C2, as the spec states it, fails on the code: "horizontal pushback
    enabled" is [pushback_x_right or pushback_x_left], but the velocity of
    an entity moving right is only replaced under [pushback_x_left].  With
    [pushback_x_right] alone the resolver clamps [other.x] and leaves
    [other.dx] as it was. *)
Lemma pushback_right_flag_only_counterexample :
  overlapping (left_scene 1) = true /\
  minimal SLeft (left_scene 1) /\
  (0 < dx (other_mov (other (left_scene 1))))%Q /\
  pushback_x_right right_only_args || pushback_x_left right_only_args = true /\
  exists s',
    pushback_entity right_only_args (left_scene 1) = (Returned, s', []) /\
    x (other_entity (other s')) = 4%Q /\
    dx (other_mov (other s')) = 1%Q /\
    ~ (dx (other_mov (other s')) == - horz_pushback right_only_args)%Q.
Proof.
  split; [vm_compute; reflexivity|].
  split; [intros []; vm_compute; discriminate|].
  split; [vm_compute; reflexivity|].
  split; [reflexivity|].
  eexists. split; [vm_compute; reflexivity|].
  split; [reflexivity|]. split; [reflexivity|].
  vm_compute. discriminate.
Qed.

(** C2 (amended): when [left_overlap] is the minimum of the four overlaps
    and the moving entity has [dx > 0], [pushback_entity] with horizontal
    pushback enabled (at least one of [pushback_x_right],
    [pushback_x_left]) sets [other.x] to [this.x - other.w]; it sets
    [other.dx] to [-horz_pushback] when [pushback_x_left] is set, and
    leaves [other.dx] as it was when only [pushback_x_right] is.  That is
    the scene the [on_hit_right] and [on_hit] callbacks receive; with no
    callback registered it is the final scene. *)
Theorem pushback_from_left a s :
  minimal SLeft s ->
  (0 < dx (other_mov (other s)))%Q ->
  pushback_x_right a || pushback_x_left a = true ->
  exists s1,
    pushback_entity a s = finish_hit OnHitRight (on_hit_right a) a s1 /\
    x (other_entity (other s1))
    = (x (obj_entity (this s)) - w (other_entity (other s)))%Q /\
    dx (other_mov (other s1))
    = (if pushback_x_left a then (- horz_pushback a)%Q
       else dx (other_mov (other s))) /\
    (on_hit_right a = None -> on_hit a = None ->
     pushback_entity a s = (Returned, s1, [])).
Proof.
  intros Hmin Hdx Hflag.
  rewrite pushback_entity_by_side.
  assert (Hside : contact_side s = Some SLeft).
  { unfold contact_side, contact_test.
    rewrite (minimal_eqb SLeft s Hmin). cbn [approaching andb].
    apply PyFacts.ltb_lt in Hdx. rewrite Hdx. reflexivity. }
  rewrite Hside. cbn [resolved_scene side_event side_callback].
  rewrite Hflag.
  unfold apply_horz_pushback.
  assert (Hpos :
    Py.ltb 0 (dx (other_mov (other
      (map_partner
         (map_ent (set_x (x (obj_entity (this s)) - w (other_entity (other s)))))
         s)))) = true).
  { apply PyFacts.ltb_lt. destruct s as [t [m | p] g r]; exact Hdx. }
  assert (Hneg :
    Py.ltb (dx (other_mov (other
      (map_partner
         (map_ent (set_x (x (obj_entity (this s)) - w (other_entity (other s)))))
         s)))) 0 = false).
  { apply PyFacts.ltb_ge, Qlt_le_weak.
    destruct s as [t [m | p] g r]; exact Hdx. }
  rewrite Hpos, Hneg, andb_true_r, andb_false_r.
  destruct (pushback_x_left a).
  - eexists. split; [reflexivity|].
    split; [destruct s as [t [m | p] g r]; reflexivity|].
    split; [destruct s as [t [m | p] g r]; reflexivity|].
    intros Hr Hh. unfold finish_hit, fire. rewrite Hr, Hh. reflexivity.
  - eexists. split; [reflexivity|].
    split; [destruct s as [t [m | p] g r]; reflexivity|].
    split; [destruct s as [t [m | p] g r]; reflexivity|].
    intros Hr Hh. unfold finish_hit, fire. rewrite Hr, Hh. reflexivity.
Qed.

Lemma pushback_from_left_witness :
  exists s1,
    pushback_entity push2_args (left_scene 1) = (Returned, s1, []) /\
    x (other_entity (other s1)) = (10 - 6)%Q /\
    dx (other_mov (other s1)) = (- (2))%Q.
Proof.
  destruct (pushback_from_left push2_args (left_scene 1)) as (s1 & _ & Hx & Hdx & Hfin).
  - intros []; vm_compute; discriminate.
  - vm_compute. reflexivity.
  - reflexivity.
  - exists s1. split; [apply Hfin; reflexivity|]. split; [exact Hx | exact Hdx].
Defined.

(** *** C6 *)

(** C6: when the side of strictly minimal overlap asks for a velocity
    sign the moving entity does not have, [pushback_entity] changes
    nothing and fires no callback: it returns the scene it was given with
    an empty list of callback events, whatever the flags and callbacks. *)
Theorem pushback_sign_mismatch a s sd :
  strictly_minimal sd s ->
  approaching sd s = false ->
  pushback_entity a s = (Returned, s, []).
Proof.
  intros Hs Happ. rewrite pushback_entity_by_side.
  rewrite (strictly_minimal_contact sd s Hs), Happ. reflexivity.
Qed.

Lemma pushback_sign_mismatch_witness :
  pushback_entity loud_args (left_scene (- (1)))
  = (Returned, left_scene (- (1)), []).
Proof.
  apply (pushback_sign_mismatch loud_args (left_scene (- (1))) SLeft).
  - intros [] Hne; try congruence; vm_compute; reflexivity.
  - vm_compute. reflexivity.
Defined.

(** *** C3 *)

(** C3, as the spec states it, fails on the code: the assignment of
    GROUND sits inside [if pushback_y:], so a call with both vertical
    flags off resolves the top-side contact and leaves an airborne Player
    airborne. *)
Lemma pushback_top_flags_off_counterexample :
  is_player (other top_scene) = true /\
  contact_side top_scene = Some STop /\
  key_of top_scene = Some AIR /\
  exists s',
    pushback_entity flags_off_args top_scene = (Returned, s', []) /\
    key_of s' <> Some GROUND.
Proof.
  split; [reflexivity|]. split; [vm_compute; reflexivity|].
  split; [reflexivity|].
  exists top_scene. split; [vm_compute; reflexivity | discriminate].
Qed.

(** C3 (amended): when the resolver resolves a top-side contact with the
    Player as moving entity and at least one of [pushback_y_up],
    [pushback_y_down] is set, the call returns with the Player's state key
    equal to GROUND (the callbacks run after the assignment; they are
    assumed not to move a grounded Player to another state).  With both
    flags off the resolver itself does not assign the key: it hands the
    untouched scene to [on_hit_above] and [on_hit]. *)
Theorem pushback_top_grounds_player a s :
  is_player (other s) = true ->
  contact_side s = Some STop ->
  keeps_ground (on_hit_above a) ->
  keeps_ground (on_hit a) ->
  (pushback_y_up a || pushback_y_down a = true ->
   exists s' tr,
     pushback_entity a s = (Returned, s', tr) /\ key_of s' = Some GROUND) /\
  (pushback_y_up a || pushback_y_down a = false ->
   pushback_entity a s = finish_hit OnHitAbove (on_hit_above a) a s).
Proof.
  intros Hp Hside Habove Hhit.
  rewrite pushback_entity_by_side, Hside.
  cbn [resolved_scene side_event side_callback].
  split; intros Hflag; rewrite Hflag; [|reflexivity].
  rewrite ground_player_spec.
  apply finish_hit_keeps_ground; [assumption | assumption |].
  pose proof (key_of_apply_vert a
    (map_partner
       (map_ent (set_y (y (obj_entity (this s)) - h (other_entity (other s)))))
       s)) as Hk.
  rewrite key_of_map_partner in Hk.
  destruct (other (apply_vert_pushback a _)) as [m | p] eqn:Eo.
  - unfold key_of in Hk at 1. rewrite Eo in Hk.
    unfold key_of in Hk. destruct (other s); discriminate.
  - reflexivity.
Qed.

Lemma pushback_top_grounds_player_witness :
  exists s' tr,
    pushback_entity push2_args top_scene = (Returned, s', tr) /\
    key_of s' = Some GROUND.
Proof.
  destruct (pushback_top_grounds_player push2_args top_scene) as [Hon _].
  - reflexivity.
  - vm_compute. reflexivity.
  - exact I.
  - exact I.
  - apply Hon. reflexivity.
Defined.

(** The callers that switch the flags off assign GROUND themselves:
    [MovingPlatform.on_collision] grounds the Player through its
    [on_hit_above] callback. *)
Lemma MovingPlatform_grounds_player s m d c :
  this s = AMovingPlatform m d c ->
  is_player (other s) = true ->
  contact_side s = Some STop ->
  exists s' tr,
    MovingPlatform_on_collision s = (Returned, s', tr) /\
    key_of s' = Some GROUND.
Proof.
  intros Ht Hp Hside. unfold MovingPlatform_on_collision. rewrite Hp.
  rewrite pushback_entity_by_side, Hside.
  cbn [resolved_scene side_event side_callback on_hit_above on_hit
       pushback_y_up pushback_y_down orb finish_hit fire].
  eexists _, _. split; [reflexivity|].
  unfold MovingPlatform_on_hit_above_by_player. rewrite Ht.
  rewrite ground_player_spec. cbn [snd].
  destruct s as [t [mv | p] g r]; [discriminate|]. reflexivity.
Qed.

(** ** The collision protocol *)

Lemma colliding_flag_set b s :
  colliding_flag (map_this (set_is_colliding b) s) = b.
Proof. unfold colliding_flag. destruct s as [[e | e | d | m ? ?] o g r]; reflexivity. Qed.

Section Protocol.

Variable on_collision : Callback.
Variable on_collision_end : Callback.

(** One call: the result is the overlap test, the stored flag becomes
    the overlap test, and the callbacks are [events_of]. *)
Lemma collide_with_spec s :
  exists s',
    collide_with on_collision on_collision_end s
    = (overlapping s, s', events_of (overlapping s) (colliding_flag s)) /\
    colliding_flag s' = overlapping s.
Proof.
  unfold collide_with, events_of. fold (colliding_flag s).
  destruct (overlapping s).
  - eexists. split; [reflexivity | apply colliding_flag_set].
  - destruct (colliding_flag s) eqn:E.
    + eexists. split; [reflexivity | apply colliding_flag_set].
    + exists s. split; [reflexivity | exact E].
Qed.

Lemma collide_run_protocol ticks :
  Forall keeps_flag ticks ->
  forall s,
    fst (collide_run on_collision on_collision_end ticks s)
    = protocol (colliding_flag s)
        (saw_overlap <$> fst (collide_run on_collision on_collision_end ticks s)).
Proof.
  induction 1 as [| u rest Hu Hrest IH]; intros s; [reflexivity|].
  cbn [collide_run].
  destruct (collide_with_spec (u s)) as (s1 & -> & Hflag).
  specialize (IH s1).
  destruct (collide_run on_collision on_collision_end rest s1) as [log s2].
  cbn [fst fmap list_fmap saw_overlap protocol] in *.
  rewrite (Hu s). f_equal. rewrite Hflag in IH. exact IH.
Qed.

End Protocol.

Lemma protocol_lookup overlaps : forall flag i c,
  protocol flag overlaps !! i = Some c ->
  returned c = saw_overlap c /\
  invoked c = events_of (saw_overlap c) (found_flag c) /\
  found_flag c = match i with
                 | O => flag
                 | S j => default false (overlaps !! j)
                 end.
Proof.
  induction overlaps as [| o rest IH]; intros flag i c Hc; [discriminate|].
  destruct i as [| i]; cbn in Hc.
  - injection Hc as <-. auto.
  - destruct (IH _ _ _ Hc) as (Hr & Hi & Hf). repeat split; try assumption.
    rewrite Hf. destruct i as [| j]; reflexivity.
Qed.

(** *** C1 *)

(** C1, as the spec states it, fails on the code: [on_collision] is not
    reserved for the transition.  The second call finds the stored flag
    set and invokes [on_collision] again. *)
Lemma collide_with_repeats_counterexample :
  exists c,
    two_overlapping_ticks !! 1%nat = Some c /\
    found_flag c = true /\
    In OnCollision (invoked c).
Proof.
  eexists. split; [vm_compute; reflexivity|].
  split; [reflexivity | left; reflexivity].
Qed.

(** C1 (amended): for every pair, every choice of the two callbacks and
    every sequence of calls to [collide_with] (with arbitrary steps in
    between that do not write [is_colliding]), each call returns its
    overlap test and invokes exactly [events_of]: [on_collision] once on
    every call whose rectangles overlap, whether or not the stored flag is
    already set; [on_collision_end] once on a call whose rectangles do not
    overlap while the stored flag is set; nothing otherwise, so never
    [on_collision] for non-overlapping rectangles.  The flag a call finds
    is the overlap test of the previous call: the stored flag is updated
    to the overlap test by every call. *)
Theorem collide_with_protocol on_collision on_collision_end ticks s i c :
  Forall keeps_flag ticks ->
  fst (collide_run on_collision on_collision_end ticks s) !! i = Some c ->
  returned c = saw_overlap c /\
  invoked c = events_of (saw_overlap c) (found_flag c) /\
  found_flag c =
    match i with
    | O => colliding_flag s
    | S j =>
        default false
          (saw_overlap <$>
             fst (collide_run on_collision on_collision_end ticks s) !! j)
    end.
Proof.
  intros Hticks Hc.
  rewrite (collide_run_protocol on_collision on_collision_end ticks Hticks s)
    in Hc.
  destruct (protocol_lookup _ _ _ _ Hc) as (Hr & Hi & Hf).
  repeat split; try assumption.
  rewrite Hf. destruct i as [| j]; [reflexivity|].
  rewrite list_lookup_fmap. reflexivity.
Qed.

Lemma collide_with_protocol_witness :
  fst (collide_run Entity_on_collision Entity_on_collision_end
                   [fun s => s; fun s => s; walk_away; fun s => s]
                   (left_scene 1))
  = [mkCall true false true [OnCollision];
     mkCall true true true [OnCollision];
     mkCall false true false [OnCollisionEnd];
     mkCall false false false []] /\
  (invoked (mkCall false true false [OnCollisionEnd])
   = events_of false true).
Proof.
  split; [vm_compute; reflexivity|].
  refine (proj1 (proj2
    (collide_with_protocol Entity_on_collision Entity_on_collision_end
       [fun s => s; fun s => s; walk_away; fun s => s] (left_scene 1)
       2%nat (mkCall false true false [OnCollisionEnd]) _ _))).
  - repeat constructor; intros [[e | e | d | m ? ?] [mv | p] g r]; reflexivity.
  - vm_compute. reflexivity.
Defined.

(** ** The state machine *)

Section StateMachineFacts.

Context {K : Type} `{Countable K} {D : Type}.
Implicit Types (m : StateMachine K D) (d : D) (k : K).

(** The setter never touches the dictionary, and whatever way it ends
    the current key is registered and [state] is the object registered
    under it. *)
Lemma set_state_key_invariant k m d o m' d' tr :
  set_state_key k m d = (o, m', d', tr) ->
  state_map m' = state_map m /\
  (valid_key m -> valid_key m') /\
  (coherent m -> coherent m').
Proof.
  unfold set_state_key. intros Hset.
  destruct (state_map m !! k) as [s' |] eqn:Ek.
  - destruct (decide (sm_state_key m = k)).
    + injection Hset as <- <- <- <-. auto.
    + destruct (call_on_exit (state m) d) as [[| e] d1].
      * destruct (call_on_enter s' d1) as [o2 d2].
        injection Hset as <- <- <- <-.
        unfold valid_key, coherent. cbn. rewrite Ek. eauto.
      * injection Hset as <- <- <- <-. auto.
  - injection Hset as <- <- <- <-. auto.
Qed.

End StateMachineFacts.

(** *** C7 *)

(** C7: for a machine whose current key is registered, assigning the
    current key runs no hook and changes nothing; assigning a key that is
    not in [state_map] raises ValueError, runs no hook and changes
    nothing; and however an assignment ends (also when a hook raises),
    the current key is a key of the unchanged mapping afterwards. *)
Theorem set_state_key_spec {K : Type} `{Countable K} {D : Type}
    (m : StateMachine K D) (d : D) (k : K) :
  valid_key m ->
  (k = sm_state_key m -> set_state_key k m d = (Returned, m, d, [])) /\
  (state_map m !! k = None ->
   set_state_key k m d = (Raised ValueError, m, d, [])) /\
  (forall o m' d' tr,
     set_state_key k m d = (o, m', d', tr) ->
     state_map m' = state_map m /\ valid_key m').
Proof.
  intros [s Hs]. split; [|split].
  - intros ->. unfold set_state_key. rewrite Hs.
    destruct (decide _); [reflexivity | congruence].
  - intros Hk. unfold set_state_key. rewrite Hk. reflexivity.
  - intros o m' d' tr Hset.
    destruct (set_state_key_invariant _ _ _ _ _ _ _ Hset) as (Hm & Hv & _).
    split; [exact Hm | apply Hv; exists s; exact Hs].
Qed.

Lemma set_state_key_spec_witness :
  set_state_key GROUND two_state_machine tt
  = (Returned, two_state_machine, tt, []) /\
  set_state_key CLIMB two_state_machine tt
  = (Raised ValueError, two_state_machine, tt, []) /\
  valid_key (snd (fst (fst (set_state_key AIR two_state_machine tt)))).
Proof.
  assert (Hv : valid_key two_state_machine).
  { exists (mkState BaseState true). vm_compute. reflexivity. }
  split; [|split].
  - apply (set_state_key_spec two_state_machine tt GROUND Hv). reflexivity.
  - apply (set_state_key_spec two_state_machine tt CLIMB Hv).
    vm_compute. reflexivity.
  - destruct (set_state_key AIR two_state_machine tt) as [[[o m'] d'] tr] eqn:E.
    apply (proj2 (proj2 (set_state_key_spec two_state_machine tt AIR Hv))
             o m' d' tr E).
Defined.

(** *** C10 *)

(** C10: reading [state_key] raises AttributeError for every machine, in
    every state; in particular for every Player. *)
Theorem state_key_unreadable {K : Type} `{Countable K} {D : Type}
    (m : StateMachine K D) (p : Player) :
  get_state_key m = inl AttributeError /\
  get_state_key (Player_machine p) = inl AttributeError.
Proof. split; reflexivity. Qed.

(** ** Registry clean-up *)

Lemma list_remove_length i entities :
  (length (list_remove i entities) <= length entities)%nat.
Proof.
  induction entities as [| e rest IH]; cbn; [lia|].
  destruct (decide _); cbn; lia.
Qed.

(** [len(entities)] rounds are all the loop can make: once the index has
    run past the end, more rounds change nothing. *)
Lemma cleanup_loop_done fuel : forall i entities,
  (length entities <= i + fuel)%nat ->
  cleanup_loop (S fuel) i entities = cleanup_loop fuel i entities.
Proof.
  induction fuel as [| fuel IH]; intros i entities Hlen.
  - cbn. rewrite lookup_ge_None_2 by lia. reflexivity.
  - change (cleanup_loop (S (S fuel)) i entities)
      with (match entities !! i with
            | None => entities
            | Some entity =>
                if negb (is_alive (obj_entity entity)) then
                  cleanup_loop (S fuel) (S i)
                    (list_remove (oid (obj_entity entity)) entities)
                else cleanup_loop (S fuel) (S i) entities
            end).
    change (cleanup_loop (S fuel) i entities)
      with (match entities !! i with
            | None => entities
            | Some entity =>
                if negb (is_alive (obj_entity entity)) then
                  cleanup_loop fuel (S i)
                    (list_remove (oid (obj_entity entity)) entities)
                else cleanup_loop fuel (S i) entities
            end).
    destruct (entities !! i) as [entity |]; [|reflexivity].
    destruct (negb _).
    + apply IH.
      pose proof (list_remove_length (oid (obj_entity entity)) entities). lia.
    + apply IH. lia.
Qed.

Lemma cleanup_entities_fuel entities : forall n,
  cleanup_loop (length entities + n) 0 entities = cleanup_entities entities.
Proof.
  induction n as [| n IH].
  - rewrite Nat.add_0_r. reflexivity.
  - rewrite Nat.add_succ_r, cleanup_loop_done by lia. exact IH.
Qed.

(** A lone dead entity is pruned... *)
Lemma cleanup_entities_single e :
  is_alive (obj_entity e) = false -> cleanup_entities [e] = [].
Proof.
  intros Hdead. unfold cleanup_entities. cbn. rewrite Hdead. cbn.
  destruct (decide _); [reflexivity | congruence].
Qed.

(** ... and live entities are never pruned. *)
Lemma list_remove_keeps i entities e :
  e ∈ entities -> oid (obj_entity e) <> i -> e ∈ list_remove i entities.
Proof.
  induction entities as [| e' rest IH]; intros Hin Hne; [inversion Hin|].
  cbn. destruct (decide (oid (obj_entity e') = i)) as [Heq | Hneq].
  - apply elem_of_cons in Hin as [-> | Hin]; [congruence | exact Hin].
  - apply elem_of_cons in Hin as [-> | Hin]; [left | right; auto].
Qed.

Lemma list_remove_subset i entities e :
  e ∈ list_remove i entities -> e ∈ entities.
Proof.
  induction entities as [| e' rest IH]; cbn; [auto|].
  destruct (decide _); intros Hin.
  - right. exact Hin.
  - apply elem_of_cons in Hin as [-> | Hin]; [left | right; auto].
Qed.

Lemma cleanup_loop_keeps_alive e fuel : forall i entities,
  identities_ok entities -> e ∈ entities -> is_alive (obj_entity e) = true ->
  e ∈ cleanup_loop fuel i entities.
Proof.
  induction fuel as [| fuel IH]; intros i entities Hok Hin Halive; [exact Hin|].
  cbn. destruct (entities !! i) as [entity |] eqn:Ei; [|exact Hin].
  destruct (is_alive (obj_entity entity)) eqn:Eal; cbn; [apply IH; assumption|].
  apply IH; [| |exact Halive].
  - intros a b Ha Hb. apply Hok; eapply list_remove_subset; eassumption.
  - apply list_remove_keeps; [exact Hin|]. intros Heq.
    apply Hok in Heq; [| exact Hin | eapply list_elem_of_lookup_2; exact Ei].
    subst. congruence.
Qed.

Lemma cleanup_entities_keeps_alive e entities :
  identities_ok entities -> e ∈ entities -> is_alive (obj_entity e) = true ->
  e ∈ cleanup_entities entities.
Proof. apply cleanup_loop_keeps_alive. Qed.

(** *** C4 *)

(** C4 fails on the code: [cleanup_entities] removes from the list it is
    iterating over, so the element that slides into the freed slot is
    skipped.  Of two adjacent dead entities the second survives the
    clean-up pass of [App.update] and is in the collection on the
    following tick; of three, the middle one. *)
Theorem cleanup_entities_skips_neighbour :
  cleanup_entities [dead_coin 1 40; dead_coin 2 48] = [dead_coin 2 48] /\
  is_alive (obj_entity (dead_coin 2 48)) = false /\
  cleanup_entities [expired_debris 7; expired_debris 8; expired_debris 9]
  = [expired_debris 8] /\
  is_alive (obj_entity (expired_debris 8)) = false /\
  App_update_cleanup
    (mkManager [expired_debris 7; expired_debris 8; expired_debris 9]
               [dead_coin 1 40; dead_coin 2 48] [] 2 0)
  = mkManager [expired_debris 8] [dead_coin 2 48] [] 2 0.
Proof. repeat (split; [vm_compute; reflexivity|]). vm_compute. reflexivity. Qed.

(** ** Collisions of dead entities *)

(** *** C5 *)

(** C5, as the spec states it, fails on the code: no collision path looks
    at [is_alive].  A dead Coin that overlaps the Player is collected
    again: the coin counter goes up and another sparkle is spawned. *)
Lemma dead_coin_counterexample :
  is_alive (obj_entity (this dead_coin_scene)) = false /\
  exists s',
    Coin_collide_with dead_coin_scene = (true, s', [OnCollision]) /\
    coins (manager s') = 3 /\
    length (particles (manager s')) = 1%nat /\
    s' <> dead_coin_scene.
Proof.
  split; [reflexivity|]. eexists. split; [vm_compute; reflexivity|].
  split; [reflexivity|]. split; [reflexivity|].
  intros Heq. apply (f_equal (fun s => coins (manager s))) in Heq.
  vm_compute in Heq. discriminate.
Qed.

Lemma Coin_die_effect s :
  let s' := Coin_die s in
  this s' = map_obj (set_is_alive false) (this s) /\
  other s' = other s /\
  coins (manager s') = coins (manager s) /\
  length (particles (manager s')) = S (length (particles (manager s))).
Proof.
  unfold Coin_die, random_choice_sign, random_random, new_DeathSprite, fresh_oid.
  cbn. repeat split. rewrite length_app. cbn. lia.
Qed.

(** C5 (amended): the collision path of a Coin whose partner is the
    Player does not depend on [is_alive]; it is a no-op exactly when the
    rectangles do not overlap and the stored colliding flag is clear.  On
    overlapping rectangles, dead or alive, it increments the coin counter,
    appends one effect to [particles], leaves the coin with
    [is_alive = False] and [is_colliding = True], and does not touch the
    Player; on non-overlapping rectangles with the flag set it only clears
    the flag. *)
Theorem Coin_collide_with_any_liveness s e :
  this s = ACoin e ->
  is_player (other s) = true ->
  (overlapping s = true ->
   exists s',
     Coin_collide_with s = (true, s', [OnCollision]) /\
     coins (manager s') = coins (manager s) + 1 /\
     length (particles (manager s')) = S (length (particles (manager s))) /\
     this s' = ACoin (set_is_colliding true (set_is_alive false e)) /\
     other s' = other s) /\
  (overlapping s = false -> colliding_flag s = true ->
   Coin_collide_with s
   = (false, map_this (set_is_colliding false) s, [OnCollisionEnd])) /\
  (overlapping s = false -> colliding_flag s = false ->
   Coin_collide_with s = (false, s, [])).
Proof.
  intros Hthis Hplayer. unfold Coin_collide_with, collide_with.
  fold (colliding_flag s). split; [|split].
  - intros ->. eexists. split; [reflexivity|].
    unfold Coin_on_collision. rewrite Hplayer.
    match goal with |- context [Coin_die ?s0] =>
      destruct (Coin_die_effect s0) as (Ht & Ho & Hc & Hp) end.
    cbn [map_this this other manager]. rewrite Ht, Ho, Hc, Hp.
    cbn [this other manager coins set_coins particles]. rewrite Hthis.
    repeat split.
  - intros -> ->. reflexivity.
  - intros -> ->. reflexivity.
Qed.

Lemma Coin_collide_with_any_liveness_witness :
  exists s',
    Coin_collide_with dead_coin_scene = (true, s', [OnCollision]) /\
    coins (manager s') = coins (manager dead_coin_scene) + 1.
Proof.
  destruct (Coin_collide_with_any_liveness dead_coin_scene
              (mkEntity 2 48 56 8 8 true false true)) as [Hov _].
  - reflexivity.
  - reflexivity.
  - destruct Hov as (s' & Hs & Hc & _); [vm_compute; reflexivity|].
    exists s'. split; assumption.
Defined.

(** ** Camera *)

(** *** C9 *)

(** C9, as the spec states it, fails on the code: after an update of the
    game's own camera the vertical origin is [-112], which is neither
    inside [[0, SCROLL_BORDER_Y - h]] (an empty interval, the viewport
    being taller than the level) nor equal to
    [min(0, target.y + yoff) = -64]. *)
Lemma Camera_update_y_counterexample :
  let c := Camera_update start_camera in
  (cam_y c == - (112))%Q /\
  ~ (0 <= cam_y c)%Q /\
  ~ (cam_y c == Py.min2 0 (56 + yoff start_camera))%Q.
Proof.
  split; [reflexivity|]. split; intros H; vm_compute in H.
  - apply H. reflexivity.
  - discriminate H.
Qed.

(** C9 (amended): after every [Camera.update] with a target, [x] is
    [min(SCROLL_BORDER_X - w, max(0, target.x + xoff))]: it never exceeds
    [SCROLL_BORDER_X - w], is pinned there when [target.x + xoff] is at or
    beyond it, and lies within [[0, SCROLL_BORDER_X - w]] whenever the
    viewport is not wider than the world.  The vertical origin does not
    follow the target: [max(0, min(0, target.y + yoff))] is [0], so [y]
    is [min(SCROLL_BORDER_Y - h, 0)], never positive and never more than
    [SCROLL_BORDER_Y - h]; it lies within [[0, SCROLL_BORDER_Y - h]] only
    when the viewport is not taller than the world, and is then [0]. *)
Theorem Camera_update_clamp c t :
  target c = Some t ->
  let c' := Camera_update c in
  let x1 := (x (ent (mov t)) + xoff c)%Q in
  cam_x c' = Py.min2 (SCROLL_BORDER_X - cam_w c) (Py.max2 0 x1) /\
  (cam_x c' <= SCROLL_BORDER_X - cam_w c)%Q /\
  ((SCROLL_BORDER_X - cam_w c <= x1)%Q ->
   cam_x c' = (SCROLL_BORDER_X - cam_w c)%Q) /\
  ((cam_w c <= SCROLL_BORDER_X)%Q -> (0 <= cam_x c')%Q) /\
  cam_y c' = Py.min2 (SCROLL_BORDER_Y - cam_h c) 0 /\
  (cam_y c' <= 0)%Q /\
  (cam_y c' <= SCROLL_BORDER_Y - cam_h c)%Q /\
  ((cam_h c <= SCROLL_BORDER_Y)%Q -> (cam_y c' == 0)%Q).
Proof.
  intros Ht. unfold Camera_update. rewrite Ht. cbn zeta.
  cbn [cam_x cam_y].
  set (bx := (SCROLL_BORDER_X - cam_w c)%Q).
  set (by_ := (SCROLL_BORDER_Y - cam_h c)%Q).
  set (x1 := (x (ent (mov t)) + xoff c)%Q).
  assert (Hy0 : Py.max2 0 (Py.min2 0 (y (ent (mov t)) + yoff c)) = 0%Q).
  { unfold Py.max2.
    destruct (Py.ltb 0 (Py.min2 0 _)) eqn:E; [|reflexivity].
    apply PyFacts.ltb_lt in E.
    pose proof (PyFacts.min2_le_l 0 (y (ent (mov t)) + yoff c)). lra. }
  rewrite Hy0.
  split; [reflexivity|].
  split; [apply PyFacts.min2_le_l|].
  split.
  { intros Hpin. unfold Py.min2.
    destruct (Py.ltb (Py.max2 0 x1) bx) eqn:E; [|reflexivity].
    apply PyFacts.ltb_lt in E. pose proof (PyFacts.max2_ge_r 0 x1). lra. }
  split.
  { intros Hw. pose proof (PyFacts.max2_ge_l 0 x1).
    destruct (PyFacts.min2_cases bx (Py.max2 0 x1)) as [-> | ->];
      [unfold bx; lra | assumption]. }
  split; [reflexivity|].
  split; [apply PyFacts.min2_le_r|].
  split; [apply PyFacts.min2_le_l|].
  intros Hh. unfold Py.min2.
  destruct (Py.ltb 0 by_) eqn:E; [reflexivity|].
  apply PyFacts.ltb_ge in E. unfold by_ in *. lra.
Qed.

Lemma Camera_update_clamp_witness :
  let c' := Camera_update
              (App_camera (map_mov (map_ent (set_x 1900)) (new_Player 0 40 56))) in
  cam_x c' = (SCROLL_BORDER_X - SCREEN_WIDTH)%Q /\
  (cam_y c' <= 0)%Q.
Proof.
  destruct (Camera_update_clamp
              (App_camera (map_mov (map_ent (set_x 1900)) (new_Player 0 40 56)))
              (map_mov (map_ent (set_x 1900)) (new_Player 0 40 56)))
    as (_ & _ & Hpin & _ & _ & Hy & _).
  - reflexivity.
  - split; [apply Hpin; vm_compute; discriminate | exact Hy].
Defined.

(** * Further properties of the code *)

(** ** AABB overlap *)

Lemma collide_aabb_true x1 y1 w1 h1 x2 y2 w2 h2 :
  collide_aabb x1 y1 w1 h1 x2 y2 w2 h2 = true <->
  (x1 < x2 + w2 /\ x2 < x1 + w1 /\ y1 < y2 + h2 /\ y2 < y1 + h1)%Q.
Proof.
  unfold collide_aabb. rewrite !andb_true_iff, !PyFacts.ltb_lt. tauto.
Qed.

(** X1: the overlap test is symmetric in its two rectangles. *)
Theorem collide_aabb_sym x1 y1 w1 h1 x2 y2 w2 h2 :
  collide_aabb x1 y1 w1 h1 x2 y2 w2 h2 = collide_aabb x2 y2 w2 h2 x1 y1 w1 h1.
Proof.
  apply eq_true_iff_eq. rewrite !collide_aabb_true. tauto.
Qed.

(** X2: the comparisons are strict, so rectangles that are apart or only
    touch along an edge (one ends where the other begins, on either axis)
    do not overlap. *)
Theorem collide_aabb_touching x1 y1 w1 h1 x2 y2 w2 h2 :
  (x1 + w1 <= x2 \/ x2 + w2 <= x1 \/ y1 + h1 <= y2 \/ y2 + h2 <= y1)%Q ->
  collide_aabb x1 y1 w1 h1 x2 y2 w2 h2 = false.
Proof.
  intros Hsep. apply not_true_is_false. rewrite collide_aabb_true.
  intros (? & ? & ? & ?). destruct Hsep as [? | [? | [? | ?]]]; lra.
Qed.

Lemma collide_aabb_touching_witness :
  collide_aabb 0 0 8 8 8 0 8 8 = false.
Proof.
  apply (collide_aabb_touching 0 0 8 8 8 0 8 8).
  left. vm_compute. discriminate.
Defined.

(** ** The resolver separates what it resolves *)






Lemma this_apply_vert a s : this (apply_vert_pushback a s) = this s.
Proof.
  unfold apply_vert_pushback.
  repeat match goal with |- context [if ?b then _ else _] => destruct b end;
    reflexivity.
Qed.





(** ** Building a state machine *)

(** X4: [init_state_machine] raises KeyError exactly when the starting
    key is not registered; otherwise the machine it builds starts at that
    key, keeps the key set of the dictionary, satisfies the data-model
    invariant ([state] is the object registered under the current key) and
    has bound a parent to every registered state, so that no base-class
    hook can raise afterwards. *)
Theorem init_state_machine_spec {K : Type} `{Countable K} {D : Type}
    (m : gmap K (State D)) (k : K) :
  (m !! k = None <-> init_state_machine m k = inl KeyError) /\
  (forall s, m !! k = Some s ->
     exists sm,
       init_state_machine m k = inr sm /\
       sm_state_key sm = k /\
       dom (state_map sm) = dom m /\
       valid_key sm /\ coherent sm /\ parents_bound sm).
Proof.
  unfold init_state_machine. split.
  - destruct (m !! k); split; congruence.
  - intros s Hs. rewrite Hs. eexists. split; [reflexivity|].
    split; [reflexivity|]. split; [apply dom_fmap_L|].
    assert (Hc : (set_parent <$> m) !! k = Some (set_parent s))
      by (rewrite lookup_fmap, Hs; reflexivity).
    split; [exists (set_parent s); exact Hc|]. split; [exact Hc|].
    intros k' s' Hs'. cbn in Hs'. rewrite lookup_fmap in Hs'.
    destruct (m !! k') as [s0|]; [|discriminate].
    injection Hs' as <-. reflexivity.
Qed.

(** ** The Player's transitions *)

Lemma Player_set_state_key_same k d :
  _state_key (pw_player d) = k ->
  Player_set_state_key k d
  = (Returned,
     mkPlayerWorld (set_key k (pw_player d)) (pw_manager d) (pw_runtime d)).
Proof.
  intros Hk. unfold Player_set_state_key, set_state_key.
  cbn [Player_machine state_map sm_state_key state].
  rewrite Player_state_map_lookup, Hk.
  destruct (decide (k = k)); [|congruence].
  cbn [sm_state_key Player_machine]. rewrite Hk. reflexivity.
Qed.

Lemma Player_set_state_key_plain k d :
  k <> DEAD ->
  Player_set_state_key k d
  = (Returned,
     mkPlayerWorld (set_key k (pw_player d)) (pw_manager d) (pw_runtime d)).
Proof.
  intros Hk.
  destruct (decide (_state_key (pw_player d) = k)) as [E | E];
    [apply Player_set_state_key_same, E|].
  unfold Player_set_state_key, set_state_key.
  cbn [Player_machine state_map sm_state_key state].
  rewrite Player_state_map_lookup.
  destruct (decide (_state_key (pw_player d) = k)); [congruence|].
  destruct (_state_key (pw_player d)), k; try congruence; reflexivity.
Qed.

Lemma Player_set_state_key_DEAD d :
  _state_key (pw_player d) <> DEAD ->
  Player_set_state_key DEAD d
  = (Returned,
     let d' := snd (PlayerDeathState_on_enter true d) in
     mkPlayerWorld (set_key DEAD (pw_player d')) (pw_manager d') (pw_runtime d')).
Proof.
  intros Hk.
  unfold Player_set_state_key, set_state_key.
  cbn [Player_machine state_map sm_state_key state].
  rewrite Player_state_map_lookup.
  destruct (decide (_state_key (pw_player d) = DEAD)); [congruence|].
  destruct (_state_key (pw_player d)); try congruence; reflexivity.
Qed.

(** X5: assigning [state_key] on a Player never raises, whatever the
    current state and the key assigned, and leaves the key assigned as the
    current one.  Unless the assignment enters DEAD from another state,
    nothing but the key changes: the hooks of the GROUND, AIR and CLIMB
    states (and the exit hook of DEAD) are the base-class no-ops. *)
Theorem Player_set_state_key_total k d :
  exists d',
    Player_set_state_key k d = (Returned, d') /\
    _state_key (pw_player d') = k /\
    (k <> DEAD \/ _state_key (pw_player d) = DEAD ->
     d' = mkPlayerWorld (set_key k (pw_player d)) (pw_manager d) (pw_runtime d)).
Proof.
  destruct (decide (k = DEAD)) as [-> | Hk].
  - destruct (decide (_state_key (pw_player d) = DEAD)) as [E | E].
    + rewrite (Player_set_state_key_same DEAD d E).
      eexists. split; [reflexivity|]. split; [reflexivity|]. reflexivity.
    + rewrite (Player_set_state_key_DEAD d E).
      eexists. split; [reflexivity|]. split; [reflexivity|].
      intros [? | ?]; congruence.
  - rewrite (Player_set_state_key_plain k d Hk).
    eexists. split; [reflexivity|]. split; [reflexivity|]. reflexivity.
Qed.

(** ** The Player's death *)

Lemma Player_die_alive d :
  _state_key (pw_player d) <> DEAD ->
  exists sprite,
    Player_die d
    = (Returned,
       mkPlayerWorld
         (set_key DEAD
            (map_mov (set_dy 0)
               (map_mov (set_dx 0)
                  (set_death_lifespan (Some 70) (pw_player d)))))
         (append_particle (ADeathSprite sprite) (pw_manager d))
         (mkRuntime (draws (pw_runtime d)) (S (cursor (pw_runtime d)))
                    (S (next_oid (pw_runtime d))))) /\
    ent (ds_mov sprite)
    = mkEntity (next_oid (pw_runtime d))
               (x (ent (mov (pw_player d)))) (y (ent (mov (pw_player d))))
               (w (ent (mov (pw_player d)))) (h (ent (mov (pw_player d))))
               true true false /\
    marker_tile sprite = DEAD_HERO /\
    flip_horizontal sprite = false /\
    flip_vertical sprite = true /\
    dy (ds_mov sprite) = (- (3))%Q /\
    cur_lifespan sprite = 70 /\
    feels_gravity sprite = true.
Proof.
  intros Hk. unfold Player_die. rewrite (Player_set_state_key_DEAD d Hk).
  unfold PlayerDeathState_on_enter, random_uniform, random_random,
    new_DeathSprite, fresh_oid.
  cbn. eexists. split; [reflexivity|]. repeat split.
Qed.

(** X6: [Player.die()] in a state other than DEAD returns with the
    Player in state DEAD, its velocity zeroed, its position and liveness
    untouched and the countdown of the DEAD state at 70; it appends exactly
    one effect to [particles], a DeathSprite at the Player's rectangle with
    lifespan 70 that is flipped vertically and never horizontally (the
    velocity is zeroed before its sign is read); the other collections and
    the counters are untouched.  A second [die()] changes nothing. *)
Theorem Player_die_once d :
  _state_key (pw_player d) <> DEAD ->
  exists d' sprite,
    Player_die d = (Returned, d') /\
    Player_die d' = (Returned, d') /\
    _state_key (pw_player d') = DEAD /\
    dx (mov (pw_player d')) = 0%Q /\ dy (mov (pw_player d')) = 0%Q /\
    ent (mov (pw_player d')) = ent (mov (pw_player d)) /\
    death_lifespan (pw_player d') = Some 70 /\
    pw_manager d' = append_particle (ADeathSprite sprite) (pw_manager d) /\
    (let e := ent (mov (pw_player d)) in
     (x (ent (ds_mov sprite)), y (ent (ds_mov sprite)),
      w (ent (ds_mov sprite)), h (ent (ds_mov sprite)))
     = (x e, y e, w e, h e)) /\
    cur_lifespan sprite = 70 /\
    flip_horizontal sprite = false /\ flip_vertical sprite = true.
Proof.
  intros Hk. destruct (Player_die_alive d Hk)
    as (sprite & Hdie & He & _ & Hfh & Hfv & _ & Hl & _).
  eexists _, sprite. split; [exact Hdie|].
  split.
  { unfold Player_die. rewrite Player_set_state_key_same by reflexivity.
    destruct d as [[] ? ?]; reflexivity. }
  repeat split; try assumption.
  cbv zeta. rewrite He. reflexivity.
Qed.

Lemma Player_die_once_witness :
  exists d',
    Player_die (sample_world (sample_player 40 56 1 2 AIR)) = (Returned, d') /\
    _state_key (pw_player d') = DEAD /\
    length (particles (pw_manager d')) = 1%nat.
Proof.
  destruct (Player_die_once (sample_world (sample_player 40 56 1 2 AIR)))
    as (d' & sprite & H1 & _ & H3 & _ & _ & _ & _ & Hm & _).
  - vm_compute. discriminate.
  - exists d'. split; [exact H1|]. split; [exact H3|]. rewrite Hm. reflexivity.
Defined.

Lemma dead_updates_run n : forall d L,
  death_lifespan (pw_player d) = Some L ->
  exists d',
    dead_updates n d = (Returned, d') /\
    death_lifespan (pw_player d') = Some (L - Z.of_nat n) /\
    player_alive d'
    = (if (n =? 0)%nat || (0 <? L - Z.of_nat n) then player_alive d else false).
Proof.
  induction n as [| n IH]; intros d L HL.
  - exists d. cbn. rewrite Z.sub_0_r. auto.
  - cbn [dead_updates]. unfold PlayerDeathState_update. rewrite HL.
    destruct (Z.leb_spec (L - 1) 0) as [Hle | Hgt].
    + edestruct (IH (mkPlayerWorld
                       (map_mov (map_ent (set_is_alive false))
                          (set_death_lifespan (Some (L - 1)) (pw_player d)))
                       (pw_manager d) (pw_runtime d)) (L - 1))
        as (d' & Hrun & Hl & Hal); [reflexivity|].
      exists d'. split; [exact Hrun|]. split; [rewrite Hl; f_equal; lia|].
      rewrite Hal. cbn [Nat.eqb orb].
      destruct (Z.ltb_spec 0 (L - Z.of_nat (S n))); [lia|].
      destruct (_ || _); reflexivity.
    + edestruct (IH (mkPlayerWorld
                       (set_death_lifespan (Some (L - 1)) (pw_player d))
                       (pw_manager d) (pw_runtime d)) (L - 1))
        as (d' & Hrun & Hl & Hal); [reflexivity|].
      exists d'. split; [exact Hrun|]. split; [rewrite Hl; f_equal; lia|].
      rewrite Hal. cbn [Nat.eqb orb].
      replace (L - 1 - Z.of_nat n) with (L - Z.of_nat (S n)) by lia.
      destruct (Z.ltb_spec 0 (L - Z.of_nat (S n))) as [Hpos | Hneg].
      * rewrite orb_true_r. reflexivity.
      * rewrite orb_false_r. destruct n as [| n]; [lia | reflexivity].
Qed.

(** X7: once the Player has died, the DEAD state counts 70 updates: for
    every number [n] of further [Player.update] calls, none raises, the
    Player's [is_alive] is what it was before the death while [n < 70],
    and it is False from the 70th update on, for good. *)
Theorem Player_death_countdown d n :
  _state_key (pw_player d) <> DEAD ->
  exists d',
    dead_updates n (snd (Player_die d)) = (Returned, d') /\
    player_alive d' = (if (n <? 70)%nat then player_alive d else false).
Proof.
  intros Hk. destruct (Player_die_alive d Hk) as (sprite & Hdie & _).
  rewrite Hdie. cbn [snd].
  edestruct (dead_updates_run n) as (d' & Hrun & _ & Hal);
    [|exists d'; split; [exact Hrun|]].
  { reflexivity. }
  rewrite Hal.
  destruct (Nat.ltb_spec n 70) as [Hlt | Hge].
  - replace (0 <? 70 - Z.of_nat n) with true
      by (symmetry; apply Z.ltb_lt; lia).
    rewrite orb_true_r. destruct d as [[[]] ? ?]; reflexivity.
  - replace (0 <? 70 - Z.of_nat n) with false
      by (symmetry; apply Z.ltb_ge; lia).
    destruct n as [| n]; [lia | reflexivity].
Qed.

Lemma Player_death_countdown_witness :
  (exists d',
     dead_updates 69 (snd (Player_die (sample_world (sample_player 40 56 1 2 AIR))))
     = (Returned, d') /\ player_alive d' = true) /\
  (exists d',
     dead_updates 70 (snd (Player_die (sample_world (sample_player 40 56 1 2 AIR))))
     = (Returned, d') /\ player_alive d' = false).
Proof.
  split.
  - apply (Player_death_countdown
             (sample_world (sample_player 40 56 1 2 AIR)) 69).
    vm_compute. discriminate.
  - apply (Player_death_countdown
             (sample_world (sample_player 40 56 1 2 AIR)) 70).
    vm_compute. discriminate.
Defined.

(** ** What the clean-up pass does get right *)

Lemma list_remove_sublist i entities : sublist (list_remove i entities) entities.
Proof.
  induction entities as [| e rest IH]; cbn; [constructor|].
  destruct (decide _); [apply sublist_cons; reflexivity | apply sublist_skip, IH].
Qed.

Lemma cleanup_loop_sublist fuel : forall i entities,
  sublist (cleanup_loop fuel i entities) entities.
Proof.
  induction fuel as [| fuel IH]; intros i entities; cbn; [reflexivity|].
  destruct (entities !! i) as [entity |]; [|reflexivity].
  destruct (negb _); [|apply IH].
  etransitivity; [apply IH | apply list_remove_sublist].
Qed.

Lemma identities_ok_sublist l1 l2 :
  sublist l1 l2 -> identities_ok l2 -> identities_ok l1.
Proof.
  intros Hsub Hok a b Ha Hb.
  apply Hok; eapply sublist_subseteq; eassumption.
Qed.

(** Removing a dead object does not touch the live ones. *)
Lemma list_remove_dead_filter entities : forall e,
  identities_ok entities -> e ∈ entities -> alive e = false ->
  List.filter alive (list_remove (oid (obj_entity e)) entities)
  = List.filter alive entities.
Proof.
  induction entities as [| e' rest IH]; intros e Hok Hin Hdead; [reflexivity|].
  cbn [list_remove]. destruct (decide _) as [Heq | Hne].
  - assert (e' = e) as -> by (apply Hok; [left | exact Hin | exact Heq]).
    cbn. rewrite Hdead. reflexivity.
  - cbn. apply elem_of_cons in Hin as [-> | Hin]; [congruence|].
    rewrite (IH e); [reflexivity | | exact Hin | exact Hdead].
    eapply identities_ok_sublist; [apply sublist_cons; reflexivity | exact Hok].
Qed.

Lemma cleanup_loop_filter fuel : forall i entities,
  identities_ok entities ->
  List.filter alive (cleanup_loop fuel i entities) = List.filter alive entities.
Proof.
  induction fuel as [| fuel IH]; intros i entities Hok; cbn; [reflexivity|].
  destruct (entities !! i) as [entity |] eqn:Ei; [|reflexivity].
  destruct (is_alive (obj_entity entity)) eqn:Eal; cbn; [apply IH, Hok|].
  rewrite IH.
  - apply list_remove_dead_filter;
      [exact Hok | eapply list_elem_of_lookup_2; exact Ei | exact Eal].
  - eapply identities_ok_sublist; [apply list_remove_sublist | exact Hok].
Qed.

(** X8: the clean-up pass only ever drops dead entities.  Its result is
    a sublist of the collection (nothing added, order kept), and the live
    entities of the result are exactly the live entities of the
    collection, in the same order. *)
Theorem cleanup_entities_keeps_the_living entities :
  identities_ok entities ->
  sublist (cleanup_entities entities) entities /\
  List.filter alive (cleanup_entities entities) = List.filter alive entities.
Proof.
  intros Hok. split; [apply cleanup_loop_sublist | apply cleanup_loop_filter, Hok].
Qed.

Lemma mixed_registry_identities : identities_ok mixed_registry.
Proof.
  intros a b Ha Hb Heq. unfold mixed_registry in *.
  repeat (apply elem_of_cons in Ha as [-> | Ha]);
    try (apply elem_of_nil in Ha; contradiction);
    repeat (apply elem_of_cons in Hb as [-> | Hb]);
    try (apply elem_of_nil in Hb; contradiction);
    try reflexivity; vm_compute in Heq; discriminate.
Qed.

Lemma cleanup_entities_keeps_the_living_witness :
  List.filter alive (cleanup_entities [dead_coin 1 40; dead_coin 2 48; live_coin 3 56])
  = [live_coin 3 56].
Proof.
  refine (eq_trans (proj2 (cleanup_entities_keeps_the_living
            [dead_coin 1 40; dead_coin 2 48; live_coin 3 56] _)) _).
  - intros a b Ha Hb Heq.
    repeat (apply elem_of_cons in Ha as [-> | Ha]);
      try (apply elem_of_nil in Ha; contradiction);
      repeat (apply elem_of_cons in Hb as [-> | Hb]);
      try (apply elem_of_nil in Hb; contradiction);
      try reflexivity; vm_compute in Heq; discriminate.
  - reflexivity.
Defined.

Lemma cleanup_loop_past_end fuel i entities :
  (length entities <= i)%nat -> cleanup_loop fuel i entities = entities.
Proof.
  intros Hlen. destruct fuel; cbn; [reflexivity|].
  rewrite lookup_ge_None_2 by exact Hlen. reflexivity.
Qed.

Lemma list_remove_middle pre e rest :
  identities_ok (pre ++ e :: rest) -> Forall (fun a => alive a = true) pre ->
  alive e = false ->
  list_remove (oid (obj_entity e)) (pre ++ e :: rest) = pre ++ rest.
Proof.
  induction pre as [| a pre IH]; intros Hok Hpre Hdead; cbn.
  - destruct (decide _); [reflexivity | congruence].
  - inversion Hpre as [| ? ? Ha Hpre']; subst.
    destruct (decide _) as [Heq | Hne].
    + assert (a = e) as ->; [|congruence].
      apply Hok; [left | | exact Heq].
      right. apply elem_of_app. right. left.
    + f_equal. apply IH; [| exact Hpre' | exact Hdead].
      eapply identities_ok_sublist; [apply sublist_cons; reflexivity | exact Hok].
Qed.

Lemma cleanup_loop_no_adjacent fuel : forall pre rest,
  (length rest <= fuel)%nat ->
  identities_ok (pre ++ rest) ->
  Forall (fun a => alive a = true) pre ->
  no_adjacent_dead rest = true ->
  cleanup_loop fuel (length pre) (pre ++ rest) = pre ++ List.filter alive rest.
Proof.
  induction fuel as [| fuel IH]; intros pre rest Hlen Hok Hpre Hadj.
  - destruct rest; [reflexivity | cbn in Hlen; lia].
  - destruct rest as [| e r].
    + apply cleanup_loop_past_end. rewrite length_app. cbn. lia.
    + cbn [cleanup_loop].
      rewrite lookup_app_r, Nat.sub_diag by lia. cbn [lookup list_lookup].
      fold (alive e). destruct (alive e) eqn:Ee; cbn [negb].
      * replace (pre ++ e :: r) with ((pre ++ [e]) ++ r) in *
          by (rewrite <- app_assoc; reflexivity).
        replace (S (length pre)) with (length (pre ++ [e]))
          by (rewrite length_app; cbn; lia).
        rewrite IH.
        -- cbn. rewrite Ee, <- app_assoc. reflexivity.
        -- cbn in Hlen. lia.
        -- exact Hok.
        -- apply Forall_app. split; [exact Hpre | repeat constructor; exact Ee].
        -- destruct r; [reflexivity|]. cbn in Hadj.
           apply andb_true_iff in Hadj as [_ H]. exact H.
      * rewrite (list_remove_middle pre e r Hok Hpre Ee).
        assert (Hok' : identities_ok (pre ++ r)).
        { eapply identities_ok_sublist; [|exact Hok].
          apply sublist_app; [reflexivity | apply sublist_cons; reflexivity]. }
        cbn [List.filter]. rewrite Ee.
        destruct r as [| r0 r'].
        -- apply cleanup_loop_past_end. rewrite length_app. cbn. lia.
        -- cbn in Hadj. rewrite Ee in Hadj. cbn in Hadj.
           apply andb_true_iff in Hadj as [Hr0 Hadj].
           replace (pre ++ r0 :: r') with ((pre ++ [r0]) ++ r') in *
             by (rewrite <- app_assoc; reflexivity).
           replace (S (length pre)) with (length (pre ++ [r0]))
             by (rewrite length_app; cbn; lia).
           rewrite IH.
           ++ cbn. rewrite Hr0, <- app_assoc. reflexivity.
           ++ cbn in Hlen. lia.
           ++ exact Hok'.
           ++ apply Forall_app. split; [exact Hpre | repeat constructor; exact Hr0].
           ++ destruct r'; [reflexivity|]. cbn in Hadj.
              apply andb_true_iff in Hadj as [_ H]. exact H.
Qed.

(** X9: when no two dead entities are neighbours in the collection, the
    clean-up pass does its job: what is left is exactly the live entities,
    in their order, and no dead entity remains. *)
Theorem cleanup_entities_no_adjacent_dead entities :
  identities_ok entities ->
  no_adjacent_dead entities = true ->
  cleanup_entities entities = List.filter alive entities /\
  Forall (fun e => alive e = true) (cleanup_entities entities).
Proof.
  intros Hok Hadj.
  assert (Heq : cleanup_entities entities = List.filter alive entities).
  { apply (cleanup_loop_no_adjacent (length entities) [] entities);
      [lia | exact Hok | constructor | exact Hadj]. }
  split; [exact Heq|]. rewrite Heq.
  apply List.Forall_forall. intros e He. apply List.filter_In in He. tauto.
Qed.

Lemma cleanup_entities_no_adjacent_dead_witness :
  cleanup_entities mixed_registry
  = [live_coin 2 48; live_coin 4 64; live_coin 5 72].
Proof.
  refine (eq_trans (proj1 (cleanup_entities_no_adjacent_dead mixed_registry _ _)) _).
  - apply mixed_registry_identities.
  - reflexivity.
  - reflexivity.
Defined.

(** ** Transient effects *)

Lemma DeathSprite_update_lifespan c d :
  cur_lifespan (DeathSprite_update c d) = cur_lifespan d - 1.
Proof.
  unfold DeathSprite_update. cbv zeta.
  repeat match goal with |- context [if ?b then _ else _] => destruct b end;
    reflexivity.
Qed.

Lemma DeathSprite_update_alive c d :
  sprite_alive (DeathSprite_update c d) = true ->
  sprite_alive d = true /\ 0 < cur_lifespan d.
Proof.
  unfold DeathSprite_update, sprite_alive. cbv zeta. cbn [cur_lifespan map_ds_mov].
  destruct (Z.leb_spec (cur_lifespan d) 0) as [Hle | Hgt].
  - repeat match goal with |- context [if ?b then _ else _] => destruct b end;
      cbn; discriminate.
  - repeat match goal with |- context [if ?b then _ else _] => destruct b end;
      cbn; intros H; try discriminate; auto.
Qed.

Lemma DeathSprite_updates_snoc cs c d :
  DeathSprite_updates (cs ++ [c]) d
  = DeathSprite_update c (DeathSprite_updates cs d).
Proof. unfold DeathSprite_updates. rewrite fold_left_app. reflexivity. Qed.

Lemma DeathSprite_updates_lifespan cs : forall d,
  cur_lifespan (DeathSprite_updates cs d) = cur_lifespan d - Z.of_nat (length cs).
Proof.
  induction cs as [| c cs IH]; intros d; cbn [DeathSprite_updates fold_left].
  - cbn. lia.
  - fold (DeathSprite_updates cs (DeathSprite_update c d)).
    rewrite IH, DeathSprite_update_lifespan. cbn [length]. lia.
Qed.

Lemma DeathSprite_updates_alive cs d :
  sprite_alive (DeathSprite_updates cs d) = true ->
  sprite_alive d = true /\
  (cs = [] \/ Z.of_nat (length cs) <= cur_lifespan d).
Proof.
  induction cs as [| c cs IH] using rev_ind; [auto|].
  rewrite DeathSprite_updates_snoc. intros Hal.
  apply DeathSprite_update_alive in Hal as [Hal Hpos].
  rewrite DeathSprite_updates_lifespan in Hpos.
  split; [apply IH, Hal|]. right. rewrite length_app. cbn. lia.
Qed.

(** X10: a DeathSprite is never revived by its updates, each update
    takes one tick off [cur_lifespan], and a sprite cannot outlive its
    lifespan: it is alive after some updates only if it was alive before
    them and their number is at most the lifespan it had, so a sprite
    created with [lifespan_ticks = n] is dead after [n + 1] updates at the
    latest, wherever the camera is. *)
Theorem DeathSprite_lifespan cs d :
  cur_lifespan (DeathSprite_updates cs d) = cur_lifespan d - Z.of_nat (length cs) /\
  (sprite_alive (DeathSprite_updates cs d) = true ->
   sprite_alive d = true /\
   (cs = [] \/ Z.of_nat (length cs) <= cur_lifespan d)).
Proof.
  split; [apply DeathSprite_updates_lifespan | apply DeathSprite_updates_alive].
Qed.

Lemma DeathSprite_update_gravity c d :
  feels_gravity (DeathSprite_update c d) = feels_gravity d.
Proof.
  unfold DeathSprite_update. cbv zeta.
  repeat match goal with |- context [if ?b then _ else _] => destruct b end;
    reflexivity.
Qed.

Lemma DeathSprite_update_dy c d :
  dy (ds_mov (DeathSprite_update c d))
  = if feels_gravity d
    then Py.min2 (dy (ds_mov d) + GRAVITY) TERMINAL_VELOCITY
    else dy (ds_mov d).
Proof.
  unfold DeathSprite_update. cbv zeta.
  cbn [feels_gravity map_ds_mov ds_mov cur_lifespan].
  destruct (cur_lifespan d <=? 0); cbn [feels_gravity map_ds_mov];
    destruct (feels_gravity d);
    cbn [ds_mov map_ds_mov set_dy dy map_ent ent set_y y];
    destruct (Py.ltb _ _); reflexivity.
Qed.

(** X11: a sprite that feels gravity never falls faster than the
    terminal velocity: after one or more updates its [dy] is at most
    [TERMINAL_VELOCITY], whatever [dy] it started with. *)
Theorem DeathSprite_terminal_velocity cs c d :
  feels_gravity d = true ->
  (dy (ds_mov (DeathSprite_updates (cs ++ [c]) d)) <= TERMINAL_VELOCITY)%Q.
Proof.
  intros Hg. rewrite DeathSprite_updates_snoc, DeathSprite_update_dy.
  assert (Hg' : feels_gravity (DeathSprite_updates cs d) = true).
  { clear c. induction cs as [| c cs IH] using rev_ind; [exact Hg|].
    rewrite DeathSprite_updates_snoc, DeathSprite_update_gravity. exact IH. }
  rewrite Hg'. apply PyFacts.min2_le_r.
Qed.

Lemma DeathSprite_terminal_velocity_witness :
  (dy (ds_mov (DeathSprite_updates (repeat start_camera 60) sample_corpse))
   <= TERMINAL_VELOCITY)%Q.
Proof.
  apply (DeathSprite_terminal_velocity (repeat start_camera 59) start_camera
                                       sample_corpse).
  reflexivity.
Defined.

Lemma DeathSprite_update_still c d :
  feels_gravity d = false ->
  (dy (ds_mov d) == 0)%Q ->
  (y (ent (ds_mov d)) <= cam_y c + SCREEN_HEIGHT)%Q ->
  feels_gravity (DeathSprite_update c d) = false /\
  dy (ds_mov (DeathSprite_update c d)) = dy (ds_mov d) /\
  (y (ent (ds_mov (DeathSprite_update c d))) == y (ent (ds_mov d)))%Q /\
  sprite_alive (DeathSprite_update c d)
  = sprite_alive d && (0 <? cur_lifespan d).
Proof.
  intros Hg Hdy Hy.
  split; [rewrite DeathSprite_update_gravity; exact Hg|].
  split; [rewrite DeathSprite_update_dy, Hg; reflexivity|].
  destruct d as [[[i x0 y0 w0 h0 act al col] vx vy fr] mk tc fh fv L g].
  cbn in Hg, Hdy, Hy. subst g.
  assert (Hon : Py.ltb (cam_y c + SCREEN_HEIGHT) (y0 + vy) = false)
    by (apply PyFacts.ltb_ge; lra).
  unfold DeathSprite_update, sprite_alive. cbv zeta.
  cbn [feels_gravity map_ds_mov ds_mov cur_lifespan].
  destruct (Z.leb_spec L 0) as [Hle | Hgt];
    cbn [feels_gravity map_ds_mov ds_mov cur_lifespan map_ent ent set_x set_y
         set_is_alive set_cur_lifespan x y w h dx dy oid is_active is_alive
         is_colliding is_facing_right];
    rewrite Hon;
    cbn [feels_gravity map_ds_mov ds_mov cur_lifespan map_ent ent set_x set_y
         set_is_alive set_cur_lifespan x y w h dx dy oid is_active is_alive
         is_colliding is_facing_right].
  - split; [lra|]. replace (0 <? L) with false
      by (symmetry; apply Z.ltb_ge; lia).
    rewrite andb_false_r. reflexivity.
  - split; [lra|]. replace (0 <? L) with true
      by (symmetry; apply Z.ltb_lt; lia).
    rewrite andb_true_r. reflexivity.
Qed.

(** X12: an effect without gravity and without vertical speed (the
    sparkle of a collected coin) that is not below the lower edge of the
    screen lives exactly one update longer than its lifespan says: after
    [k] updates it is alive if and only if [k <= lifespan_ticks], because
    the lifespan is tested before it is decremented. *)
Theorem DeathSprite_still_lifetime cs : forall d,
  feels_gravity d = false ->
  (dy (ds_mov d) == 0)%Q ->
  sprite_alive d = true ->
  0 <= cur_lifespan d ->
  Forall (fun c => (y (ent (ds_mov d)) <= cam_y c + SCREEN_HEIGHT)%Q) cs ->
  sprite_alive (DeathSprite_updates cs d)
  = (Z.of_nat (length cs) <=? cur_lifespan d).
Proof.
  induction cs as [| c cs IH]; intros d Hg Hdy Hal Hl Hcs.
  - cbn. rewrite Hal. symmetry. apply Z.leb_le. exact Hl.
  - inversion Hcs as [| ? ? Hc Hcs']; subst.
    destruct (DeathSprite_update_still c d Hg Hdy Hc) as (Hg' & Hdy' & Hy' & Hal').
    cbn [DeathSprite_updates fold_left].
    fold (DeathSprite_updates cs (DeathSprite_update c d)).
    rewrite Hal in Hal'. cbn [andb] in Hal'.
    destruct (Z.ltb_spec 0 (cur_lifespan d)) as [Hpos | Hzero].
    + rewrite IH; try assumption.
      * rewrite DeathSprite_update_lifespan. cbn [length].
        destruct (Z.leb_spec (Z.of_nat (length cs)) (cur_lifespan d - 1)),
                 (Z.leb_spec (Z.of_nat (S (length cs))) (cur_lifespan d));
          try reflexivity; lia.
      * rewrite Hdy'. exact Hdy.
      * rewrite DeathSprite_update_lifespan. lia.
      * eapply Forall_impl; [exact Hcs'|]. intros c' Hc'. cbv beta in *. lra.
    + destruct (sprite_alive (DeathSprite_updates cs (DeathSprite_update c d)))
        eqn:E.
      * apply DeathSprite_updates_alive in E.
        destruct E as [E _]. congruence.
      * symmetry. apply Z.leb_gt. cbn [length]. lia.
Qed.

Lemma DeathSprite_still_lifetime_witness :
  sprite_alive (DeathSprite_updates (repeat start_camera 6) sample_sparkle) = true /\
  sprite_alive (DeathSprite_updates (repeat start_camera 7) sample_sparkle) = false.
Proof.
  split.
  - refine (eq_trans (DeathSprite_still_lifetime (repeat start_camera 6)
                        sample_sparkle _ _ _ _ _) _);
      try reflexivity.
    + vm_compute. discriminate.
    + repeat constructor; vm_compute; discriminate.
  - refine (eq_trans (DeathSprite_still_lifetime (repeat start_camera 7)
                        sample_sparkle _ _ _ _ _) _);
      try reflexivity.
    + vm_compute. discriminate.
    + repeat constructor; vm_compute; discriminate.
Defined.

(** ** Moving platforms *)

Lemma ticks_S n : (ticks (S n) == ticks n + 1)%Q.
Proof.
  unfold ticks. rewrite Nat2Z.inj_succ, <- Z.add_1_r, inject_Z_plus.
  reflexivity.
Qed.

(** One leg of the patrol: as long as the distance left stays positive
    the platform keeps its speed and advances by it every tick. *)
Lemma MovingPlatform_leg n : forall m D c,
  (ticks n * Qabs (dx m) < c)%Q ->
  exists e' c',
    Nat.iter n MovingPlatform_update (AMovingPlatform m D c)
    = AMovingPlatform (mkMovable e' (dx m) (dy m) (is_facing_right m)) D c' /\
    (x e' == x (ent m) + ticks n * dx m)%Q /\
    (c' == c - ticks n * Qabs (dx m))%Q /\
    (oid e', y e', w e', h e', is_active e', is_alive e', is_colliding e')
    = (oid (ent m), y (ent m), w (ent m), h (ent m), is_active (ent m),
       is_alive (ent m), is_colliding (ent m)).
Proof.
  induction n as [| n IH]; intros m D c Hc.
  - exists (ent m), c. cbn. destruct m; cbn.
    repeat split; unfold ticks; cbn; ring.
  - pose proof (Qabs_nonneg (dx m)) as Habs.
    pose proof (ticks_S n) as HS.
    assert (Hn : (ticks n * Qabs (dx m) < c)%Q) by nra.
    destruct (IH m D c Hn) as (e' & c' & Hrun & Hx & Hc' & Hrest).
    rewrite Nat.iter_succ, Hrun. cbn [MovingPlatform_update].
    cbn [dx ent map_ent set_x x].
    assert (Hpos : Py.ltb 0 (c' - Qabs (dx m)) = true)
      by (apply PyFacts.ltb_lt; nra).
    rewrite Hpos. eexists _, _. split; [reflexivity|]. cbn.
    repeat split; try (injection Hrest; intros; congruence).
    + rewrite Hx, HS. ring.
    + rewrite Hc', HS. ring.
Qed.

(** The tick on which the distance left runs out: the platform still
    advances, then turns round and rearms its distance. *)
Lemma MovingPlatform_turn n m D c :
  (ticks n * Qabs (dx m) < c)%Q ->
  (c <= ticks (S n) * Qabs (dx m))%Q ->
  exists e',
    Nat.iter (S n) MovingPlatform_update (AMovingPlatform m D c)
    = AMovingPlatform (mkMovable e' (- dx m) (dy m) (is_facing_right m)) D D /\
    (x e' == x (ent m) + ticks (S n) * dx m)%Q /\
    (oid e', y e', w e', h e', is_active e', is_alive e', is_colliding e')
    = (oid (ent m), y (ent m), w (ent m), h (ent m), is_active (ent m),
       is_alive (ent m), is_colliding (ent m)).
Proof.
  intros Hlo Hhi. pose proof (ticks_S n) as HS.
  destruct (MovingPlatform_leg n m D c Hlo) as (e' & c' & Hrun & Hx & Hc' & Hrest).
  rewrite Nat.iter_succ, Hrun. cbn [MovingPlatform_update].
  cbn [dx ent map_ent set_x x].
  assert (Hneg : Py.ltb 0 (c' - Qabs (dx m)) = false)
    by (apply PyFacts.ltb_ge; nra).
  rewrite Hneg. eexists. split; [reflexivity|]. cbn.
  split; [rewrite Hx, HS; ring|].
  injection Hrest; intros; congruence.
Qed.

(** X13: a moving platform patrols.  If its [distance] is used up on
    the [N]-th tick (it covers [(N-1)|dx| < distance <= N|dx|]), then
    after [N] updates it has advanced by [N * dx], reversed its speed and
    rearmed [cur_distance]; after [2N] updates it is back where it
    started with its original speed, and nothing else about it has
    changed.  The platforms of the game ([dx = 0.25], [distance = 40])
    turn every 160 ticks. *)
Theorem MovingPlatform_patrol n m D :
  (ticks n * Qabs (dx m) < D)%Q ->
  (D <= ticks (S n) * Qabs (dx m))%Q ->
  exists e1 e2 v2,
    Nat.iter (S n) MovingPlatform_update (AMovingPlatform m D D)
    = AMovingPlatform (mkMovable e1 (- dx m) (dy m) (is_facing_right m)) D D /\
    (x e1 == x (ent m) + ticks (S n) * dx m)%Q /\
    Nat.iter (S n + S n) MovingPlatform_update (AMovingPlatform m D D)
    = AMovingPlatform (mkMovable e2 v2 (dy m) (is_facing_right m)) D D /\
    (x e2 == x (ent m))%Q /\ (v2 == dx m)%Q /\
    (oid e2, y e2, w e2, h e2, is_active e2, is_alive e2, is_colliding e2)
    = (oid (ent m), y (ent m), w (ent m), h (ent m), is_active (ent m),
       is_alive (ent m), is_colliding (ent m)).
Proof.
  intros Hlo Hhi.
  destruct (MovingPlatform_turn n m D D Hlo Hhi) as (e1 & Hrun1 & Hx1 & Hrest1).
  pose proof (Qabs_opp (dx m)) as Hopp.
  destruct (MovingPlatform_turn n
              (mkMovable e1 (- dx m) (dy m) (is_facing_right m)) D D)
    as (e2 & Hrun2 & Hx2 & Hrest2).
  { cbn [dx]. rewrite Hopp. exact Hlo. }
  { cbn [dx]. rewrite Hopp. exact Hhi. }
  cbn [dx dy is_facing_right ent] in Hrun2, Hx2, Hrest2.
  exists e1, e2, (- - dx m)%Q.
  split; [exact Hrun1|]. split; [exact Hx1|].
  split; [rewrite Nat.iter_add, Hrun1; exact Hrun2|].
  split; [rewrite Hx2, Hx1; ring|].
  split; [ring|].
  injection Hrest1; injection Hrest2; intros; congruence.
Qed.

Lemma MovingPlatform_patrol_witness :
  exists e1 e2 v2,
    Nat.iter 160 MovingPlatform_update (new_MovingPlatform 1 80 64)
    = AMovingPlatform (mkMovable e1 (- (25 # 100)) 0 true) 40 40 /\
    (x e1 == 120)%Q /\
    Nat.iter 320 MovingPlatform_update (new_MovingPlatform 1 80 64)
    = AMovingPlatform (mkMovable e2 v2 0 true) 40 40 /\
    (x e2 == 80)%Q /\ (v2 == 25 # 100)%Q.
Proof.
  destruct (MovingPlatform_patrol 159
              (mkMovable (mkEntity 1 80 64 16 8 true true false)
                         (25 # 100) 0 true) 40)
    as (e1 & e2 & v2 & H1 & Hx1 & H2 & Hx2 & Hv & _).
  - vm_compute. reflexivity.
  - vm_compute. discriminate.
  - exists e1, e2, v2.
    split; [exact H1|]. split; [rewrite Hx1; vm_compute; reflexivity|].
    split; [exact H2|]. split; [exact Hx2 | exact Hv].
Defined.

(** ** The world bounds *)

(** A state-key assignment on a Player returns and leaves the body of
    the Player alone, but for the velocity that entering DEAD zeroes. *)
Lemma Player_set_state_key_body k d :
  exists d',
    Player_set_state_key k d = (Returned, d') /\
    ent (mov (pw_player d')) = ent (mov (pw_player d)) /\
    _state_key (pw_player d') = k /\
    (dy (mov (pw_player d')) = dy (mov (pw_player d)) \/
     dy (mov (pw_player d')) = 0%Q) /\
    jump (pw_player d') = jump (pw_player d).
Proof.
  destruct (decide (k = DEAD)) as [-> | Hk].
  - destruct (decide (_state_key (pw_player d) = DEAD)) as [E | E].
    + rewrite (Player_set_state_key_same DEAD d E).
      eexists. split; [reflexivity|]. cbn. auto.
    + destruct (Player_die_alive d E) as (sprite & Hdie & _).
      unfold Player_die in Hdie. rewrite Hdie.
      eexists. split; [reflexivity|]. cbn. auto.
  - rewrite (Player_set_state_key_plain k d Hk).
    eexists. split; [reflexivity|]. cbn. auto.
Qed.

Lemma check_world_bounds_inside d :
  in_world d -> (SCROLL_BORDER_Y_CEILING <= player_y d)%Q ->
  check_world_bounds d = (Returned, d).
Proof.
  unfold in_world, player_x, player_y, player_h. intros (Hx0 & Hx1 & Hy) Hc.
  unfold check_world_bounds.
  rewrite (proj2 (PyFacts.ltb_ge _ _) Hc). cbv zeta.
  rewrite (proj2 (PyFacts.ltb_ge _ _) Hy). cbn [and_then].
  rewrite (proj2 (PyFacts.ltb_ge _ _) Hx0).
  rewrite (proj2 (PyFacts.ltb_ge _ _) Hx1). reflexivity.
Qed.

(** The horizontal clamp that ends [check_world_bounds]. *)
Lemma clamp_x_spec d :
  (0 <= player_w d)%Q -> (player_w d <= SCROLL_BORDER_X)%Q ->
  let d1 := if Py.ltb (x (ent (mov (pw_player d)))) 0
            then on_player (map_ent (set_x 0)) d else d in
  let d2 := if Py.ltb SCROLL_BORDER_X (x (ent (mov (pw_player d1))))
            then on_player
                   (map_ent (set_x (SCROLL_BORDER_X - w (ent (mov (pw_player d1))))))
                   d1
            else d1 in
  (0 <= player_x d2)%Q /\ (player_x d2 <= SCROLL_BORDER_X)%Q /\
  player_y d2 = player_y d /\ player_h d2 = player_h d /\
  player_w d2 = player_w d /\ player_key d2 = player_key d /\
  player_dy d2 = player_dy d.
Proof.
  unfold player_w, player_x, player_y, player_h, player_key, player_dy.
  intros Hw0 Hw1. cbv zeta.
  destruct (Py.ltb (x (ent (mov (pw_player d)))) 0) eqn:E0.
  - cbn. change (Py.ltb SCROLL_BORDER_X 0) with false. cbn.
    repeat split; vm_compute; discriminate.
  - apply PyFacts.ltb_ge in E0.
    destruct (Py.ltb SCROLL_BORDER_X (x (ent (mov (pw_player d))))) eqn:E1.
    + cbn. repeat split; lra.
    + apply PyFacts.ltb_ge in E1. repeat split; assumption.
Qed.

Lemma check_world_bounds_spec d :
  (0 <= player_w d)%Q -> (player_w d <= SCROLL_BORDER_X)%Q ->
  exists d',
    check_world_bounds d = (Returned, d') /\
    in_world d' /\
    player_w d' = player_w d /\ player_h d' = player_h d /\
    (player_dy d' = player_dy d \/ player_dy d' = 0%Q) /\
    (player_key d' = player_key d \/ player_key d' = DEAD) /\
    ((SCROLL_BORDER_Y_CEILING <= player_y d)%Q ->
     (SCROLL_BORDER_Y - player_h d < player_y d)%Q ->
     player_key d' = DEAD /\
     player_y d' = (SCROLL_BORDER_Y - player_h d - 1)%Q).
Proof.
  intros Hw0 Hw1. unfold check_world_bounds.
  set (d0 := if Py.ltb (y (ent (mov (pw_player d)))) SCROLL_BORDER_Y_CEILING
             then on_player (map_ent (set_y 0)) d else d).
  assert (H0 : player_w d0 = player_w d /\ player_h d0 = player_h d /\
               player_dy d0 = player_dy d /\ player_key d0 = player_key d /\
               ((SCROLL_BORDER_Y_CEILING <= player_y d)%Q -> d0 = d)).
  { unfold d0. destruct (Py.ltb _ _) eqn:E.
    - repeat split. intros Hc. apply PyFacts.ltb_lt in E.
      unfold player_y in Hc. lra.
    - auto. }
  destruct H0 as (Hw & Hh & Hdy & Hk & Hsame). clearbody d0.
  cbv zeta.
  destruct (Py.ltb (SCROLL_BORDER_Y - h (ent (mov (pw_player d0))))
                   (y (ent (mov (pw_player d0))))) eqn:Ey.
  - (* below the lower border: the Player dies *)
    set (d1 := on_player
                 (map_ent (set_y (SCROLL_BORDER_Y - h (ent (mov (pw_player d0))) - 1)))
                 d0).
    destruct (Player_set_state_key_body DEAD d1) as (d2 & H2 & He2 & Hk2 & Hdy2 & _).
    rewrite H2. cbn [and_then].
    destruct (Player_set_state_key_body DEAD d2) as (d3 & H3 & He3 & Hk3 & Hdy3 & _).
    unfold Player_die. rewrite H3. cbn [and_then].
    assert (He : ent (mov (pw_player d3)) = ent (mov (pw_player d1)))
      by congruence.
    assert (Hw3 : (0 <= player_w d3)%Q /\ (player_w d3 <= SCROLL_BORDER_X)%Q).
    { unfold player_w in *. rewrite He. cbn. rewrite Hw. auto. }
    destruct (clamp_x_spec d3 (proj1 Hw3) (proj2 Hw3))
      as (Hx0 & Hx1 & Hy' & Hh' & Hw' & Hk' & Hdy').
    cbv zeta in Hx0, Hx1, Hy', Hh', Hw', Hk', Hdy'.
    cbv zeta. eexists. split; [reflexivity|].
    assert (Hy3 : player_y d3
                  = (SCROLL_BORDER_Y - h (ent (mov (pw_player d0))) - 1)%Q)
      by (unfold player_y; rewrite He; reflexivity).
    assert (Hh3 : player_h d3 = player_h d0)
      by (unfold player_h; rewrite He; reflexivity).
    assert (Hw3' : player_w d3 = player_w d0)
      by (unfold player_w; rewrite He; reflexivity).
    unfold in_world. rewrite Hy', Hh', Hw', Hk', Hdy', Hy3, Hh3, Hw3'.
    unfold player_y, player_h, player_w, player_key, player_dy in *.
    split; [split; [exact Hx0 | split; [exact Hx1 | lra]]|].
    split; [exact Hw|]. split; [exact Hh|].
    split.
    { destruct Hdy3 as [-> | ->]; [|auto].
      destruct Hdy2 as [-> | ->]; [|auto]. left. exact Hdy. }
    split; [right; exact Hk3|].
    intros Hc _. split; [exact Hk3|]. rewrite (Hsame Hc). reflexivity.
  - apply PyFacts.ltb_ge in Ey. cbn [and_then].
    assert (Hw3 : (0 <= player_w d0)%Q /\ (player_w d0 <= SCROLL_BORDER_X)%Q)
      by (rewrite Hw; auto).
    destruct (clamp_x_spec d0 (proj1 Hw3) (proj2 Hw3))
      as (Hx0 & Hx1 & Hy' & Hh' & Hw' & Hk' & Hdy').
    cbv zeta in Hx0, Hx1, Hy', Hh', Hw', Hk', Hdy'.
    cbv zeta. eexists. split; [reflexivity|].
    unfold in_world. rewrite Hy', Hh', Hw', Hk', Hdy'.
    split; [split; [exact Hx0 | split; [exact Hx1 | exact Ey]]|].
    split; [exact Hw|]. split; [exact Hh|].
    split; [left; exact Hdy|]. split; [left; exact Hk|].
    intros Hc Hlow. rewrite (Hsame Hc) in Ey.
    unfold player_y, player_h in Hlow. lra.
Qed.

(** X14: [check_world_bounds] never raises and, for a Player that is not
    wider than the world, always leaves it inside the world: [x] within
    [[0, SCROLL_BORDER_X]] and [y] not below [SCROLL_BORDER_Y - h], its
    size untouched.  A Player that has fallen below the lower border is
    put one pixel above it and is in state DEAD afterwards; a Player that
    is already inside the world and below the ceiling is left exactly as
    it is. *)
Theorem check_world_bounds_in_world d :
  (0 <= player_w d)%Q -> (player_w d <= SCROLL_BORDER_X)%Q ->
  exists d',
    check_world_bounds d = (Returned, d') /\
    in_world d' /\
    player_w d' = player_w d /\ player_h d' = player_h d /\
    ((SCROLL_BORDER_Y_CEILING <= player_y d)%Q ->
     (SCROLL_BORDER_Y - player_h d < player_y d)%Q ->
     player_key d' = DEAD /\
     player_y d' = (SCROLL_BORDER_Y - player_h d - 1)%Q) /\
    (in_world d -> (SCROLL_BORDER_Y_CEILING <= player_y d)%Q -> d' = d).
Proof.
  intros Hw0 Hw1.
  destruct (check_world_bounds_spec d Hw0 Hw1)
    as (d' & Hrun & Hin & Hw & Hh & _ & _ & Hfall).
  exists d'. repeat split; try assumption; try apply Hin; try apply Hfall;
    try assumption.
  intros Hd Hc. rewrite (check_world_bounds_inside d Hd Hc) in Hrun.
  congruence.
Qed.

Lemma check_world_bounds_in_world_witness :
  exists d',
    check_world_bounds (sample_world (sample_player (- (5)) 200 0 3 AIR))
    = (Returned, d') /\
    in_world d' /\ player_key d' = DEAD.
Proof.
  destruct (check_world_bounds_in_world
              (sample_world (sample_player (- (5)) 200 0 3 AIR)))
    as (d' & Hrun & Hin & _ & _ & Hfall & _).
  - vm_compute. discriminate.
  - vm_compute. discriminate.
  - exists d'. split; [exact Hrun|]. split; [exact Hin|].
    apply Hfall; vm_compute; [discriminate | reflexivity].
Defined.

(** ** The moving states of the Player *)

Lemma ends_and_then (P Q : PlayerWorld -> Prop) r k :
  ends P r -> (forall d, P d -> ends Q (k d)) -> ends Q (and_then r k).
Proof. intros (d & -> & HP) Hk. cbn. apply Hk, HP. Qed.

Lemma ends_returned (P : PlayerWorld -> Prop) d : P d -> ends P (Returned, d).
Proof. intros HP. exists d. auto. Qed.

Lemma same_frame_refl d : same_frame d d.
Proof. repeat split. Qed.

Lemma same_frame_on_player f d0 d :
  (forall m, w (ent (f m)) = w (ent m) /\ h (ent (f m)) = h (ent m)) ->
  same_frame d0 d -> same_frame d0 (on_player f d).
Proof.
  intros Hf (Hw & Hh & Hj). unfold same_frame, player_w, player_h in *. cbn.
  destruct (Hf (mov (pw_player d))) as [-> ->]. auto.
Qed.

Ltac frame_step :=
  first
    [ assumption
    | apply same_frame_on_player; [intros ?; split; reflexivity|]
    | match goal with
      | |- same_frame _ (if ?b then _ else _) => destruct b
      end ].

Lemma same_frame_move_horizontally get_tile d0 d :
  same_frame d0 d -> same_frame d0 (move_horizontally get_tile d).
Proof. intros H. unfold move_horizontally. cbv zeta. repeat frame_step. Qed.

Lemma player_dy_on_player_ent f d :
  player_dy (on_player (fun m => map_ent (f m) m) d) = player_dy d.
Proof. reflexivity. Qed.

(** The invariant the moving states keep from their gravity step on:
    the frame of the Player and, where [capped] is set, a vertical speed of
    at most the terminal velocity. *)
Definition steady (capped : bool) (d0 d : PlayerWorld) : Prop :=
  same_frame d0 d /\
  (capped = true -> (player_dy d <= TERMINAL_VELOCITY)%Q).

Lemma steady_set_state_key capped k d0 d :
  steady capped d0 d -> ends (steady capped d0) (Player_set_state_key k d).
Proof.
  intros ((Hw & Hh & Hj) & Hdy).
  destruct (Player_set_state_key_body k d) as (d' & -> & He & _ & Hdy' & Hj').
  apply ends_returned. unfold steady, same_frame, player_w, player_h, player_dy in *.
  rewrite He, Hj'. repeat split; try assumption.
  intros Hc. destruct Hdy' as [-> | ->]; [auto|]. vm_compute. discriminate.
Qed.

Lemma steady_on_player_ent capped f d0 d :
  (forall m, w (f m (ent m)) = w (ent m) /\ h (f m (ent m)) = h (ent m)) ->
  steady capped d0 d ->
  steady capped d0 (on_player (fun m => map_ent (f m) m) d).
Proof.
  intros Hf ((Hw & Hh & Hj) & Hdy).
  unfold steady, same_frame, player_w, player_h, player_dy in *. cbn.
  destruct (Hf (mov (pw_player d))) as [-> ->]. auto.
Qed.

Lemma steady_set_dy capped v d0 d :
  (capped = true -> (v <= TERMINAL_VELOCITY)%Q) ->
  steady capped d0 d -> steady capped d0 (on_player (set_dy v) d).
Proof.
  intros Hv ((Hw & Hh & Hj) & _).
  unfold steady, same_frame, player_w, player_h, player_dy in *. cbn. auto.
Qed.

(** What an update of a moving state guarantees when it returns. *)
Lemma steady_bounds capped d0 d :
  (0 <= player_w d0)%Q -> (player_w d0 <= SCROLL_BORDER_X)%Q ->
  steady capped d0 d ->
  ends (fun d' : PlayerWorld =>
          in_world d' /\
          player_w d' = player_w d0 /\ player_h d' = player_h d0 /\
          (capped = true -> (player_dy d' <= TERMINAL_VELOCITY)%Q) /\
          (player_key d' = player_key d \/ player_key d' = DEAD))
       (check_world_bounds d).
Proof.
  intros Hw0 Hw1 ((Hw & Hh & Hj) & Hdy).
  destruct (check_world_bounds_spec d) as (d' & -> & Hin & Hw' & Hh' & Hdy' & Hk' & _);
    [rewrite Hw; exact Hw0 | rewrite Hw; exact Hw1 |].
  apply ends_returned. split; [exact Hin|].
  split; [congruence|]. split; [congruence|]. split; [|exact Hk'].
  intros Hc. destruct Hdy' as [-> | ->]; [auto|]. vm_compute. discriminate.
Qed.

Lemma ends_weaken (P Q : PlayerWorld -> Prop) r :
  ends P r -> (forall d, P d -> Q d) -> ends Q r.
Proof. intros (d & -> & HP) HPQ. exists d. auto. Qed.

Lemma steady_gravity capped d0 d :
  same_frame d0 d ->
  steady capped d0
    (on_player (fun m => set_dy (Py.min2 (dy m + GRAVITY) TERMINAL_VELOCITY) m) d).
Proof.
  intros (Hw & Hh & Hj). split.
  - unfold same_frame, player_w, player_h in *. cbn. auto.
  - intros _. unfold player_dy. cbn. apply PyFacts.min2_le_r.
Qed.

Lemma steady_uncapped d0 d : same_frame d0 d -> steady false d0 d.
Proof. intros H. split; [exact H | discriminate]. Qed.

Ltac frame_all get_tile :=
  repeat first
    [ apply same_frame_refl
    | assumption
    | apply (same_frame_move_horizontally get_tile)
    | apply same_frame_on_player; [intros ?; split; reflexivity|]
    | match goal with
      | |- same_frame _ (if ?b then _ else _) => destruct b
      end ].

Lemma steady_ladder_then_bounds get_tile capped d0 d :
  (0 <= player_w d0)%Q -> (player_w d0 <= SCROLL_BORDER_X)%Q ->
  steady capped d0 d ->
  ends (fun d' : PlayerWorld =>
          in_world d' /\
          player_w d' = player_w d0 /\ player_h d' = player_h d0 /\
          (capped = true -> (player_dy d' <= TERMINAL_VELOCITY)%Q))
       (ladder_then_bounds get_tile d).
Proof.
  intros Hw0 Hw1 Hd. unfold ladder_then_bounds. cbv zeta.
  apply ends_and_then with (P := steady capped d0).
  - destruct (check_ladder_collision _ _ _ _ _);
      [apply steady_set_state_key | apply ends_returned]; exact Hd.
  - intros d1 H1.
    eapply ends_weaken; [apply (steady_bounds capped d0 d1 Hw0 Hw1 H1)|].
    cbv beta. tauto.
Qed.

Lemma steady_vertical capped d0 d :
  steady capped d0 d ->
  steady capped d0
    (on_player (set_dy 0)
       (if Py.ltb 0 (dy (mov (pw_player d)))
        then on_player
               (fun m => map_ent (set_y (snap_to_top (y (ent m)) (h (ent m)))) m)
               d
        else on_player
               (fun m => map_ent (set_y (snap_to_bottom (y (ent m)))) m) d)).
Proof.
  intros Hd. apply steady_set_dy; [intros _; vm_compute; discriminate|].
  destruct (Py.ltb 0 _);
    apply (steady_on_player_ent capped (fun m => set_y _));
    try (intros m; split; reflexivity); exact Hd.
Qed.

Lemma PlayerGroundState_update_steady get_tile btn capped d :
  (0 <= player_w d)%Q -> (player_w d <= SCROLL_BORDER_X)%Q ->
  (capped = true -> (- jump (pw_player d) <= TERMINAL_VELOCITY)%Q) ->
  ends (fun d' : PlayerWorld =>
          in_world d' /\
          player_w d' = player_w d /\ player_h d' = player_h d /\
          (capped = true -> (player_dy d' <= TERMINAL_VELOCITY)%Q))
       (PlayerGroundState_update get_tile btn true d).
Proof.
  intros Hw0 Hw1 Hjump. unfold PlayerGroundState_update. cbn [negb]. cbv zeta.
  apply ends_and_then with (P := steady capped d).
  - match goal with
    | |- ends _ (if ?b then _ else _) => destruct b
    end.
    + apply steady_set_state_key, steady_set_dy; [exact Hjump|].
      apply steady_gravity. frame_all get_tile.
    + apply ends_returned, steady_gravity. frame_all get_tile.
  - intros d1 H1.
    apply ends_and_then with (P := steady capped d).
    + match goal with
      | |- ends _ (if ?b then _ else _) => destruct b
      end.
      * apply ends_returned.
        apply (steady_vertical capped d
                 (on_player (fun m => map_ent (set_y (y (ent m) + dy m)) m) d1)).
        apply (steady_on_player_ent capped (fun m => set_y (y (ent m) + dy m)));
          [intros m; split; reflexivity | exact H1].
      * apply steady_set_state_key.
        apply (steady_on_player_ent capped (fun m => set_y (y (ent m) + dy m)));
          [intros m; split; reflexivity | exact H1].
    + intros d2 H2. apply steady_ladder_then_bounds; assumption.
Qed.

Lemma PlayerAirState_update_steady get_tile btn d :
  (0 <= player_w d)%Q -> (player_w d <= SCROLL_BORDER_X)%Q ->
  ends (fun d' : PlayerWorld =>
          in_world d' /\
          player_w d' = player_w d /\ player_h d' = player_h d /\
          (true = true -> (player_dy d' <= TERMINAL_VELOCITY)%Q))
       (PlayerAirState_update get_tile btn true d).
Proof.
  intros Hw0 Hw1. unfold PlayerAirState_update. cbn [negb]. cbv zeta.
  match goal with
  | |- ends _ (and_then (if _ then _ else Player_set_state_key AIR ?dy) _) =>
      assert (Hy : steady true d dy)
  end.
  { apply (steady_on_player_ent true (fun m => set_y (y (ent m) + dy m)));
      [intros m; split; reflexivity|].
    apply steady_gravity. frame_all get_tile. }
  apply ends_and_then with (P := steady true d).
  - match goal with
    | |- ends _ (if ?b then _ else _) => destruct b
    end; [|apply steady_set_state_key, Hy].
    apply ends_and_then with (P := steady true d).
    + match goal with
      | |- ends _ (if ?b then _ else _) => destruct b
      end.
      * apply ends_and_then with (P := steady true d);
          [apply steady_set_state_key, Hy|].
        intros d1 H1. apply ends_returned.
        apply (steady_on_player_ent true
                 (fun m => set_y (snap_to_top (y (ent m)) (h (ent m)))));
          [intros m; split; reflexivity | exact H1].
      * apply ends_returned.
        apply (steady_on_player_ent true
                 (fun m => set_y (snap_to_bottom (y (ent m)))));
          [intros m; split; reflexivity | exact Hy].
    + intros d1 H1. apply ends_returned.
      apply steady_set_dy; [intros _; vm_compute; discriminate | exact H1].
  - intros d2 H2. apply steady_ladder_then_bounds; assumption.
Qed.

Lemma PlayerClimbState_update_steady get_tile btn d :
  (0 <= player_w d)%Q -> (player_w d <= SCROLL_BORDER_X)%Q ->
  ends (fun d' : PlayerWorld =>
          in_world d' /\
          player_w d' = player_w d /\ player_h d' = player_h d /\
          (false = true -> (player_dy d' <= TERMINAL_VELOCITY)%Q))
       (PlayerClimbState_update get_tile btn true d).
Proof.
  intros Hw0 Hw1. unfold PlayerClimbState_update. cbn [negb]. cbv zeta.
  apply ends_and_then with (P := steady false d).
  - match goal with
    | |- ends _ (if ?b then _ else _) => destruct b
    end;
      [apply steady_set_state_key | apply ends_returned];
      apply steady_uncapped; frame_all get_tile.
  - intros d1 H1.
    eapply ends_weaken; [apply (steady_bounds false d d1 Hw0 Hw1 H1)|].
    cbv beta. tauto.
Qed.

(** X15: an update of the Player in one of its moving states (GROUND,
    AIR, CLIMB) never raises and always ends inside the world, whatever
    the input and the tilemap: [x] within [[0, SCROLL_BORDER_X]], [y] not
    below [SCROLL_BORDER_Y - h], and the Player's size untouched (for a
    Player that is not wider than the world). *)
Theorem Player_update_in_world get_tile btn d :
  player_key d <> DEAD ->
  (0 <= player_w d)%Q -> (player_w d <= SCROLL_BORDER_X)%Q ->
  exists d',
    Player_update get_tile btn d = (Returned, d') /\
    in_world d' /\
    player_w d' = player_w d /\ player_h d' = player_h d.
Proof.
  intros Hk Hw0 Hw1. unfold Player_update, player_key in *.
  destruct (_state_key (pw_player d)); [| | |congruence].
  - destruct (PlayerGroundState_update_steady get_tile btn false d Hw0 Hw1)
      as (d' & Hrun & Hin & Hw & Hh & _); [discriminate | eauto].
  - destruct (PlayerAirState_update_steady get_tile btn d Hw0 Hw1)
      as (d' & Hrun & Hin & Hw & Hh & _). eauto.
  - destruct (PlayerClimbState_update_steady get_tile btn d Hw0 Hw1)
      as (d' & Hrun & Hin & Hw & Hh & _). eauto.
Qed.

Lemma Player_update_in_world_witness :
  exists d',
    Player_update empty_tilemap no_input airborne_world = (Returned, d') /\
    in_world d'.
Proof.
  destruct (Player_update_in_world empty_tilemap no_input airborne_world)
    as (d' & Hrun & Hin & _).
  - vm_compute. discriminate.
  - vm_compute. discriminate.
  - vm_compute. discriminate.
  - exists d'. split; [exact Hrun | exact Hin].
Defined.

(** X16: after an update in the GROUND or AIR state the Player never
    moves down faster than the terminal velocity: its [dy] is at most
    [TERMINAL_VELOCITY], whatever speed it had, whatever the input and the
    tiles (in GROUND a jump sets [dy = -jump], which is an upward speed
    for every non-negative jump impulse). *)
Theorem Player_update_terminal_velocity get_tile btn d :
  player_key d = GROUND \/ player_key d = AIR ->
  (0 <= player_w d)%Q -> (player_w d <= SCROLL_BORDER_X)%Q ->
  (0 <= jump (pw_player d))%Q ->
  exists d',
    Player_update get_tile btn d = (Returned, d') /\
    (player_dy d' <= TERMINAL_VELOCITY)%Q.
Proof.
  intros Hk Hw0 Hw1 Hj. unfold Player_update, player_key in *.
  destruct (_state_key (pw_player d));
    [| | destruct Hk; congruence | destruct Hk; congruence].
  - destruct (PlayerGroundState_update_steady get_tile btn true d Hw0 Hw1)
      as (d' & Hrun & _ & _ & _ & Hdy).
    + intros _. unfold TERMINAL_VELOCITY. lra.
    + eauto.
  - destruct (PlayerAirState_update_steady get_tile btn d Hw0 Hw1)
      as (d' & Hrun & _ & _ & _ & Hdy). eauto.
Qed.

Lemma Player_update_terminal_velocity_witness :
  exists d',
    Player_update empty_tilemap no_input
      (sample_world (sample_player 40 20 0 50 AIR)) = (Returned, d') /\
    (player_dy d' <= TERMINAL_VELOCITY)%Q.
Proof.
  apply (Player_update_terminal_velocity empty_tilemap no_input
           (sample_world (sample_player 40 20 0 50 AIR))).
  - right. reflexivity.
  - vm_compute. discriminate.
  - vm_compute. discriminate.
  - vm_compute. discriminate.
Defined.

(** ** Snapping to the tile grid *)


Lemma floor_band (t : Q) :
  (inject_Z (Qfloor (t / inject_Z TILE_SIZE)) * 8 <= t)%Q /\
  (t < inject_Z (Qfloor (t / inject_Z TILE_SIZE)) * 8 + 8)%Q.
Proof.
  pose proof (Qfloor_le (t / inject_Z TILE_SIZE)) as Hlo.
  pose proof (Qlt_floor (t / inject_Z TILE_SIZE)) as Hhi.
  rewrite inject_Z_plus in Hhi.
  set (f := inject_Z (Qfloor (t / inject_Z TILE_SIZE))) in *.
  assert (Ht : (t == t / inject_Z TILE_SIZE * 8)%Q)
    by (unfold TILE_SIZE; change (inject_Z 8) with 8%Q; field).
  set (u := (t / inject_Z TILE_SIZE)%Q) in *.
  change (inject_Z 1) with 1%Q in Hhi.
  split; lra.
Qed.



Lemma floor_nonneg (t : Q) :
  (0 <= t)%Q -> 0 <= Qfloor (t / inject_Z TILE_SIZE).
Proof.
  intros Ht. destruct (floor_band t) as [_ Hhi].
  assert (H : (inject_Z (-1) < inject_Z (Qfloor (t / inject_Z TILE_SIZE)))%Q)
    by (change (inject_Z (-1)) with (- (1))%Q; lra).
  rewrite <- Zlt_Qlt in H. lia.
Qed.

Lemma int_snapped (y : Q) (hz : Z) :
  Py.int (snap_to_top y (inject_Z hz) + inject_Z hz)
  = Qfloor ((y + inject_Z hz) / inject_Z TILE_SIZE) * 8.
Proof.
  unfold snap_to_top. rewrite PyFacts.int_inject_Z.
  unfold Py.int, inject_Z, Qplus. cbn [Qnum Qden].
  rewrite Z.quot_1_r. unfold TILE_SIZE. lia.
Qed.

(** X18: a landing keeps what stopped the fall under the entity: for an
    entity of integral height whose bottom edge is not above the world
    origin, the vertical check of a downward move samples the same tiles
    after the snap as before it. *)
Theorem check_vertical_after_snap get_tile (x y dy w : Q) (hz : Z) :
  (0 <= y + inject_Z hz)%Q ->
  (0 < dy)%Q ->
  check_vertical_tile_collision get_tile x (snap_to_top y (inject_Z hz)) dy w
                                (inject_Z hz)
  = check_vertical_tile_collision get_tile x y dy w (inject_Z hz).
Proof.
  intros Hy Hdy. unfold check_vertical_tile_collision.
  apply PyFacts.ltb_lt in Hdy. rewrite Hdy.
  unfold is_tile_at_world_coord_solid.
  pose proof (floor_nonneg _ Hy) as Hk.
  destruct (floor_band (y + inject_Z hz)) as [Hlo Hhi].
  assert (Hrow : Py.int (snap_to_top y (inject_Z hz) + inject_Z hz) / TILE_SIZE
                 = Py.int (y + inject_Z hz) / TILE_SIZE).
  { rewrite int_snapped. unfold TILE_SIZE at 2 3.
    rewrite Z.div_mul by lia. symmetry.
    apply PyFacts.int_div_band; [lia | exact Hk | |].
    - rewrite inject_Z_mult. exact Hlo.
    - rewrite inject_Z_mult, inject_Z_plus.
      change (inject_Z 1) with 1%Q. change (inject_Z 8) with 8%Q. lra. }
  rewrite Hrow. reflexivity.
Qed.

Lemma check_vertical_after_snap_witness :
  check_vertical_tile_collision row3_tilemap 40 (snap_to_top (162 # 10) 8)
                                (12 # 10) 6 8
  = check_vertical_tile_collision row3_tilemap 40 (162 # 10) (12 # 10) 6 8.
Proof.
  apply (check_vertical_after_snap row3_tilemap 40 (162 # 10) (12 # 10) 6 8).
  - vm_compute. discriminate.
  - vm_compute. reflexivity.
Defined.

(** ** Landing and leaving the ground *)

(** X19: landing.  When the vertical tile check of an AIR update finds
    a solid tile under the falling Player ([dy > 0] after gravity), and the
    snapped Player touches no ladder and is inside the world, the update
    returns with the Player in state GROUND, its bottom edge snapped to the
    tile boundary ([y = snap_to_top y h]) and its vertical speed zero;
    nothing else differs from the world the movement phase produced. *)
Theorem PlayerAirState_landing get_tile btn d :
  player_hits_floor get_tile (air_moved get_tile btn d) = true ->
  (0 < player_dy (air_moved get_tile btn d))%Q ->
  player_on_ladder get_tile (landed (air_moved get_tile btn d)) = false ->
  in_world (landed (air_moved get_tile btn d)) ->
  (SCROLL_BORDER_Y_CEILING <= player_y (landed (air_moved get_tile btn d)))%Q ->
  PlayerAirState_update get_tile btn true d
  = (Returned, landed (air_moved get_tile btn d)) /\
  player_key (landed (air_moved get_tile btn d)) = GROUND /\
  player_dy (landed (air_moved get_tile btn d)) = 0%Q /\
  player_y (landed (air_moved get_tile btn d))
  = snap_to_top (player_y (air_moved get_tile btn d))
                (player_h (air_moved get_tile btn d)).
Proof.
  intros Hfloor Hdy Hladder Hin Hceil.
  split; [|repeat split].
  remember (air_moved get_tile btn d) as d1 eqn:E.
  unfold PlayerAirState_update. cbn [negb]. cbv zeta.
  unfold air_moved in E. cbv zeta in E. rewrite <- E.
  unfold player_hits_floor in Hfloor. cbv zeta in Hfloor. rewrite Hfloor.
  apply PyFacts.ltb_lt in Hdy. unfold player_dy in Hdy. rewrite Hdy.
  rewrite (Player_set_state_key_plain GROUND d1) by discriminate.
  cbn [and_then].
  change (ladder_then_bounds get_tile (landed d1) = (Returned, landed d1)).
  unfold ladder_then_bounds. cbv zeta.
  unfold player_on_ladder in Hladder. cbv zeta in Hladder. rewrite Hladder.
  cbn [and_then]. apply check_world_bounds_inside; assumption.
Qed.

Lemma PlayerAirState_landing_witness :
  exists d',
    PlayerAirState_update row3_tilemap no_input true falling_world
    = (Returned, d') /\
    player_key d' = GROUND /\ (player_y d' == 16)%Q /\ player_dy d' = 0%Q.
Proof.
  destruct (PlayerAirState_landing row3_tilemap no_input falling_world)
    as (Hrun & Hk & Hdy & Hy).
  - vm_compute. reflexivity.
  - vm_compute. reflexivity.
  - vm_compute. reflexivity.
  - repeat split; vm_compute; discriminate.
  - vm_compute. discriminate.
  - eexists. split; [exact Hrun|]. split; [exact Hk|].
    split; [rewrite Hy; vm_compute; reflexivity | exact Hdy].
Defined.

(** X20: leaving the ground.  When no jump button is held and the
    vertical tile check of a GROUND update finds nothing under the Player,
    the update returns with the Player in state AIR (provided it touches no
    ladder and is inside the world): walking off a ledge, or a floor that
    has gone, starts the fall on the same tick, with the gravity of that
    tick already applied. *)
Theorem PlayerGroundState_falls get_tile btn d :
  no_jump btn ->
  player_hits_floor get_tile (ground_moved get_tile btn d) = false ->
  player_on_ladder get_tile (ground_moved get_tile btn d) = false ->
  in_world (ground_moved get_tile btn d) ->
  (SCROLL_BORDER_Y_CEILING <= player_y (ground_moved get_tile btn d))%Q ->
  PlayerGroundState_update get_tile btn true d
  = (Returned, with_key AIR (ground_moved get_tile btn d)) /\
  (player_dy (ground_moved get_tile btn d) <= TERMINAL_VELOCITY)%Q.
Proof.
  intros (Hu & Hs & Ha & Hd & Hb) Hfloor Hladder Hin Hceil.
  split.
  - remember (ground_moved get_tile btn d) as d1 eqn:E.
    unfold PlayerGroundState_update. cbn [negb]. cbv zeta.
    rewrite Hu, Hs, Ha, Hd, Hb. cbn [orb and_then].
    unfold ground_moved in E. cbv zeta in E. rewrite <- E.
    unfold player_hits_floor in Hfloor. cbv zeta in Hfloor. rewrite Hfloor.
    rewrite (Player_set_state_key_plain AIR d1) by discriminate.
    cbn [and_then].
    change (ladder_then_bounds get_tile (with_key AIR d1)
            = (Returned, with_key AIR d1)).
    unfold ladder_then_bounds. cbv zeta.
    change (check_ladder_collision get_tile _ _ _ _)
      with (player_on_ladder get_tile d1).
    rewrite Hladder. cbn [and_then].
    apply check_world_bounds_inside; assumption.
  - unfold ground_moved, player_dy. cbn. apply PyFacts.min2_le_r.
Qed.

Lemma PlayerGroundState_falls_witness :
  exists d',
    PlayerGroundState_update empty_tilemap no_input true ledge_world
    = (Returned, d') /\
    player_key d' = AIR.
Proof.
  destruct (PlayerGroundState_falls empty_tilemap no_input ledge_world)
    as (Hrun & _).
  - repeat split.
  - vm_compute. reflexivity.
  - vm_compute. reflexivity.
  - repeat split; vm_compute; discriminate.
  - vm_compute. discriminate.
  - eexists. split; [exact Hrun | reflexivity].
Defined.

(** ** Riding a platform *)

(** X21: a Player that comes down on a moving platform (top-side
    contact) is carried.  [MovingPlatform.on_collision] fires exactly the
    [on_hit_above] callback and returns with the Player standing flush on
    the platform ([y = platform.y - player.h]), moved along by the
    platform's [dx], its vertical speed zero and its state GROUND; the
    platform, the manager and the runtime are untouched, and the two
    rectangles no longer overlap. *)
Theorem MovingPlatform_carries s m dist cur p :
  this s = AMovingPlatform m dist cur ->
  other s = APlayer p ->
  contact_side s = Some STop ->
  exists p',
    MovingPlatform_on_collision s
    = (Returned, mkScene (this s) (APlayer p') (manager s) (runtime s),
       [OnHitAbove]) /\
    _state_key p' = GROUND /\
    dy (mov p') = 0%Q /\
    y (ent (mov p')) = (y (ent m) - h (ent (mov p)))%Q /\
    x (ent (mov p')) = (x (ent (mov p)) + dx m)%Q /\
    overlapping (mkScene (this s) (APlayer p') (manager s) (runtime s)) = false.
Proof.
  intros Ht Ho Hside. unfold MovingPlatform_on_collision.
  rewrite Ho. cbn [is_player]. rewrite pushback_entity_by_side, Hside.
  cbn [resolved_scene side_event side_callback on_hit_above on_hit
       pushback_y_up pushback_y_down orb finish_hit fire app].
  unfold MovingPlatform_on_hit_above_by_player. rewrite Ht.
  rewrite ground_player_spec. cbn [snd].
  destruct s as [t o g r]. cbn in Ht, Ho. subst t o.
  cbn. eexists. split; [reflexivity|]. cbn.
  repeat split.
  apply not_true_is_false. unfold overlapping, other_entity. cbn.
  rewrite collide_aabb_true. intros (_ & _ & H & _). lra.
Qed.

Lemma MovingPlatform_carries_witness :
  exists p',
    MovingPlatform_on_collision top_scene
    = (Returned,
       mkScene (this top_scene) (APlayer p') no_manager sample_runtime,
       [OnHitAbove]) /\
    _state_key p' = GROUND /\
    y (ent (mov p')) = (20 - 8)%Q.
Proof.
  destruct (MovingPlatform_carries top_scene
              (mkMovable (mkEntity 1 0 20 16 8 true true false) (1 # 4) 0 true)
              40 40 (sample_player 4 13 0 1 AIR))
    as (p' & Hrun & Hk & _ & Hy & _).
  - reflexivity.
  - reflexivity.
  - vm_compute. reflexivity.
  - exists p'. split; [exact Hrun|]. split; [exact Hk | exact Hy].
Defined.

(** ** Enemies *)

Lemma ShroomHead_die_effect sh g r :
  exists sprite,
    ShroomHead_die sh g r
    = (mkShroomHead (map_ent (set_is_alive false) (sh_mov sh)) (sh_marker_tile sh)
                    (sh_transparent_color sh) (sh_score sh) (death_marker_tile sh),
       mkManager (doodads g) (enemies g) (particles g ++ [ADeathSprite sprite])
                 (coins g) (score g + sh_score sh),
       mkRuntime (draws r) (cursor r) (S (next_oid r))).
Proof.
  unfold ShroomHead_die, new_DeathSprite, fresh_oid. cbn.
  eexists. reflexivity.
Qed.

(** X22: a collision of a shroom with a living Player takes exactly one
    of the two.  If the Player stomps (feet above 65% of the shroom's
    height, falling), the shroom dies: its [is_alive] is cleared, its score
    is added to the manager's, one effect is appended to [particles], and
    the Player bounces ([dy] lowered by twice its jump impulse) and keeps
    its state.  Otherwise the Player is put in state DEAD and the shroom
    and the score are untouched. *)
Theorem ShroomHead_collision_takes_one sh d :
  player_key d <> DEAD ->
  exists sh' d',
    ShroomHead_on_collision sh d = (Returned, (sh', d')) /\
    (stomps sh d = true ->
     shroom_alive sh' = false /\
     player_key d' = player_key d /\
     player_dy d' = (player_dy d - jump (pw_player d) * 2)%Q /\
     score (pw_manager d') = score (pw_manager d) + sh_score sh /\
     length (particles (pw_manager d')) = S (length (particles (pw_manager d)))) /\
    (stomps sh d = false ->
     sh' = sh /\ player_key d' = DEAD /\
     score (pw_manager d') = score (pw_manager d)).
Proof.
  intros Hk. unfold ShroomHead_on_collision, stomps, player_y, player_h, player_dy.
  cbv zeta.
  destruct (Player_die_alive d Hk) as (sprite & Hdie & _).
  destruct (Py.ltb (y (ent (mov (pw_player d))) + h (ent (mov (pw_player d)))) _).
  - destruct (Py.ltb 0 (dy (mov (pw_player d)))).
    + match goal with |- context [ShroomHead_die ?a ?b ?c] =>
        destruct (ShroomHead_die_effect a b c) as (sp & ->) end.
      eexists _, _. split; [reflexivity|]. split; [|discriminate].
      intros _. cbn. rewrite length_app. cbn.
      repeat split; lia.
    + rewrite Hdie. eexists _, _. split; [reflexivity|].
      split; [discriminate|]. intros _. repeat split.
  - rewrite Hdie. eexists _, _. split; [reflexivity|].
    split; [discriminate|]. intros _. repeat split.
Qed.

Lemma ShroomHead_collision_takes_one_witness :
  (exists sh' d',
     ShroomHead_on_collision sample_shroom
       (sample_world (sample_player 48 49 0 2 AIR)) = (Returned, (sh', d')) /\
     shroom_alive sh' = false /\ player_key d' = AIR) /\
  (exists sh' d',
     ShroomHead_on_collision sample_shroom
       (sample_world (sample_player 42 56 1 0 GROUND)) = (Returned, (sh', d')) /\
     shroom_alive sh' = true /\ player_key d' = DEAD).
Proof.
  split.
  - destruct (ShroomHead_collision_takes_one sample_shroom
                (sample_world (sample_player 48 49 0 2 AIR)))
      as (sh' & d' & Hrun & Hst & _); [vm_compute; discriminate|].
    exists sh', d'. split; [exact Hrun|].
    destruct Hst as (Ha & Hk & _); [vm_compute; reflexivity|]. auto.
  - destruct (ShroomHead_collision_takes_one sample_shroom
                (sample_world (sample_player 42 56 1 0 GROUND)))
      as (sh' & d' & Hrun & _ & Hno); [vm_compute; discriminate|].
    exists sh', d'. split; [exact Hrun|].
    destruct Hno as (-> & Hk & _); [vm_compute; reflexivity|]. auto.
Defined.

Lemma FireBall_update_params f :
  speed_per_tick (FireBall_update f) = speed_per_tick f /\
  ceiling (FireBall_update f) = ceiling f /\
  start_y (FireBall_update f) = start_y f /\
  x (ent (fb_mov (FireBall_update f))) = x (ent (fb_mov f)).
Proof.
  unfold FireBall_update. cbv zeta.
  destruct (_ || _); repeat split.
Qed.

Lemma FireBall_update_in_shaft f :
  (0 <= speed_per_tick f)%Q -> (0 <= ceiling f)%Q ->
  in_shaft f -> in_shaft (FireBall_update f).
Proof.
  intros Hs Hc. unfold in_shaft, fireball_y, FireBall_update. cbv zeta.
  intros (Hlo & Hhi & Hv & Hbelow & Habove).
  cbn [speed_per_tick ceiling start_y fb_mov].
  destruct (Py.ltb (y (ent (fb_mov f))) (start_y f - ceiling f)) eqn:E1;
    [|destruct (Py.ltb (start_y f) (y (ent (fb_mov f)))) eqn:E2];
    cbn [orb map_ent set_y set_dy ent y dy].
  - apply PyFacts.ltb_lt in E1. specialize (Hbelow E1).
    split; [lra | split; [lra | split; [left; lra | split; intros ?; lra]]].
  - apply PyFacts.ltb_ge in E1. apply PyFacts.ltb_lt in E2.
    specialize (Habove E2).
    split; [lra | split; [lra | split; [right; lra | split; intros ?; lra]]].
  - apply PyFacts.ltb_ge in E1. apply PyFacts.ltb_ge in E2.
    destruct Hv as [Hv | Hv].
    + split; [lra | split; [lra | split; [left; lra | split; intros ?; lra]]].
    + split; [lra | split; [lra | split; [right; lra | split; intros ?; lra]]].
Qed.

(** X23: a fireball never leaves its shaft by more than one step.  From
    its construction on (at [start_y], heading up), after any number of
    updates its [y] lies within
    [[start_y - ceiling - speed_per_tick, start_y + speed_per_tick]] and
    its [x] is where it was created, for every non-negative speed and
    ceiling. *)
Theorem FireBall_stays_in_shaft i px py pw ph speed ceil n :
  (0 <= speed)%Q -> (0 <= ceil)%Q ->
  (py - ceil - speed
   <= fireball_y (Nat.iter n FireBall_update (new_FireBall i px py pw ph speed ceil)))%Q /\
  (fireball_y (Nat.iter n FireBall_update (new_FireBall i px py pw ph speed ceil))
   <= py + speed)%Q /\
  x (ent (fb_mov (Nat.iter n FireBall_update (new_FireBall i px py pw ph speed ceil))))
  = px.
Proof.
  intros Hs Hc.
  set (f0 := new_FireBall i px py pw ph speed ceil).
  assert (H : in_shaft (Nat.iter n FireBall_update f0) /\
              speed_per_tick (Nat.iter n FireBall_update f0) = speed /\
              ceiling (Nat.iter n FireBall_update f0) = ceil /\
              start_y (Nat.iter n FireBall_update f0) = py /\
              x (ent (fb_mov (Nat.iter n FireBall_update f0))) = px).
  { induction n as [| n IH].
    - cbn. unfold in_shaft, fireball_y. cbn.
      split; [|repeat split].
      split; [lra | split; [lra | split; [right; lra | split; intros ?; lra]]].
    - rewrite Nat.iter_succ.
      destruct IH as (Hin & Hsp & Hce & Hst & Hx).
      destruct (FireBall_update_params (Nat.iter n FireBall_update f0))
        as (-> & -> & -> & ->).
      split; [|auto].
      apply FireBall_update_in_shaft; [rewrite Hsp | rewrite Hce |]; assumption. }
  destruct H as ((Hlo & Hhi & _) & Hsp & Hce & Hst & Hx).
  cbv zeta in Hlo, Hhi. rewrite Hsp, Hce, Hst in *.
  split; [exact Hlo|]. split; [exact Hhi | exact Hx].
Qed.

Lemma FireBall_stays_in_shaft_witness :
  (64 - 100 - 1
   <= fireball_y (Nat.iter 1000 FireBall_update (new_FireBall 9 80 64 8 8 1 100)))%Q /\
  (fireball_y (Nat.iter 1000 FireBall_update (new_FireBall 9 80 64 8 8 1 100))
   <= 64 + 1)%Q.
Proof.
  destruct (FireBall_stays_in_shaft 9 80 64 8 8 1 100 1000) as (Hlo & Hhi & _).
  - vm_compute. discriminate.
  - vm_compute. discriminate.
  - split; [exact Hlo | exact Hhi].
Defined.

(** ** Breakable blocks *)

Lemma spawn_debris_effect n e : forall g r,
  let '(g', r') := spawn_debris n e g r in
  length (doodads g') = (length (doodads g) + n)%nat /\
  (enemies g', particles g', coins g', score g')
  = (enemies g, particles g, coins g, score g).
Proof.
  induction n as [| n IH]; intros g r; cbn [spawn_debris].
  - split; [lia | reflexivity].
  - unfold random_uniform, random_random, new_DeathSprite, fresh_oid. cbn.
    match goal with |- context [spawn_debris n e ?g0 ?r0] =>
      specialize (IH g0 r0); destruct (spawn_debris n e g0 r0) as [g' r'] end.
    destruct IH as [Hlen Hrest]. cbn in Hlen, Hrest.
    rewrite length_app in Hlen. cbn in Hlen. split; [lia | exact Hrest].
Qed.

Lemma BreakBlock_on_hit_below_effect b g r :
  let '(b', g', r') := BreakBlock_on_hit_below b g r in
  hp b' = hp b - 1 /\
  block_alive b' = (if hp b - 1 <=? 0 then false else block_alive b) /\
  (length (doodads g) + 3 <= length (doodads g') <= length (doodads g) + 4)%nat /\
  (enemies g', particles g', coins g', score g')
  = (enemies g, particles g, coins g, score g).
Proof.
  unfold BreakBlock_on_hit_below, BreakBlock_spawn_particles,
    random_randint_3_4, random_random.
  cbn [hp bb_ent hit_offset].
  destruct (Py.ltb (draws r (cursor r)) (1 # 2)).
  - match goal with |- context [spawn_debris ?n ?e ?g0 ?r0] =>
      pose proof (spawn_debris_effect n e g0 r0) as H;
      destruct (spawn_debris n e g0 r0) as [g' r'] end.
    destruct H as [Hlen Hrest]. cbn [hp bb_ent hit_offset].
    change (Z.to_nat 3) with 3%nat in Hlen.
    destruct (hp b - 1 <=? 0); cbn; (split; [reflexivity|]);
      (split; [reflexivity|]); (split; [lia | exact Hrest]).
  - match goal with |- context [spawn_debris ?n ?e ?g0 ?r0] =>
      pose proof (spawn_debris_effect n e g0 r0) as H;
      destruct (spawn_debris n e g0 r0) as [g' r'] end.
    destruct H as [Hlen Hrest]. cbn [hp bb_ent hit_offset].
    change (Z.to_nat 4) with 4%nat in Hlen.
    destruct (hp b - 1 <=? 0); cbn; (split; [reflexivity|]);
      (split; [reflexivity|]); (split; [lia | exact Hrest]).
Qed.

Lemma hits_below_effect n : forall b g r,
  let '(b', g', r') := hits_below n b g r in
  hp b' = hp b - Z.of_nat n /\
  block_alive b'
  = (if (n =? 0)%nat || (0 <? hp b - Z.of_nat n) then block_alive b else false) /\
  (length (doodads g) + 3 * n <= length (doodads g')
   <= length (doodads g) + 4 * n)%nat /\
  (enemies g', particles g', coins g', score g')
  = (enemies g, particles g, coins g, score g).
Proof.
  induction n as [| n IH]; intros b g r.
  - cbn. repeat split; lia.
  - cbn [hits_below].
    pose proof (BreakBlock_on_hit_below_effect b g r) as H1.
    destruct (BreakBlock_on_hit_below b g r) as [[b1 g1] r1].
    destruct H1 as (Hhp1 & Hal1 & Hlen1 & Hrest1).
    specialize (IH b1 g1 r1).
    destruct (hits_below n b1 g1 r1) as [[b' g'] r'].
    destruct IH as (Hhp & Hal & Hlen & Hrest).
    split; [lia|]. split; [|split; [lia | congruence]].
    rewrite Hal, Hal1, Hhp1. cbn [Nat.eqb orb].
    replace (hp b - 1 - Z.of_nat n) with (hp b - Z.of_nat (S n)) by lia.
    destruct (Z.ltb_spec 0 (hp b - Z.of_nat (S n))) as [Hpos | Hneg].
    + rewrite orb_true_r.
      destruct (Z.leb_spec (hp b - 1) 0); [lia | reflexivity].
    + rewrite orb_false_r. destruct n as [| n]; cbn [Nat.eqb].
      * destruct (Z.leb_spec (hp b - 1) 0); [reflexivity | lia].
      * reflexivity.
Qed.

(** X24: a breakable block takes exactly [hp] hits from below.  After
    [n] hits its [hp] has gone down by [n]; a live block with [hp > 0] is
    still alive after [n < hp] hits and is dead after [hp] hits or more,
    and is never revived; every hit adds three or four debris sprites to
    [doodads] and leaves the other collections and the counters alone. *)
Theorem BreakBlock_breaks_after_hp_hits n b g r :
  0 < hp b -> block_alive b = true ->
  exists b' g' r',
    hits_below n b g r = (b', g', r') /\
    hp b' = hp b - Z.of_nat n /\
    block_alive b' = (Z.of_nat n <? hp b) /\
    (length (doodads g) + 3 * n <= length (doodads g')
     <= length (doodads g) + 4 * n)%nat /\
    (enemies g', particles g', coins g', score g')
    = (enemies g, particles g, coins g, score g).
Proof.
  intros Hhp Hal.
  pose proof (hits_below_effect n b g r) as H.
  destruct (hits_below n b g r) as [[b' g'] r'].
  destruct H as (Hhp' & Hal' & Hlen & Hrest).
  exists b', g', r'. split; [reflexivity|]. split; [exact Hhp'|].
  split; [|split; assumption].
  rewrite Hal', Hal.
  destruct (Z.ltb_spec (Z.of_nat n) (hp b)) as [Hlt | Hge].
  - replace (0 <? hp b - Z.of_nat n) with true
      by (symmetry; apply Z.ltb_lt; lia).
    rewrite orb_true_r. reflexivity.
  - replace (0 <? hp b - Z.of_nat n) with false
      by (symmetry; apply Z.ltb_ge; lia).
    destruct n as [| n]; [lia | reflexivity].
Qed.

Lemma BreakBlock_breaks_after_hp_hits_witness :
  (exists b' g' r',
     hits_below 2 sample_block no_manager sample_runtime = (b', g', r') /\
     block_alive b' = true) /\
  (exists b' g' r',
     hits_below 3 sample_block no_manager sample_runtime = (b', g', r') /\
     block_alive b' = false).
Proof.
  split.
  - destruct (BreakBlock_breaks_after_hp_hits 2 sample_block no_manager
                                              sample_runtime)
      as (b' & g' & r' & Hrun & _ & Hal & _); [reflexivity | reflexivity |].
    exists b', g', r'. split; [exact Hrun | exact Hal].
  - destruct (BreakBlock_breaks_after_hp_hits 3 sample_block no_manager
                                              sample_runtime)
      as (b' & g' & r' & Hrun & _ & Hal & _); [reflexivity | reflexivity |].
    exists b', g', r'. split; [exact Hrun | exact Hal].
Defined.

(** ** Tiles *)

(** X25: the tile classes are disjoint: no tile id is both solid and a
    ladder. *)
Theorem solid_not_ladder (t : TileId) :
  is_solid_tile t && is_ladder_tile t = false.
Proof.
  destruct (is_ladder_tile t) eqn:El; [|apply andb_false_r].
  unfold is_ladder_tile in El. apply bool_decide_eq_true in El.
  apply elem_of_union in El as [El | El]; apply elem_of_singleton in El;
    subst t; vm_compute; reflexivity.
Qed.

(** X26: an entity that does not move on an axis never collides with
    the tiles on that axis, wherever it is: with [dx = 0] the horizontal
    check, and with [dy = 0] the vertical check, answer False on every
    tilemap, even for an entity inside solid tiles. *)
Theorem tile_checks_need_motion get_tile (x y v w h : Q) :
  (v == 0)%Q ->
  check_horizontal_tile_collision get_tile x y v w h = false /\
  check_vertical_tile_collision get_tile x y v w h = false.
Proof.
  intros Hv.
  assert (H1 : Py.ltb 0 v = false) by (apply PyFacts.ltb_ge; lra).
  assert (H2 : Py.ltb v 0 = false) by (apply PyFacts.ltb_ge; lra).
  unfold check_horizontal_tile_collision, check_vertical_tile_collision.
  rewrite H1, H2. split; reflexivity.
Qed.

Lemma tile_checks_need_motion_witness :
  check_horizontal_tile_collision (fun _ _ => SOLID_BRICK) 40 24 0 6 8 = false /\
  check_vertical_tile_collision (fun _ _ => SOLID_BRICK) 40 24 0 6 8 = false.
Proof.
  apply (tile_checks_need_motion (fun _ _ => SOLID_BRICK) 40 24 0 6 8).
  reflexivity.
Defined.

(** ** States without a parent *)

(** X27: a state that was never given a parent makes a transition fail
    with AttributeError, and where it fails decides what is left behind.
    If the current state has no parent, its [on_exit] raises: the machine
    keeps its key and state and the new state's [on_enter] is not run.  If
    only the new state has none, [on_exit] has run and the key and state
    are already switched when [on_enter] raises.  (Base-class hooks; the
    data of the owner is untouched in both cases.) *)
Theorem set_state_key_without_parent {K : Type} `{Countable K} {D : Type}
    (m : StateMachine K D) (d : D) (k : K) (s' : State D) :
  state_map m !! k = Some s' ->
  sm_state_key m <> k ->
  state_class (state m) = BaseState ->
  state_class s' = BaseState ->
  (has_parent (state m) = false ->
   set_state_key k m d
   = (Raised AttributeError, m, d, [OnExit (sm_state_key m)])) /\
  (has_parent (state m) = true -> has_parent s' = false ->
   set_state_key k m d
   = (Raised AttributeError, mkStateMachine (state_map m) k s', d,
      [OnExit (sm_state_key m); OnEnter k])).
Proof.
  intros Hk Hne Hc Hc'. unfold set_state_key. rewrite Hk.
  destruct (decide (sm_state_key m = k)); [congruence|].
  unfold call_on_exit, call_on_enter. rewrite Hc, Hc'. cbn.
  split.
  - intros ->. reflexivity.
  - intros -> ->. reflexivity.
Qed.

Lemma set_state_key_without_parent_witness :
  set_state_key AIR orphan_machine tt
  = (Raised AttributeError, orphan_machine, tt, [OnExit GROUND]) /\
  sm_state_key (snd (fst (fst (set_state_key AIR half_bound_machine tt)))) = AIR.
Proof.
  split.
  - apply (set_state_key_without_parent orphan_machine tt AIR
             (mkState BaseState true));
      [vm_compute; reflexivity | discriminate | reflexivity | reflexivity
      | reflexivity].
  - rewrite (proj2 (set_state_key_without_parent half_bound_machine tt AIR
                      (mkState BaseState false) ltac:(vm_compute; reflexivity)
                      ltac:(discriminate) eq_refl eq_refl) eq_refl eq_refl).
    reflexivity.
Defined.

(** ** Falling remains of a platform *)

Lemma key_of_apply_horz a s : key_of (apply_horz_pushback a s) = key_of s.
Proof.
  unfold apply_horz_pushback.
  repeat match goal with |- context [if ?b then _ else _] => destruct b end;
    rewrite ?key_of_map_partner; reflexivity.
Qed.

Lemma this_map_partner f s : this (map_partner f s) = this s.
Proof. reflexivity. Qed.

(** X28: the falling remains of a platform kill the Player in one case
    only.  After [CollidableDeathSprite.on_collision] with a living Player
    the Player is in state DEAD exactly when the contact was resolved on
    the bottom side (the Player came up into the sprite) while the sprite
    was moving down; in every other case the call returns with the Player
    alive. *)
Theorem CollidableDeathSprite_kills_from_above s d p :
  this s = ADeathSprite d ->
  other s = APlayer p ->
  _state_key p <> DEAD ->
  exists s' tr,
    CollidableDeathSprite_on_collision s = (Returned, s', tr) /\
    (key_of s' = Some DEAD <->
     contact_side s = Some SBottom /\ (0 < dy (ds_mov d))%Q).
Proof.
  intros Ht Ho Hk. unfold CollidableDeathSprite_on_collision.
  rewrite Ho. cbn [is_player]. rewrite pushback_entity_by_side.
  assert (Hkey : key_of s = Some (_state_key p))
    by (unfold key_of; rewrite Ho; reflexivity).
  destruct (contact_side s) as [[] |] eqn:Hside.
  - cbn. eexists _, _. split; [reflexivity|].
    rewrite key_of_apply_horz, key_of_map_partner, Hkey.
    split; [intros [= E]; congruence | intros [[=] _]].
  - cbn. eexists _, _. split; [reflexivity|].
    rewrite key_of_apply_horz, key_of_map_partner, Hkey.
    split; [intros [= E]; congruence | intros [[=] _]].
  - cbn [resolved_scene pushback_y_up pushback_y_down orb side_event
         side_callback on_hit_below on_hit finish_hit fire app].
    unfold CollidableDeathSprite_on_hit_player_below.
    rewrite this_apply_vert, this_map_partner, Ht.
    match goal with |- context [apply_vert_pushback ?a ?s0] =>
      pose proof (key_of_apply_vert a s0) as Hkv;
      destruct (other (apply_vert_pushback a s0)) as [mv | p1] eqn:Eo end.
    { unfold key_of in Hkv at 1. rewrite Eo in Hkv.
      rewrite key_of_map_partner, Hkey in Hkv. discriminate. }
    unfold key_of in Hkv at 1. rewrite Eo in Hkv.
    rewrite key_of_map_partner, Hkey in Hkv. injection Hkv as Hk1.
    destruct (Py.ltb 0 (dy (ds_mov d))) eqn:Edy.
    + eexists _, _. split; [reflexivity|].
      match goal with |- context [Player_die ?w0] =>
        destruct (Player_die_alive w0) as (sprite & -> & _) end;
        [cbn; congruence|].
      cbn. split; [|reflexivity].
      intros _. split; [reflexivity | apply PyFacts.ltb_lt, Edy].
    + eexists _, _. split; [reflexivity|].
      unfold key_of. rewrite Eo.
      split; [intros [= E]; congruence|].
      intros [_ Hd]. apply PyFacts.ltb_lt in Hd. congruence.
  - cbn [resolved_scene pushback_y_up pushback_y_down orb side_event
         side_callback on_hit_above on_hit].
    rewrite ground_player_spec. cbn [finish_hit fire app].
    eexists _, _. split; [reflexivity|].
    match goal with |- context [other ?s0] =>
      destruct (other s0) as [mv | p1] eqn:Eo end.
    + unfold key_of at 1. rewrite Eo.
      split; [discriminate | intros [[=] _]].
    + unfold key_of. cbn. split; [discriminate | intros [[=] _]].
  - eexists _, _. split; [reflexivity|]. rewrite Hkey.
    split; [intros [= E]; congruence | intros [[=] _]].
Qed.

Lemma CollidableDeathSprite_kills_from_above_witness :
  exists s' tr,
    CollidableDeathSprite_on_collision crush_scene = (Returned, s', tr) /\
    key_of s' = Some DEAD.
Proof.
  destruct (CollidableDeathSprite_kills_from_above crush_scene
              (mkDeathSprite
                 (mkMovable (mkEntity 21 40 40 8 8 true true false) 0 2 true)
                 (1, 11) DEFAULT_TRANSPARENT_COLOR false false 15 true)
              (sample_player 40 47 0 (- (2)) AIR))
    as (s' & tr & Hrun & Hiff).
  - reflexivity.
  - reflexivity.
  - vm_compute. discriminate.
  - exists s', tr. split; [exact Hrun|]. apply Hiff.
    split; vm_compute; reflexivity.
Defined.
